(** * Order-fulfilment workflow: inventory store, name resolver, workflow
      graph and payment handler

    A shallow embedding of [tools/database.py], [agent_graph.py],
    [protocols/payment_proto.py], [protocols/chat_proto.py] and
    [tools/skyfire.py].

    Conventions of the embedding.
    - A Python [int] is a [Z]; a Python [str] is a [string] whose characters
      are ASCII (codes below 128): [str.lower], [str.strip] and SQLite's
      [LOWER] are written out for that range and leave other bytes alone.
    - A SQLite [REAL] is the rational its decimal literal denotes ([Q]);
      [None] in an [option] column value is SQL [NULL].
    - The [inventory] table is the list of its rows in rowid order, the
      order in which a [SELECT] without an index scans them.
    - Python dicts that are used as maps are [gmap]s; dicts whose iteration
      order reaches a message are insertion-ordered association lists.
    - Storage and database faults (the [except Exception] branches around
      [ctx.storage] and [sqlite3] calls) are outside the model: a storage
      or SQL statement always completes, with one exception that the code
      can reach through its arguments alone.  A quantity in the table is
      an SQLite [INTEGER], and [restock_item] adds to it without a bound:
      the call raises [OverflowError] when the sum is no 64-bit integer.
      [restock_item_raises] tells for which calls; [restock_item] and
      [restocker_node] give the outcome of the calls that return, and what
      is stated of their outcome for every quantity carries that
      condition. *)

From Stdlib Require Import ZArith QArith String Ascii List Bool Lia.
From Stdlib Require Import DecimalString.
From stdpp Require Import base strings gmap list.

Open Scope string_scope.
Open Scope Z_scope.

(* ===================================================================== *)
(** ** Python string primitives                                           *)
(* ===================================================================== *)

Module PyStr.

(** [c.lower()] on one ASCII character. *)
Definition lower_ascii (c : ascii) : ascii :=
  let n := nat_of_ascii c in
  if ((65 <=? n)%nat && (n <=? 90)%nat)%bool
  then ascii_of_nat (n + 32) else c.

(** [s.lower()]. *)
Fixpoint lower (s : string) : string :=
  match s with
  | EmptyString => EmptyString
  | String c s' => String (lower_ascii c) (lower s')
  end.

(** [c.isspace()] for ASCII: TAB, LF, VT, FF, CR, FS, GS, RS, US, SPACE. *)
Definition is_space (c : ascii) : bool :=
  let n := nat_of_ascii c in
  (((9 <=? n)%nat && (n <=? 13)%nat)
   || ((28 <=? n)%nat && (n <=? 32)%nat))%bool.

(** [s.lstrip()]. *)
Fixpoint lstrip (s : string) : string :=
  match s with
  | EmptyString => EmptyString
  | String c s' => if is_space c then lstrip s' else s
  end.

(** [s.rstrip()]: a character is dropped when it is white space and
    everything after it has been dropped. *)
Fixpoint rstrip (s : string) : string :=
  match s with
  | EmptyString => EmptyString
  | String c s' =>
      match rstrip s' with
      | EmptyString => if is_space c then EmptyString
                       else String c EmptyString
      | r => String c r
      end
  end.

(** [s.strip()]. *)
Definition strip (s : string) : string := rstrip (lstrip s).

(** [s.replace(c, "")] for a one-character pattern [c]. *)
Fixpoint remove_char (c : ascii) (s : string) : string :=
  match s with
  | EmptyString => EmptyString
  | String d s' =>
      if Ascii.eqb d c then remove_char c s' else String d (remove_char c s')
  end.

(** [s.endswith(c)] for a one-character suffix [c]. *)
Fixpoint endswith_char (c : ascii) (s : string) : bool :=
  match s with
  | EmptyString => false
  | String d EmptyString => Ascii.eqb d c
  | String _ s' => endswith_char c s'
  end.

(** [s[:-1]]. *)
Fixpoint drop_last (s : string) : string :=
  match s with
  | EmptyString => EmptyString
  | String _ EmptyString => EmptyString
  | String d s' => String d (drop_last s')
  end.

(** [x in names] for a list of strings. *)
Definition str_in (x : string) (names : list string) : bool :=
  existsb (String.eqb x) names.

(** [", ".join(parts)]. *)
Fixpoint join (sep : string) (parts : list string) : string :=
  match parts with
  | [] => ""
  | [p] => p
  | p :: ps => p ++ sep ++ join sep ps
  end.

(** [str(n)] and [f"{n}"] for an [int]. *)
Definition of_int (n : Z) : string := NilZero.string_of_int (Z.to_int n).

End PyStr.

(* ===================================================================== *)
(** ** tools/database.py                                                  *)
(* ===================================================================== *)

Module Database.
Import PyStr.

(** One row of [inventory (item_name TEXT PRIMARY KEY, quantity INTEGER,
    price REAL)]. *)
Record row : Type := mkRow {
  item_name : string;
  quantity : Z;
  price : option Q
}.

(** The table, in rowid order. *)
Definition table : Type := list row.

(** The database file: [None] when it holds no [inventory] table. *)
Definition database : Type := option table.

(** An entry of [parsed_items]: [{"item_name": ..., "quantity": ...}]. *)
Record item : Type := mkItem {
  it_name : string;
  it_quantity : Z
}.

(** *** SQL statements used by the module *)

(** [SELECT ... FROM inventory WHERE item_name = ?] then [fetchone()]. *)
Fixpoint select_row (name : string) (t : table) : option row :=
  match t with
  | [] => None
  | r :: t' => if String.eqb (item_name r) name then Some r
               else select_row name t'
  end.

(** [SELECT ... FROM inventory WHERE LOWER(item_name) = LOWER(?)] then
    [fetchone()]. *)
Fixpoint select_row_lower (name : string) (t : table) : option row :=
  match t with
  | [] => None
  | r :: t' => if String.eqb (lower (item_name r)) (lower name) then Some r
               else select_row_lower name t'
  end.

(** [UPDATE inventory SET quantity = ? WHERE item_name = ?]. *)
Definition update_quantity (new_qty : Z) (name : string) (t : table) : table :=
  map (fun r => if String.eqb (item_name r) name
                then mkRow (item_name r) new_qty (price r) else r) t.

(** [price IS NULL OR price = 0]. *)
Definition price_missing (p : option Q) : bool :=
  match p with
  | None => true
  | Some q => Qeq_bool q 0
  end.

(** [UPDATE inventory SET price = ? WHERE item_name = ? AND
    (price IS NULL OR price = 0)]. *)
Definition update_missing_price (new_price : Q) (name : string) (t : table)
  : table :=
  map (fun r => if (String.eqb (item_name r) name && price_missing (price r))%bool
                then mkRow (item_name r) (quantity r) (Some new_price)
                else r) t.

(** *** init_database *)

Definition sample_items : list row :=
  [ mkRow "tshirt" 10 (Some 19.99%Q);
    mkRow "jeans" 5 (Some 49.99%Q);
    mkRow "shoes" 8 (Some 79.99%Q);
    mkRow "hat" 15 (Some 14.99%Q);
    mkRow "jacket" 3 (Some 99.99%Q) ].

(** [default_prices], in the order [.items()] yields it. *)
Definition default_prices : list (string * Q) :=
  [ ("tshirt", 19.99%Q);
    ("jeans", 49.99%Q);
    ("shoes", 79.99%Q);
    ("hat", 14.99%Q);
    ("jacket", 99.99%Q) ].

(** [init_database()]: the table that the file holds afterwards.
    [CREATE TABLE IF NOT EXISTS] turns a missing table into an empty one;
    every table of the model has the [price] column, so the
    [ALTER TABLE ... ADD COLUMN] raises [OperationalError] and is passed
    over. *)
Definition init_database (d : database) : table :=
  let t := match d with Some t => t | None => [] end in
  let count := length t in
  if (count =? 0)%nat
  then (t ++ sample_items)%list
  else fold_left (fun acc '(name, p) => update_missing_price p name acc)
                 default_prices t.

(** [get_connection()]: the table the returned connection works on; the
    file is initialised first when it has no [inventory] table. *)
Definition get_connection (d : database) : table :=
  match d with
  | Some t => t
  | None => init_database None
  end.

(** *** normalize_item_name *)

Definition db_item_names : list string :=
  ["tshirt"; "jeans"; "shoes"; "hat"; "jacket"].

Definition name_mappings : gmap string string :=
  list_to_map
    [ ("tshirts", "tshirt");
      ("t-shirts", "tshirt");
      ("t_shirts", "tshirt");
      ("tshirt", "tshirt");
      ("shoe", "shoes");
      ("shoes", "shoes");
      ("hats", "hat");
      ("hat", "hat");
      ("jackets", "jacket");
      ("jacket", "jacket");
      ("jeans", "jeans");
      ("jean", "jeans") ].

(** The first two statements of the function body:
    [item_name.lower().strip().replace("-", "").replace(" ", "")]. *)
Definition clean (name : string) : string :=
  remove_char " " (remove_char "-" (strip (lower name))).

Definition normalize_item_name (name : string) : string :=
  if String.eqb name "" then ""
  else
    let normalized := clean name in
    match name_mappings !! normalized with
    | Some canonical => canonical
    | None =>
        if str_in normalized db_item_names then normalized
        else if endswith_char "s" normalized then
          let singular := drop_last normalized in
          if str_in singular db_item_names then singular
          else match name_mappings !! singular with
               | Some canonical => canonical
               | None => normalized
               end
        else normalized
    end.

(** *** Stock queries *)

(** The three-step lookup shared by [check_stock] and
    [check_stock_multiple]: exact name, then normalized name, then
    case-insensitive name; [result[0] if result else 0]. *)
Definition lookup_quantity (name : string) (t : table) : Z :=
  let normalized_name := normalize_item_name name in
  let result := select_row name t in
  let result :=
    match result with
    | None => if negb (String.eqb normalized_name name)
              then select_row normalized_name t else None
    | Some _ => result
    end in
  let result :=
    match result with
    | None => select_row_lower name t
    | Some _ => result
    end in
  match result with
  | Some r => quantity r
  | None => 0
  end.

Definition check_stock (name : string) (d : database) : Z * database :=
  let t := get_connection d in
  (lookup_quantity name t, Some t).

(** [check_stock_multiple]: the result dict maps each original name to
    its quantity. *)
Definition check_stock_multiple (items : list item) (d : database)
  : gmap string Z * database :=
  let t := get_connection d in
  (fold_left (fun results it =>
                <[it_name it := lookup_quantity (it_name it) t]> results)
             items ∅,
   Some t).

(** *** Mutations *)

Definition subtract_inventory (name : string) (qty : Z) (d : database)
  : bool * database :=
  let t := get_connection d in
  match select_row name t with
  | None => (false, Some t)
  | Some r =>
      let current_qty := quantity r in
      if current_qty <? qty then (false, Some t)
      else
        let new_qty := current_qty - qty in
        (true, Some (update_quantity new_qty name t))
  end.

(** [restock_item], for a call that returns.  The [UPDATE] binds
    [new_qty] as an SQLite [INTEGER]: [restock_item_raises] below tells
    when the call raises instead of returning. *)
Definition restock_item (name : string) (qty : Z) (d : database)
  : bool * database :=
  let t := get_connection d in
  match select_row name t with
  | None => (false, Some t)
  | Some r =>
      let current_qty := quantity r in
      let new_qty := current_qty + qty in
      (true, Some (update_quantity new_qty name t))
  end.

(** The values an SQLite [INTEGER] holds: [sqlite3] refuses to bind a
    Python [int] outside the signed 64-bit range. *)
Definition int64 (z : Z) : bool :=
  ((- 2 ^ 63 <=? z) && (z <=? 2 ^ 63 - 1))%bool.

(** The call [restock_item(name, qty)] raises [OverflowError]: the item
    is known and its new quantity is no 64-bit integer.  The exception
    leaves [cursor.execute] before the [UPDATE] runs, so nothing is
    written. *)
Definition restock_item_raises (name : string) (qty : Z) (d : database)
  : bool :=
  match select_row name (get_connection d) with
  | None => false
  | Some r => negb (int64 (quantity r + qty))
  end.

(** *** Prices *)

(** [float(result[0]) if result and result[0] is not None else 0.0]. *)
Definition price_of_result (result : option row) : Q :=
  match result with
  | Some r => match price r with Some p => p | None => 0 end
  | None => 0
  end.

Definition get_item_price (name : string) (d : database) : Q * database :=
  let t := get_connection d in
  (price_of_result (select_row name t), Some t).

Definition get_items_prices (items : list item) (d : database)
  : gmap string Q * database :=
  let t := get_connection d in
  (fold_left (fun results it =>
                <[it_name it := price_of_result (select_row (it_name it) t)]>
                  results)
             items ∅,
   Some t).

End Database.

(* ===================================================================== *)
(** ** Values shared by the workflow graph and the protocol handlers      *)
(* ===================================================================== *)

Module Runtime.
Import PyStr Database.

(** An insertion-ordered dict with string keys: assigning to a key that
    is present keeps its position, a new key goes last. *)
Definition odict (V : Type) : Type := list (string * V).

Fixpoint odict_set {V} (k : string) (v : V) (d : odict V) : odict V :=
  match d with
  | [] => [(k, v)]
  | (k', v') :: d' =>
      if String.eqb k' k then (k, v) :: d' else (k', v') :: odict_set k v d'
  end.

(** LangChain messages. *)
Inductive BaseMessage : Type :=
| HumanMessage (content : string)
| AIMessage (content : string).

(** A value of [stock_check_results]. *)
Record stock_check : Type := mkCheck {
  available_qty : Z;
  requested_qty : Z;
  is_available : bool
}.

(** [AgentState]; a [NotRequired] key is an [option]. *)
Record AgentState : Type := mkState {
  messages : list BaseMessage;
  user_request : option string;
  parsed_items : option (list item);
  stock_check_results : option (odict stock_check);
  stock_availability : option bool;
  inventory_subtracted : option bool;
  updated_stock_quantities : option (gmap string Z);
  payment_requested : option bool;
  payment_status : option string;
  status : option string;
  restocked_items : option (list string);
  error_message : option string
}.

(** An entry of the conversation history. *)
Record hist_entry : Type := mkHist {
  role : string;
  content : string
}.

(** The ["state"] dict of a session: the keys [_get_session_data] puts
    there, [payment_confirmed], and the keys [run_agent_turn] returns.
    [order_id], [item], [quantity] and [total_price] only ever hold
    [None], so for them the field says whether the key is present. *)
Record SessionState : Type := mkSession {
  ss_order_id : bool;
  ss_item : bool;
  ss_quantity : bool;
  ss_total_price : bool;
  ss_payment_confirmed : option bool;
  ss_order_dispatched : option bool;
  ss_user_request : option string;
  ss_parsed_items : option (list item);
  ss_stock_check_results : option (odict stock_check);
  ss_stock_availability : option bool;
  ss_inventory_subtracted : option bool;
  ss_updated_stock_quantities : option (gmap string Z);
  ss_payment_requested : option bool;
  ss_payment_status : option string;
  ss_status : option string;
  ss_restocked_items : option (list string);
  ss_error_message : option string
}.

(** The dict stored under a session key. *)
Record SessionData : Type := mkData {
  sd_state : option SessionState;
  sd_history : option (list hist_entry);
  sd_parsed_items : option (list item)
}.

(** A value of [ctx.storage]. *)
Inductive stored : Type :=
| StoredBool (b : bool)
| StoredDict (data : SessionData).

(** [Funds]. *)
Record Funds : Type := mkFunds {
  currency : string;
  amount : string;
  payment_method : string
}.

(** Messages the agent sends.  A [RequestPayment] carries the data its
    description and metadata are rendered from: the parsed items, the
    unit price of each and the order total. *)
Inductive message : Type :=
| ChatAcknowledgement (acknowledged_msg_id : string)
| ChatMessage (text : string)
| RequestPayment (accepted_funds : list Funds) (recipient : string)
                 (items : list (item * Q)) (total_price : Q)
| CompletePayment (transaction_id : string)
| RejectPayment (reason : string).

(** What the process does to the outside, in the order it does it: the
    calls of the two mutating inventory functions (with their result)
    and the messages handed to [ctx.send]. *)
Inductive event : Type :=
| EvSubtract (name : string) (qty : Z) (ok : bool)
| EvRestock (name : string) (qty : Z) (ok : bool)
| EvSend (destination : string) (m : message).

(** The state the code runs against: the SQLite file, the [MemorySaver]
    checkpoints by thread id, the agent's [ctx.storage], and the record
    of events so far (oldest first). *)
Record world : Type := mkWorld {
  inventory : database;
  memory : gmap string AgentState;
  storage : gmap string stored;
  trace : list event
}.

(** *** A state monad over [world] *)

Definition M (A : Type) : Type := world -> A * world.

Definition ret {A} (a : A) : M A := fun w => (a, w).

Definition bind {A B} (c : M A) (k : A -> M B) : M B :=
  fun w => let (a, w') := c w in k a w'.

Notation "'do' x <- c ; k" := (bind c (fun x => k))
  (at level 10, x name, c at level 100, k at level 200).
Notation "'do_' c ; k" := (bind c (fun _ => k))
  (at level 10, c at level 100, k at level 200).

(** Run a function of [tools/database.py] against the file. *)
Definition on_inventory {A} (f : database -> A * database) : M A :=
  fun w => let (a, d) := f (inventory w) in
           (a, mkWorld d (memory w) (storage w) (trace w)).

Definition emit (e : event) : M unit :=
  fun w => (tt, mkWorld (inventory w) (memory w) (storage w)
                        (trace w ++ [e])%list).

(** [ctx.send(destination, m)]. *)
Definition send (destination : string) (m : message) : M unit :=
  emit (EvSend destination m).

(** [ctx.storage.has], [.get] and [.set]. *)
Definition storage_has (k : string) : M bool :=
  fun w => (bool_decide (is_Some (storage w !! k)), w).

Definition storage_get (k : string) : M (option stored) :=
  fun w => (storage w !! k, w).

Definition storage_set (k : string) (v : stored) : M unit :=
  fun w => (tt, mkWorld (inventory w) (memory w) (<[k := v]> (storage w))
                        (trace w)).

(** The inventory functions as the workflow calls them, with the two
    mutating ones recorded in the trace. *)
Definition check_stock (name : string) : M Z :=
  on_inventory (Database.check_stock name).

Definition subtract_inventory (name : string) (qty : Z) : M bool :=
  do ok <- on_inventory (Database.subtract_inventory name qty);
  do_ emit (EvSubtract name qty ok);
  ret ok.

Definition restock_item (name : string) (qty : Z) : M bool :=
  do ok <- on_inventory (Database.restock_item name qty);
  do_ emit (EvRestock name qty ok);
  ret ok.

End Runtime.

(* ===================================================================== *)
(** ** agent_graph.py                                                     *)
(* ===================================================================== *)

Module AgentGraph.
Import PyStr Database Runtime.

(** *** [new_state = dict(state); new_state[key] = value] *)

Definition set_messages (v : list BaseMessage) (s : AgentState) : AgentState :=
  mkState v (user_request s) (parsed_items s) (stock_check_results s)
    (stock_availability s) (inventory_subtracted s)
    (updated_stock_quantities s) (payment_requested s) (payment_status s)
    (status s) (restocked_items s) (error_message s).

Definition set_stock_check_results (v : odict stock_check) (s : AgentState)
  : AgentState :=
  mkState (messages s) (user_request s) (parsed_items s) (Some v)
    (stock_availability s) (inventory_subtracted s)
    (updated_stock_quantities s) (payment_requested s) (payment_status s)
    (status s) (restocked_items s) (error_message s).

Definition set_stock_availability (v : bool) (s : AgentState) : AgentState :=
  mkState (messages s) (user_request s) (parsed_items s)
    (stock_check_results s) (Some v) (inventory_subtracted s)
    (updated_stock_quantities s) (payment_requested s) (payment_status s)
    (status s) (restocked_items s) (error_message s).

Definition set_inventory_subtracted (v : bool) (s : AgentState) : AgentState :=
  mkState (messages s) (user_request s) (parsed_items s)
    (stock_check_results s) (stock_availability s) (Some v)
    (updated_stock_quantities s) (payment_requested s) (payment_status s)
    (status s) (restocked_items s) (error_message s).

Definition set_updated_stock_quantities (v : gmap string Z) (s : AgentState)
  : AgentState :=
  mkState (messages s) (user_request s) (parsed_items s)
    (stock_check_results s) (stock_availability s) (inventory_subtracted s)
    (Some v) (payment_requested s) (payment_status s)
    (status s) (restocked_items s) (error_message s).

Definition set_payment_status (v : string) (s : AgentState) : AgentState :=
  mkState (messages s) (user_request s) (parsed_items s)
    (stock_check_results s) (stock_availability s) (inventory_subtracted s)
    (updated_stock_quantities s) (payment_requested s) (Some v)
    (status s) (restocked_items s) (error_message s).

Definition set_status (v : string) (s : AgentState) : AgentState :=
  mkState (messages s) (user_request s) (parsed_items s)
    (stock_check_results s) (stock_availability s) (inventory_subtracted s)
    (updated_stock_quantities s) (payment_requested s) (payment_status s)
    (Some v) (restocked_items s) (error_message s).

Definition set_restocked_items (v : list string) (s : AgentState) : AgentState :=
  mkState (messages s) (user_request s) (parsed_items s)
    (stock_check_results s) (stock_availability s) (inventory_subtracted s)
    (updated_stock_quantities s) (payment_requested s) (payment_status s)
    (status s) (Some v) (error_message s).

Definition set_error_message (v : string) (s : AgentState) : AgentState :=
  mkState (messages s) (user_request s) (parsed_items s)
    (stock_check_results s) (stock_availability s) (inventory_subtracted s)
    (updated_stock_quantities s) (payment_requested s) (payment_status s)
    (status s) (restocked_items s) (Some v).

(** [state.get("parsed_items", [])]. *)
Definition get_parsed_items (s : AgentState) : list item :=
  match parsed_items s with Some l => l | None => [] end.

(** [", ".join([f"{item['quantity']}x {item['item_name']}" for item in
    parsed_items])]. *)
Definition items_summary (items : list item) : string :=
  join ", " (map (fun it => of_int (it_quantity it) ++ "x " ++ it_name it)%string
                 items).

(** *** stock_management_node *)

(** The loop over [parsed_items]; carries [stock_check_results] and
    [all_available]. *)
Fixpoint stock_check_loop (items : list item) (results : odict stock_check)
         (all_available : bool) : M (odict stock_check * bool) :=
  match items with
  | [] => ret (results, all_available)
  | it :: rest =>
      let name := it_name it in
      let requested := it_quantity it in
      do available <- check_stock name;
      let is_av := available >=? requested in
      stock_check_loop rest
        (odict_set name (mkCheck available requested is_av) results)
        (if negb is_av then false else all_available)
  end.

Definition stock_management_node (state : AgentState) : M AgentState :=
  match get_parsed_items state with
  | [] =>
      ret (set_stock_availability false
             (set_error_message "No items to check stock for"
                (set_status "rejected" state)))
  | items =>
      do r <- stock_check_loop items [] true;
      let (results, all_available) := r in
      let new_state :=
        set_stock_availability all_available
          (set_stock_check_results results state) in
      if all_available then ret (set_status "checking_stock" new_state)
      else
        let unavailable_items :=
          map fst (filter (fun kv => negb (is_available (snd kv))) results) in
        let unavailable_str := join ", " unavailable_items in
        let rejection_msg :=
          AIMessage ("Sorry, we don't have enough stock for: "
                     ++ unavailable_str ++ ". Payment rejected.")%string in
        ret (set_messages (messages state ++ [rejection_msg])%list
               (set_status "rejected" new_state))
  end.

(** *** warehouse_node *)

(** The loop over [parsed_items]: [inl name] when the subtraction for
    [name] failed (the function returns from inside the loop), else
    [inr updated_stock_quantities]. *)
Fixpoint warehouse_loop (items : list item) (updated : gmap string Z)
  : M (string + gmap string Z) :=
  match items with
  | [] => ret (inr updated)
  | it :: rest =>
      let name := it_name it in
      do success <- subtract_inventory name (it_quantity it);
      if success then
        do updated_qty <- check_stock name;
        warehouse_loop rest (<[name := updated_qty]> updated)
      else ret (inl name)
  end.

Definition warehouse_node (state : AgentState) : M AgentState :=
  match get_parsed_items state with
  | [] =>
      ret (set_error_message "No items to subtract"
             (set_status "subtracting_inventory" state))
  | items =>
      do r <- warehouse_loop items ∅;
      match r with
      | inl name =>
          ret (set_error_message
                 ("Failed to subtract inventory for " ++ name)%string
                 (set_status "subtracting_inventory" state))
      | inr updated =>
          let warehouse_msg :=
            AIMessage ("Inventory updated. Items reserved: "
                       ++ items_summary items)%string in
          ret (set_messages (messages state ++ [warehouse_msg])%list
                 (set_status "subtracting_inventory"
                    (set_updated_stock_quantities updated
                       (set_inventory_subtracted true state))))
      end
  end.

(** *** cashier_node *)

Definition cashier_node (state : AgentState) : AgentState :=
  let items := get_parsed_items state in
  let new_state := set_status "completed"
                     (set_payment_status "successful" state) in
  let completion_msg :=
    AIMessage ("✅ Order completed successfully! Your purchase of "
               ++ items_summary items
               ++ " has been processed. Thank you for your order!")%string in
  set_messages (messages state ++ [completion_msg])%list new_state.

(** *** restocker_node *)

(** The loop and the node for restocks that return; the exception of a
    restock that raises ([restock_item_raises]) is not caught here and
    leaves the node with it. *)
Fixpoint restock_loop (items : list item) (restocked : list string)
  : M (list string) :=
  match items with
  | [] => ret restocked
  | it :: rest =>
      let name := it_name it in
      do success <- restock_item name (it_quantity it);
      restock_loop rest (if success then (restocked ++ [name])%list
                         else restocked)
  end.

Definition restocker_node (state : AgentState) : M AgentState :=
  match get_parsed_items state with
  | [] =>
      ret (set_error_message "No items to restock"
             (set_status "restocking" state))
  | items =>
      do restocked <- restock_loop items [];
      let new_state := set_status "completed"
                         (set_restocked_items restocked state) in
      match restocked with
      | [] => ret new_state
      | _ =>
          let restock_msg :=
            AIMessage ("Items restocked: " ++ join ", " restocked
                       ++ ". Inventory restored.")%string in
          ret (set_messages (messages state ++ [restock_msg])%list new_state)
      end
  end.

(** *** The graph *)

Inductive node : Type :=
| stock_management
| warehouse
| cashier
| restocker.

(** What a router or an edge leads to. *)
Inductive target : Type :=
| Goto (n : node)
| END.

Definition route_after_stock_check (state : AgentState) : target :=
  match stock_availability state with
  | Some true => Goto warehouse
  | _ => END
  end.

Definition route_after_payment (state : AgentState) : target :=
  match payment_status state with
  | Some p => if String.eqb p "failed" then Goto restocker
              else if String.eqb p "successful" then END
              else END
  | None => END
  end.

(** [workflow.add_node]. *)
Definition run_node (n : node) (state : AgentState) : M AgentState :=
  match n with
  | stock_management => stock_management_node state
  | warehouse => warehouse_node state
  | cashier => ret (cashier_node state)
  | restocker => restocker_node state
  end.

(** [workflow.add_conditional_edges] and [workflow.add_edge]. *)
Definition edge (n : node) (state : AgentState) : target :=
  match n with
  | stock_management => route_after_stock_check state
  | warehouse => Goto cashier
  | cashier => route_after_payment state
  | restocker => END
  end.

Definition entry_point : node := stock_management.

(** LangGraph's default [recursion_limit]. *)
Definition recursion_limit : nat := 25.

(** The run from node [n]: the stream of [(node, output)] updates, the
    state after the last node, and whether the run finished ([false] is
    [GraphRecursionError]). *)
Fixpoint run_from (fuel : nat) (n : node) (state : AgentState)
  : M (list (node * AgentState) * AgentState * bool) :=
  match fuel with
  | O => ret ([], state, false)
  | S fuel' =>
      do out <- run_node n state;
      match edge n out with
      | END => ret ([(n, out)], out, true)
      | Goto n' =>
          do r <- run_from fuel' n' out;
          let '(events, final, finished) := r in
          ret ((n, out) :: events, final, finished)
      end
  end.

(** The input of a run written over the thread's checkpoint: a key of
    the input replaces the checkpointed value, the other keys keep it. *)
Definition merge_input (old input : AgentState) : AgentState :=
  let pick {A} (new old : option A) : option A :=
    match new with Some _ => new | None => old end in
  mkState (messages input)
    (pick (user_request input) (user_request old))
    (pick (parsed_items input) (parsed_items old))
    (pick (stock_check_results input) (stock_check_results old))
    (pick (stock_availability input) (stock_availability old))
    (pick (inventory_subtracted input) (inventory_subtracted old))
    (pick (updated_stock_quantities input) (updated_stock_quantities old))
    (pick (payment_requested input) (payment_requested old))
    (pick (payment_status input) (payment_status old))
    (pick (status input) (status old))
    (pick (restocked_items input) (restocked_items old))
    (pick (error_message input) (error_message old)).

Definition memory_get (thread_id : string) : M (option AgentState) :=
  fun w => (memory w !! thread_id, w).

Definition memory_put (thread_id : string) (s : AgentState) : M unit :=
  fun w => (tt, mkWorld (inventory w) (<[thread_id := s]> (memory w))
                        (storage w) (trace w)).

(** [app.stream(initial_state, config)] for the graph compiled with the
    [MemorySaver] checkpointer. *)
Definition app_stream (initial_state : AgentState) (thread_id : string)
  : M (list (node * AgentState) * bool) :=
  do checkpoint <- memory_get thread_id;
  let state := match checkpoint with
               | Some old => merge_input old initial_state
               | None => initial_state
               end in
  do r <- run_from recursion_limit entry_point state;
  let '(events, final, finished) := r in
  do_ memory_put thread_id final;
  ret (events, finished).

(** *** run_agent_turn *)

Record turn_result : Type := mkTurn {
  tr_content : string;
  tr_state : SessionState;
  tr_history : list hist_entry
}.

(** The conversion of the history to LangChain messages. *)
Fixpoint history_messages (history : list hist_entry) : list BaseMessage :=
  match history with
  | [] => []
  | msg :: rest =>
      if String.eqb (role msg) "user"
      then HumanMessage (content msg) :: history_messages rest
      else if String.eqb (role msg) "assistant"
      then (if String.eqb (content msg) "" then history_messages rest
            else AIMessage (content msg) :: history_messages rest)
      else history_messages rest
  end.

(** The content of the last [AIMessage], [""] when there is none. *)
Definition last_assistant_content (msgs : list BaseMessage) : string :=
  let fix first_ai (l : list BaseMessage) : string :=
    match l with
    | [] => ""
    | AIMessage c :: _ => c
    | HumanMessage _ :: l' => first_ai l'
    end in
  first_ai (rev msgs).

Definition run_agent_turn (items : list item) (session_state : SessionState)
           (history : list hist_entry) (session_id : string)
  : M (option turn_result) :=
  let msgs := history_messages history in
  let initial_state :=
    mkState msgs
      (ss_user_request session_state)
      (Some items)
      (ss_stock_check_results session_state)
      (ss_stock_availability session_state)
      (ss_inventory_subtracted session_state)
      (ss_updated_stock_quantities session_state)
      (ss_payment_requested session_state)
      (ss_payment_status session_state)
      (Some "checking_stock")
      (ss_restocked_items session_state)
      (ss_error_message session_state) in
  do r <- app_stream initial_state session_id;
  let (events, finished) := r in
  if negb finished then ret None
  else
    match last events with
    | Some (_, state) =>
        let assistant_content := last_assistant_content (messages state) in
        let new_state :=
          mkSession false false false false None None
            (user_request state) (parsed_items state)
            (stock_check_results state) (stock_availability state)
            (inventory_subtracted state) (updated_stock_quantities state)
            (payment_requested state) (payment_status state) (status state)
            (restocked_items state) (error_message state) in
        let user_content :=
          ("Purchase request: " ++ items_summary items)%string in
        let updated_history :=
          (history ++ [ mkHist "user" user_content;
                        mkHist "assistant" assistant_content ])%list in
        ret (Some (mkTurn assistant_content new_state updated_history))
    | None =>
        ret (Some (mkTurn "Processing your order..." session_state history))
    end.

End AgentGraph.

(* ===================================================================== *)
(** ** protocols/payment_proto.py                                         *)
(* ===================================================================== *)

Module PaymentProto.
Import PyStr Database Runtime AgentGraph.

(** What [msg.metadata] holds under ["parsed_items"]: nothing, a string
    [json.loads] rejects, or a decoded list of items. *)
Inductive metadata_items : Type :=
| NoItems
| BadJson
| Decoded (items : list item).

(** [CommitPayment]. *)
Record CommitPayment : Type := mkCommit {
  transaction_id : string;
  funds : Funds;
  metadata : metadata_items
}.

(** [_k(prefix, sender, session)]. *)
Definition _k (prefix sender session : string) : string :=
  (prefix ++ ":" ++ sender ++ ":" ++ session)%string.

(** [f"{sender}::{session}"]. *)
Definition session_key (sender session : string) : string :=
  (sender ++ "::" ++ session)%string.

(** [{}] as a session state and as session data. *)
Definition empty_state : SessionState :=
  mkSession false false false false None None None None None None None None
    None None None None None.

Definition empty_data : SessionData := mkData None None None.

(** [state.update(new_state)]. *)
Definition state_update (state new_state : SessionState) : SessionState :=
  let pick {A} (new old : option A) : option A :=
    match new with Some _ => new | None => old end in
  mkSession
    (ss_order_id new_state || ss_order_id state)
    (ss_item new_state || ss_item state)
    (ss_quantity new_state || ss_quantity state)
    (ss_total_price new_state || ss_total_price state)
    (pick (ss_payment_confirmed new_state) (ss_payment_confirmed state))
    (pick (ss_order_dispatched new_state) (ss_order_dispatched state))
    (pick (ss_user_request new_state) (ss_user_request state))
    (pick (ss_parsed_items new_state) (ss_parsed_items state))
    (pick (ss_stock_check_results new_state) (ss_stock_check_results state))
    (pick (ss_stock_availability new_state) (ss_stock_availability state))
    (pick (ss_inventory_subtracted new_state) (ss_inventory_subtracted state))
    (pick (ss_updated_stock_quantities new_state)
          (ss_updated_stock_quantities state))
    (pick (ss_payment_requested new_state) (ss_payment_requested state))
    (pick (ss_payment_status new_state) (ss_payment_status state))
    (pick (ss_status new_state) (ss_status state))
    (pick (ss_restocked_items new_state) (ss_restocked_items state))
    (pick (ss_error_message new_state) (ss_error_message state)).

(** [session_data["state"]["payment_confirmed"] = True]. *)
Definition confirm_payment (st : SessionState) : SessionState :=
  mkSession (ss_order_id st) (ss_item st) (ss_quantity st)
    (ss_total_price st) (Some true) (ss_order_dispatched st)
    (ss_user_request st) (ss_parsed_items st) (ss_stock_check_results st)
    (ss_stock_availability st) (ss_inventory_subtracted st)
    (ss_updated_stock_quantities st) (ss_payment_requested st)
    (ss_payment_status st) (ss_status st) (ss_restocked_items st)
    (ss_error_message st).

(** The block "Update session state to mark payment confirmed". *)
Definition mark_payment_confirmed (sender session : string) : M unit :=
  let key := session_key sender session in
  do v <- storage_get key;
  match v with
  | Some (StoredDict session_data) =>
      match sd_state session_data with
      | Some st =>
          storage_set key
            (StoredDict (mkData (Some (confirm_payment st))
                                (sd_history session_data)
                                (sd_parsed_items session_data)))
      | None => ret tt
      end
  | _ => ret tt
  end.

(** [not parsed_items]. *)
Definition no_items (parsed : option (list item)) : bool :=
  match parsed with
  | None | Some [] => true
  | Some _ => false
  end.

(** The block "Extract parsed_items from metadata or session storage and
    run LangGraph workflow"; the [except Exception] handler is the last
    branch of each match it can be reached from. *)
Definition process_order (sender session : string) (msg : CommitPayment)
  : M unit :=
  let key := session_key sender session in
  let shortly :=
    send sender
      (ChatMessage "✅ Payment received! Your order will be processed shortly.")
  in
  let parsed := match metadata msg with
                | Decoded l => Some l
                | _ => None
                end in
  do v <- storage_get key;
  let parsed :=
    if no_items parsed then
      match v with
      | Some (StoredDict session_data) =>
          match sd_parsed_items session_data with
          | Some l => Some l
          | None => parsed
          end
      | _ => parsed
      end
    else parsed in
  match parsed with
  | None | Some [] =>
      send sender
        (ChatMessage
           "✅ Payment received, but order details not found. Please contact support.")
  | Some items =>
      match (match v with Some x => x | None => StoredDict empty_data end) with
      | StoredBool _ => shortly
      | StoredDict session_data =>
          let state := match sd_state session_data with
                       | Some st => st
                       | None => empty_state
                       end in
          let history := match sd_history session_data with
                         | Some h => h
                         | None => []
                         end in
          do result <- run_agent_turn items state history
                         (session_key sender session);
          match result with
          | None => shortly
          | Some result =>
              let state := state_update state (tr_state result) in
              do_ storage_set key
                    (StoredDict (mkData (Some state)
                                        (Some (tr_history result))
                                        (sd_parsed_items session_data)));
              let reply_text := tr_content result in
              if String.eqb reply_text ""
              then send sender
                     (ChatMessage
                        "✅ Payment received! Your order is being processed.")
              else send sender (ChatMessage reply_text)
          end
      end
  end.

(** [on_commit]; [verify_and_charge] is the answer of the external
    verification service, consulted for the method ["skyfire"] only. *)
Definition on_commit (verify_and_charge : bool) (sender session : string)
           (msg : CommitPayment) : M unit :=
  let tx_key := _k ("commit_" ++ transaction_id msg)%string sender session in
  do duplicate <- storage_has tx_key;
  if duplicate then ret tt
  else
    let method := payment_method (funds msg) in
    let verified := if String.eqb method "skyfire"
                    then verify_and_charge else false in
    if verified then
      do_ storage_set tx_key (StoredBool true);
      do_ send sender (CompletePayment (transaction_id msg));
      do_ storage_set (_k "paid" sender session) (StoredBool true);
      do_ mark_payment_confirmed sender session;
      process_order sender session msg
    else
      send sender (RejectPayment "Payment verification failed").

End PaymentProto.

(* ===================================================================== *)
(** ** protocols/chat_proto.py                                            *)
(* ===================================================================== *)

Module ChatProto.
Import PyStr Database Runtime PaymentProto.

(** An element of an incoming [ChatMessage.content]. *)
Inductive AgentContent : Type :=
| TextContent (text : string)
| OtherContent.

(** An incoming [ChatMessage]. *)
Record IncomingChat : Type := mkChat {
  msg_id : string;
  chat_content : list AgentContent
}.

(** What the handler reads from the process environment. *)
Record config : Type := mkConfig {
  skyfire_service_id : option string;
  agent_address : string;
  fixed_usd_amount : string
}.

Definition LF : string := String (ascii_of_nat 10) EmptyString.

(** [_extract_text]. *)
Definition _extract_text (msg : IncomingChat) : string :=
  let parts :=
    flat_map (fun c => match c with
                       | TextContent t =>
                           if String.eqb t "" then [] else [t]
                       | OtherContent => []
                       end) (chat_content msg) in
  strip (join LF parts).

(** The default ["state"] of [_get_session_data]. *)
Definition default_state : SessionState :=
  mkSession true true true true (Some false) (Some false) None None None
    None None None (Some false) None None None None.

(** [_get_session_data]; [None] when the stored value is neither falsy
    nor a dict and [setdefault] raises. *)
Definition _get_session_data (sender session_id : string)
  : M (option SessionData) :=
  do v <- storage_get (session_key sender session_id);
  match v with
  | Some (StoredBool true) => ret None
  | Some (StoredDict d) =>
      ret (Some (mkData
                   (Some (match sd_state d with
                          | Some st => st
                          | None => default_state
                          end))
                   (Some (match sd_history d with
                          | Some h => h
                          | None => []
                          end))
                   (sd_parsed_items d)))
  | Some (StoredBool false) | None =>
      ret (Some (mkData (Some default_state) (Some []) None))
  end.

Definition _save_session_data (sender session_id : string)
           (session_data : SessionData) : M unit :=
  storage_set (session_key sender session_id) (StoredDict session_data).

(** One entry of [unavailable_items], rendered. *)
Definition unavailable_part (name : string) (requested available : Z)
  : string :=
  (name ++ " (requested: " ++ of_int requested ++ ", available: "
        ++ of_int available ++ ")")%string.

(** [handle_chat]; [llm_result] is what the external structured-output
    call returns for the text ([None]: it raised). *)
Definition handle_chat (cfg : config) (llm_result : option (list item))
           (sender session_id : string) (msg : IncomingChat) : M unit :=
  do_ send sender (ChatAcknowledgement (msg_id msg));
  let text := _extract_text msg in
  if String.eqb text "" then ret tt
  else
    match llm_result with
    | None =>
        send sender
          (ChatMessage
             "Sorry, I couldn't understand your request. Please specify items and quantities.")
    | Some items =>
        do sd <- _get_session_data sender session_id;
        match sd with
        | None => ret tt
        | Some session_data =>
            do_ _save_session_data sender session_id
                  (mkData (sd_state session_data) (sd_history session_data)
                          (Some items));
            do stock_results <- on_inventory (check_stock_multiple items);
            let unavailable_items :=
              flat_map
                (fun it =>
                   let available_qty :=
                     match stock_results !! it_name it with
                     | Some q => q
                     | None => 0
                     end in
                   if available_qty <? it_quantity it
                   then [unavailable_part (it_name it) (it_quantity it)
                           available_qty]
                   else []) items in
            match unavailable_items with
            | _ :: _ =>
                send sender
                  (ChatMessage
                     ("Sorry, we don't have enough stock for: "
                      ++ join ", " unavailable_items
                      ++ ". Please adjust your order.")%string)
            | [] =>
                match skyfire_service_id cfg with
                | None | Some "" =>
                    send sender
                      (ChatMessage
                         "Payment service not configured. Please contact support.")
                | Some _ =>
                    do prices <- on_inventory (get_items_prices items);
                    let priced :=
                      map (fun it =>
                             (it, match prices !! it_name it with
                                  | Some p => p
                                  | None => 0%Q
                                  end)) items in
                    let total_price :=
                      fold_left
                        (fun total ip =>
                           (total + snd ip * inject_Z (it_quantity (fst ip)))%Q)
                        priced 0%Q in
                    send sender
                      (RequestPayment
                         [mkFunds "USDC" (fixed_usd_amount cfg) "skyfire"]
                         (agent_address cfg) priced total_price)
                end
            end
        end
    end.

End ChatProto.

(* ===================================================================== *)
(** ** Observations the properties are stated with                        *)
(* ===================================================================== *)

Module Observe.
Import PyStr Database Runtime AgentGraph PaymentProto.

(** The [quantity] column of the row a [SELECT ... WHERE item_name = ?]
    returns; [None] for an unknown item. *)
Definition quantity_on_hand (name : string) (t : table) : option Z :=
  option_map quantity (select_row name t).

(** The same with 0 for an unknown item. *)
Definition on_hand (name : string) (t : table) : Z :=
  match quantity_on_hand name t with Some c => c | None => 0 end.

Definition all_nonneg (t : table) : bool :=
  forallb (fun r => 0 <=? quantity r) t.

(** A call of one of the two mutating store operations. *)
Inductive store_op : Type :=
| Reserve (name : string) (qty : Z)
| Restock (name : string) (qty : Z).

Definition run_op (op : store_op) (d : database) : bool * database :=
  match op with
  | Reserve name qty => Database.subtract_inventory name qty d
  | Restock name qty => Database.restock_item name qty d
  end.

(** A sequence of calls, one after the other: the results and the file
    afterwards. *)
Fixpoint run_ops (ops : list store_op) (d : database) : list bool * database :=
  match ops with
  | [] => ([], d)
  | op :: rest =>
      let (ok, d') := run_op op d in
      let (oks, d'') := run_ops rest d' in
      (ok :: oks, d'')
  end.

(** The sum of the quantities of the successful reservations of [name]
    in the run of [ops] from [d]. *)
Fixpoint reserved_total (name : string) (ops : list store_op) (d : database)
  : Z :=
  match ops with
  | [] => 0
  | op :: rest =>
      let (ok, d') := run_op op d in
      (match op with
       | Reserve n qty => if (ok && String.eqb n name)%bool then qty else 0
       | Restock _ _ => 0
       end) + reserved_total name rest d'
  end.

(** The same for the successful restocks of [name]. *)
Fixpoint restocked_total (name : string) (ops : list store_op) (d : database)
  : Z :=
  match ops with
  | [] => 0
  | op :: rest =>
      let (ok, d') := run_op op d in
      (match op with
       | Restock n qty => if (ok && String.eqb n name)%bool then qty else 0
       | Reserve _ _ => 0
       end) + restocked_total name rest d'
  end.

(** Every restock of the sequence asks for a quantity that is not
    negative. *)
Definition restocks_nonneg (ops : list store_op) : bool :=
  forallb (fun op => match op with
                     | Restock _ qty => 0 <=? qty
                     | Reserve _ _ => true
                     end) ops.

(** A cleaned name that neither the alias table nor the list of database
    names resolves, directly or after the trailing ["s"] is dropped. *)
Definition unresolvable (n : string) : bool :=
  (bool_decide (name_mappings !! n = None)
   && negb (str_in n db_item_names)
   && (negb (endswith_char "s" n)
       || (negb (str_in (drop_last n) db_item_names)
           && bool_decide (name_mappings !! drop_last n = None))))%bool.

(** The default price of a name, if it has one. *)
Fixpoint default_price_in (l : list (string * Q)) (name : string) : option Q :=
  match l with
  | [] => None
  | (n, p) :: l' => if String.eqb n name then Some p else default_price_in l' name
  end.

Definition default_price : string -> option Q := default_price_in default_prices.

(** What the specification asks of re-initialisation, row by row: a row
    whose price is missing and whose name has a default price gets that
    price; nothing else changes. *)
Definition backfill_price (r : row) : row :=
  if price_missing (price r) then
    match default_price (item_name r) with
    | Some p => mkRow (item_name r) (quantity r) (Some p)
    | None => r
    end
  else r.

(** One [UPDATE ... SET price] of the backfill, on one row. *)
Definition backfill_step (r : row) (np : string * Q) : row :=
  if (String.eqb (item_name r) (fst np) && price_missing (price r))%bool
  then mkRow (item_name r) (quantity r) (Some (snd np))
  else r.

(** The same backfill for any list of default prices. *)
Definition backfill_in (l : list (string * Q)) (r : row) : row :=
  if price_missing (price r) then
    match default_price_in l (item_name r) with
    | Some p => mkRow (item_name r) (quantity r) (Some p)
    | None => r
    end
  else r.

Definition nonzero_price (np : string * Q) : bool :=
  negb (price_missing (Some (snd np))).

(** A computation takes every world to one related to it by [R]. *)
Definition preserves (R : world -> world -> Prop) {A} (c : M A) : Prop :=
  forall w, R w (snd (c w)).

(** The trace of [w'] is the trace of [w] followed by events that all
    satisfy [P]. *)
Definition extends (P : event -> bool) (w w' : world) : Prop :=
  exists evs, trace w' = (trace w ++ evs)%list /\ forallb P evs = true.

(** Every key of the storage of [w] is a key of the storage of [w']. *)
Definition keeps_keys (w w' : world) : Prop :=
  forall k, is_Some (storage w !! k) -> is_Some (storage w' !! k).

(** The next connection finds the same inventory table in [w'] as in
    [w]. *)
Definition keeps_table (w w' : world) : Prop :=
  get_connection (inventory w') = get_connection (inventory w).

(** The nodes a run visits. *)
Definition visited (r : list (node * AgentState) * AgentState * bool)
  : list node :=
  map fst (fst (fst r)).

(** The key of the idempotency marker of a commit. *)
Definition commit_key (sender session : string) (msg : CommitPayment)
  : string :=
  _k ("commit_" ++ transaction_id msg)%string sender session.

(** The world after [on_commit] has set the marker, sent the
    [CompletePayment] and set the "paid" flag. *)
Definition after_complete_payment (sender session : string)
           (msg : CommitPayment) (w : world) : world :=
  mkWorld (inventory w) (memory w)
    (<[_k "paid" sender session := StoredBool true]>
       (<[commit_key sender session msg := StoredBool true]> (storage w)))
    (trace w ++ [EvSend sender (CompletePayment (transaction_id msg))])%list.

(** A world in which nothing has happened yet: no inventory table, no
    checkpoint, empty storage, empty trace. *)
Definition fresh_world : world := mkWorld None ∅ ∅ [].

Definition is_inventory_event (e : event) : bool :=
  match e with
  | EvSubtract _ _ _ | EvRestock _ _ _ => true
  | EvSend _ _ => false
  end.

Definition is_restock_event (e : event) : bool :=
  match e with
  | EvRestock _ _ _ => true
  | _ => false
  end.

Definition is_complete_payment (e : event) : bool :=
  match e with
  | EvSend _ (CompletePayment _) => true
  | _ => false
  end.

(** The inventory table as the next connection finds it. *)
Definition table_of (w : world) : table := get_connection (inventory w).

(** The reservation calls [warehouse_node] makes for a list of items that
    all succeed. *)
Definition reserve_events (items : list item) : list event :=
  map (fun it => EvSubtract (it_name it) (it_quantity it) true) items.

Definition reserve_ops (items : list item) : list store_op :=
  map (fun it => Reserve (it_name it) (it_quantity it)) items.

(** The inventory calls of one run of the workflow's reservation step on
    [items], against the file [d]: one subtraction per item, in order, up
    to and including the first that fails. *)
Fixpoint subtract_calls (items : list item) (d : database) : list event :=
  match items with
  | [] => []
  | it :: rest =>
      let (ok, d') :=
        Database.subtract_inventory (it_name it) (it_quantity it) d in
      EvSubtract (it_name it) (it_quantity it) ok
      :: (if ok then subtract_calls rest d' else [])
  end.

End Observe.

(* ===================================================================== *)
(** ** tools/skyfire.py                                                   *)
(* ===================================================================== *)

Module Skyfire.

(** The process environment read by [os.getenv]. *)
Definition getenv (env : gmap string string) (k : string) : option string :=
  env !! k.

(** Truth value of an optional string: [None] and [""] are false. *)
Definition truthy (v : option string) : bool :=
  match v with
  | Some s => negb (String.eqb s "")
  | None => false
  end.

(** [a or b]. *)
Definition py_or (a b : option string) : option string :=
  if truthy a then a else b.

(** [JWT_AUDIENCE]. *)
Definition JWT_AUDIENCE (env : gmap string string) : option string :=
  py_or (getenv env "JWT_AUDIENCE")
    (py_or (getenv env "SELLER_ACCOUNT_ID")
       (Some (match getenv env "SKYFIRE_ACCOUNT_ID" with
              | Some s => s
              | None => ""
              end))).

(** [SKYFIRE_API_KEY]. *)
Definition SKYFIRE_API_KEY (env : gmap string string) : option string :=
  py_or (getenv env "SKYFIRE_API_KEY") (getenv env "SELLER_SKYFIRE_API_KEY").

(** [SKYFIRE_SERVICE_ID]. *)
Definition SKYFIRE_SERVICE_ID (env : gmap string string) : option string :=
  py_or (getenv env "SKYFIRE_SERVICE_ID") (getenv env "SELLER_SERVICE_ID").

(** [SELLER_ACCOUNT_ID]. *)
Definition SELLER_ACCOUNT_ID (env : gmap string string) : option string :=
  getenv env "SELLER_ACCOUNT_ID".

Definition get_skyfire_service_id (env : gmap string string) : option string :=
  SKYFIRE_SERVICE_ID env.

(** [SELLER_ACCOUNT_ID or (JWT_AUDIENCE or None)]. *)
Definition get_seller_account_id (env : gmap string string) : option string :=
  py_or (SELLER_ACCOUNT_ID env) (py_or (JWT_AUDIENCE env) None).

(** A call of one of the two remote services. *)
Inductive remote_call : Type :=
| CallVerify (token : string)
| CallCharge (token : string) (amount : string).

(** [get_signing_key]: [jwk.construct] applied to the first key of the
    JWKS document whose ["kid"] is [kid]; [None] when the function raises
    (no such key, or [construct] raises on that key). *)
Fixpoint get_signing_key {J K : Type} (construct : J -> option K)
         (keys : list (option string * J)) (kid : string) : option K :=
  match keys with
  | [] => None
  | (k, key) :: rest =>
      match k with
      | Some k' => if String.eqb k' kid then construct key
                   else get_signing_key construct rest kid
      | None => get_signing_key construct rest kid
      end
  end.

(** [verify_token_claims].  The library and network calls are given by
    their outcome: [header] is the ["kid"] of the unverified header
    ([None] when [jwt.get_unverified_header] raises), [jwks] the keys of
    the fetched document ([None] when the fetch raises), [construct] is
    [jwk.construct], and [decode key audience] the ["ssi"] claim of the
    decoded token ([None] when [jwt.decode] raises). *)
Definition verify_token_claims {J K : Type} (env : gmap string string)
           (construct : J -> option K)
           (header : option (option string))
           (jwks : option (list (option string * J)))
           (decode : K -> option string -> option (option string)) : bool :=
  match header with
  | None => false
  | Some kid =>
      match kid with
      | None => false
      | Some kid =>
          if String.eqb kid "" then false
          else
            match jwks with
            | None => false
            | Some keys =>
                match get_signing_key construct keys kid with
                | None => false
                | Some signing_key =>
                    let audience :=
                      py_or (JWT_AUDIENCE env)
                        (py_or (SELLER_ACCOUNT_ID env) (Some "")) in
                    match decode signing_key audience with
                    | None => false
                    | Some ssi =>
                        if (truthy (SKYFIRE_SERVICE_ID env)
                            && negb (bool_decide
                                       (ssi = SKYFIRE_SERVICE_ID env)))%bool
                        then false
                        else true
                    end
                end
            end
      end
  end.

(** [verify_and_charge]: the result and the remote calls made, in order.
    [verify] and [charge] are the answers of [verify_token_claims] and
    [charge_token]. *)
Definition verify_and_charge (env : gmap string string)
           (verify : string -> bool) (charge : string -> string -> bool)
           (token amount_usdc : string) : bool * list remote_call :=
  if negb (truthy (SKYFIRE_API_KEY env)
           && truthy (SKYFIRE_SERVICE_ID env)
           && (truthy (SELLER_ACCOUNT_ID env) || truthy (JWT_AUDIENCE env)))%bool
  then (false, [])
  else
    let ok := verify token in
    if negb ok then (false, [CallVerify token])
    else (charge token amount_usdc,
          [CallVerify token; CallCharge token amount_usdc]).

End Skyfire.

(* ===================================================================== *)
(** ** Further observations                                               *)
(* ===================================================================== *)

Module Coverage.
Import PyStr Database Runtime AgentGraph PaymentProto ChatProto Observe.

(** The item is stored under exactly this name. *)
Definition known (t : table) (name : string) : bool :=
  match select_row name t with Some _ => true | None => false end.

(** The stock check of one item, as [stock_management_node] makes it. *)
Definition in_stock (t : table) (it : item) : bool :=
  lookup_quantity (it_name it) t >=? it_quantity it.

(** The primary key holds: no two rows have the same name. *)
Definition unique_names (t : table) : Prop := NoDup (map item_name t).

(** The restock calls [restocker_node] makes for a list of items. *)
Definition restock_ops (items : list item) : list store_op :=
  map (fun it => Restock (it_name it) (it_quantity it)) items.

(** The total quantity an order asks of [name]. *)
Fixpoint ordered_total (name : string) (items : list item) : Z :=
  match items with
  | [] => 0
  | it :: rest =>
      (if String.eqb (it_name it) name then it_quantity it else 0)
      + ordered_total name rest
  end.

(** Every character of the string satisfies [P]. *)
Fixpoint all_chars (P : ascii -> bool) (s : string) : bool :=
  match s with
  | EmptyString => true
  | String c s' => (P c && all_chars P s')%bool
  end.

(** Not an upper-case letter, a hyphen or a space. *)
Definition canonical_char (c : ascii) : bool :=
  let n := nat_of_ascii c in
  (negb ((65 <=? n)%nat && (n <=? 90)%nat)
   && negb (Ascii.eqb c "-") && negb (Ascii.eqb c " "))%bool.

(** The entry [stock_management_node] records for one item. *)
Definition checked (t : table) (it : item) : stock_check :=
  mkCheck (lookup_quantity (it_name it) t) (it_quantity it) (in_stock t it).

(** [stock_check_results] after the items have been checked against [t]. *)
Definition check_results (t : table) (items : list item)
           (results : odict stock_check) : odict stock_check :=
  fold_left (fun res it => odict_set (it_name it) (checked t it) res)
            items results.

(** A non-empty order all of whose items pass the stock check. *)
Definition order_available (t : table) (items : list item) : bool :=
  match items with
  | [] => false
  | _ => forallb (in_stock t) items
  end.

(** [w'] differs from [w] at most in that the inventory file has been
    initialised. *)
Definition reads_only (w w' : world) : Prop :=
  trace w' = trace w /\ memory w' = memory w /\ storage w' = storage w
  /\ table_of w' = table_of w.

(** The row of the item holds at least the requested quantity. *)
Definition reservable (t : table) (it : item) : bool :=
  match quantity_on_hand (it_name it) t with
  | Some c => it_quantity it <=? c
  | None => false
  end.

(** The restock calls [restocker_node] makes for a list of items, with
    their results against a table that holds the names of [t]. *)
Definition restock_events (t : table) (items : list item) : list event :=
  map (fun it => EvRestock (it_name it) (it_quantity it) (known t (it_name it)))
      items.

(** The total quantity an order asks of [name], over the items the store
    knows. *)
Definition restockable_total (t : table) (name : string) (items : list item)
  : Z :=
  if known t name then ordered_total name items else 0.

(** The order [process_order] works on: the items of the metadata when
    there are some, else the items stored for the session; [[]] when
    neither has any. *)
Definition chosen_order (m : metadata_items) (v : option stored) : list item :=
  match m with
  | Decoded (x :: l) => x :: l
  | _ =>
      match v with
      | Some (StoredDict session_data) =>
          match sd_parsed_items session_data with
          | Some l => l
          | None => []
          end
      | _ => []
      end
  end.

(** The stored value is not a flag: it is absent or a session dict. *)
Definition dict_or_absent (v : option stored) : bool :=
  match v with
  | Some (StoredBool _) => false
  | _ => true
  end.

(** The outcome of verification that [on_commit] acts on. *)
Definition verified (verify_and_charge : bool) (msg : CommitPayment) : bool :=
  if String.eqb (payment_method (funds msg)) "skyfire"
  then verify_and_charge else false.

(** The last block of [process_order]: run the turn on the chosen items
    with the state and history of the session, store the outcome, send the
    reply. *)
Definition run_and_record (sender session : string)
           (session_data : SessionData) (items : list item) : M unit :=
  let state := match sd_state session_data with
               | Some st => st
               | None => empty_state
               end in
  let history := match sd_history session_data with
                 | Some h => h
                 | None => []
                 end in
  bind (run_agent_turn items state history (session_key sender session))
       (fun result =>
          match result with
          | None =>
              send sender
                (ChatMessage
                   "✅ Payment received! Your order will be processed shortly.")
          | Some result =>
              bind (storage_set (session_key sender session)
                      (StoredDict
                         (mkData (Some (state_update state (tr_state result)))
                                 (Some (tr_history result))
                                 (sd_parsed_items session_data))))
                   (fun _ =>
                      if String.eqb (tr_content result) ""
                      then send sender
                             (ChatMessage
                                "✅ Payment received! Your order is being processed.")
                      else send sender (ChatMessage (tr_content result)))
          end).

(** The part of [handle_chat] after the order has been saved: the stock
    check, then the refusal or the payment request. *)
Definition request_or_refuse (cfg : config) (sender : string)
           (items : list item) : M unit :=
  bind (on_inventory (check_stock_multiple items))
       (fun stock_results =>
          let unavailable_items :=
            flat_map
              (fun it =>
                 let available_qty :=
                   match stock_results !! it_name it with
                   | Some q => q
                   | None => 0
                   end in
                 if available_qty <? it_quantity it
                 then [unavailable_part (it_name it) (it_quantity it)
                         available_qty]
                 else []) items in
          match unavailable_items with
          | _ :: _ =>
              send sender
                (ChatMessage
                   ("Sorry, we don't have enough stock for: "
                    ++ join ", " unavailable_items
                    ++ ". Please adjust your order.")%string)
          | [] =>
              match skyfire_service_id cfg with
              | None | Some "" =>
                  send sender
                    (ChatMessage
                       "Payment service not configured. Please contact support.")
              | Some _ =>
                  bind (on_inventory (get_items_prices items))
                       (fun prices =>
                          let priced :=
                            map (fun it =>
                                   (it, match prices !! it_name it with
                                        | Some p => p
                                        | None => 0%Q
                                        end)) items in
                          let total_price :=
                            fold_left
                              (fun total ip =>
                                 (total
                                  + snd ip * inject_Z (it_quantity (fst ip)))%Q)
                              priced 0%Q in
                          send sender
                            (RequestPayment
                               [mkFunds "USDC" (fixed_usd_amount cfg) "skyfire"]
                               (agent_address cfg) priced total_price))
              end
          end).

(** The event is not a payment request, or is one sent to [sender] for
    exactly [items], with the one accepted fund of [cfg]. *)
Definition request_for (cfg : config) (sender : string) (items : list item)
           (e : event) : Prop :=
  match e with
  | EvSend destination (RequestPayment accepted _ priced _) =>
      destination = sender /\ map fst priced = items
      /\ accepted = [mkFunds "USDC" (fixed_usd_amount cfg) "skyfire"]
  | _ => True
  end.

Definition is_payment_request (e : event) : bool :=
  match e with
  | EvSend _ (RequestPayment _ _ _ _) => true
  | _ => false
  end.

(** The variable is set in the environment to a non-empty string. *)
Definition is_set (env : gmap string string) (k : string) : bool :=
  Skyfire.truthy (env !! k).

(** The seller credentials, read off the environment variables: an API
    key, a service id and an account id, each under one of its names. *)
Definition configured (env : gmap string string) : bool :=
  ((is_set env "SKYFIRE_API_KEY" || is_set env "SELLER_SKYFIRE_API_KEY")
   && (is_set env "SKYFIRE_SERVICE_ID" || is_set env "SELLER_SERVICE_ID")
   && (is_set env "JWT_AUDIENCE" || is_set env "SELLER_ACCOUNT_ID"
       || is_set env "SKYFIRE_ACCOUNT_ID"))%bool.

(** The [verify_and_charge] that [protocols/payment_proto.py] binds at
    import: the one of [tools/skyfire.py] when that module imports
    ([skyfire_imported]), else the stub of the [except] branch, which
    answers [True] and calls nothing. *)
Definition bound_verify_and_charge (skyfire_imported : bool)
           (env : gmap string string)
           (verify : string -> bool) (charge : string -> string -> bool)
           (token amount_usdc : string) : bool * list Skyfire.remote_call :=
  if skyfire_imported
  then Skyfire.verify_and_charge env verify charge token amount_usdc
  else (true, []).

(** The verification [on_commit] asks for: the bound [verify_and_charge]
    on the transaction id as token and the amount the commit names, for
    the method ["skyfire"] only. *)
Definition commit_verification (skyfire_imported : bool)
           (env : gmap string string)
           (verify : string -> bool) (charge : string -> string -> bool)
           (msg : CommitPayment) : bool * list Skyfire.remote_call :=
  if String.eqb (payment_method (funds msg)) "skyfire"
  then bound_verify_and_charge skyfire_imported env verify charge
         (transaction_id msg) (amount (funds msg))
  else (false, []).

(** [on_commit] together with the remote calls it makes: none for a
    duplicate. *)
Definition on_commit_calls (skyfire_imported : bool)
           (env : gmap string string)
           (verify : string -> bool) (charge : string -> string -> bool)
           (sender session : string) (msg : CommitPayment)
  : M (list Skyfire.remote_call) :=
  fun w =>
    if fst (storage_has (commit_key sender session msg) w) then ([], w)
    else
      let r := commit_verification skyfire_imported env verify charge msg in
      (snd r, snd (on_commit (fst r) sender session msg w)).

(** None of the restock calls [restocker_node] makes for [items], in
    order from the file [d], raises. *)
Fixpoint restocks_return (items : list item) (d : database) : bool :=
  match items with
  | [] => true
  | it :: rest =>
      (negb (restock_item_raises (it_name it) (it_quantity it) d)
       && restocks_return rest
            (snd (Database.restock_item (it_name it) (it_quantity it) d)))%bool
  end.

End Coverage.

Import PyStr Database Runtime AgentGraph PaymentProto ChatProto Observe.
Import Skyfire Coverage.

(* ===================================================================== *)
(** * Properties of the inventory store                                   *)
(* ===================================================================== *)

Section Store.

Lemma get_connection_table (t : table) : get_connection (Some t) = t.
Proof. reflexivity. Qed.

Lemma get_connection_twice (d : database) :
  get_connection (Some (get_connection d)) = get_connection d.
Proof. reflexivity. Qed.

Lemma select_row_name (name : string) (t : table) (r : row) :
  select_row name t = Some r -> item_name r = name.
Proof.
  induction t as [|r0 t IH]; simpl; [discriminate|].
  destruct (String.eqb_spec (item_name r0) name) as [E|_]; [|exact IH].
  intros [= <-]. exact E.
Qed.

Lemma select_row_update (n name : string) (q : Z) (t : table) :
  select_row n (update_quantity q name t)
  = if String.eqb n name
    then option_map (fun r => mkRow (item_name r) q (price r)) (select_row name t)
    else select_row n t.
Proof.
  induction t as [|r t IH]; simpl.
  - destruct (String.eqb n name); reflexivity.
  - destruct (String.eqb (item_name r) name) eqn:E; simpl.
    + apply String.eqb_eq in E.
      destruct (String.eqb n name) eqn:E'.
      * apply String.eqb_eq in E'. subst. rewrite String.eqb_refl.
        reflexivity.
      * rewrite IH, E, String.eqb_sym, E'. reflexivity.
    + destruct (String.eqb n name) eqn:E'.
      * apply String.eqb_eq in E'. subst n. rewrite E, IH. reflexivity.
      * rewrite IH. reflexivity.
Qed.

Lemma quantity_on_hand_update (n name : string) (q : Z) (t : table) :
  quantity_on_hand n (update_quantity q name t)
  = if String.eqb n name
    then match quantity_on_hand name t with Some _ => Some q | None => None end
    else quantity_on_hand n t.
Proof.
  unfold quantity_on_hand. rewrite select_row_update.
  destruct (String.eqb n name); [|reflexivity].
  destruct (select_row name t); reflexivity.
Qed.

Lemma update_quantity_names (q : Z) (name : string) (t : table) :
  map item_name (update_quantity q name t) = map item_name t.
Proof.
  unfold update_quantity. rewrite map_map. apply map_ext.
  intros r. destruct (String.eqb (item_name r) name); reflexivity.
Qed.

Lemma update_quantity_prices (q : Z) (name : string) (t : table) :
  map price (update_quantity q name t) = map price t.
Proof.
  unfold update_quantity. rewrite map_map. apply map_ext.
  intros r. destruct (String.eqb (item_name r) name); reflexivity.
Qed.

Lemma all_nonneg_update (q : Z) (name : string) (t : table) :
  0 <= q -> all_nonneg t = true -> all_nonneg (update_quantity q name t) = true.
Proof.
  intros Hq. unfold all_nonneg, update_quantity.
  induction t as [|r t IH]; simpl; [reflexivity|].
  rewrite !andb_true_iff. intros [Hr Ht]. split; [|auto].
  destruct (String.eqb (item_name r) name); simpl; [lia|exact Hr].
Qed.

Lemma all_nonneg_select (name : string) (t : table) (r : row) :
  all_nonneg t = true -> select_row name t = Some r -> 0 <= quantity r.
Proof.
  unfold all_nonneg. induction t as [|r0 t IH]; simpl; [discriminate|].
  rewrite andb_true_iff. intros [H0 Ht].
  destruct (String.eqb (item_name r0) name).
  - intros [= <-]. lia.
  - auto.
Qed.

Lemma all_nonneg_on_hand (name : string) (t : table) :
  all_nonneg t = true -> 0 <= on_hand name t.
Proof.
  intros H. unfold on_hand, quantity_on_hand.
  destruct (select_row name t) as [r|] eqn:E; simpl; [|lia].
  eapply all_nonneg_select; eauto.
Qed.

Lemma on_hand_update (n name : string) (q : Z) (t : table) (r : row) :
  select_row name t = Some r ->
  on_hand n (update_quantity q name t)
  = if String.eqb n name then q else on_hand n t.
Proof.
  intros Hr. unfold on_hand. rewrite quantity_on_hand_update.
  unfold quantity_on_hand. rewrite Hr. simpl.
  destruct (String.eqb n name); reflexivity.
Qed.

(** The two outcomes of [subtract_inventory]. *)
Lemma subtract_inventory_cases (name : string) (qty : Z) (d : database) :
  let t := get_connection d in
  (exists r, select_row name t = Some r /\ qty <= quantity r
             /\ Database.subtract_inventory name qty d
                = (true, Some (update_quantity (quantity r - qty) name t)))
  \/ (Database.subtract_inventory name qty d = (false, Some t)
      /\ forall r, select_row name t = Some r -> quantity r < qty).
Proof.
  intros t. unfold Database.subtract_inventory. fold t.
  destruct (select_row name t) as [r|] eqn:Hr.
  - destruct (Z.ltb_spec (quantity r) qty) as [Hlt|Hge].
    + right. split; [reflexivity|]. intros r' [= <-]. exact Hlt.
    + left. exists r. auto.
  - right. split; [reflexivity|]. discriminate.
Qed.

(** The two outcomes of [restock_item]. *)
Lemma restock_item_cases (name : string) (qty : Z) (d : database) :
  let t := get_connection d in
  (exists r, select_row name t = Some r
             /\ Database.restock_item name qty d
                = (true, Some (update_quantity (quantity r + qty) name t)))
  \/ (Database.restock_item name qty d = (false, Some t)
      /\ select_row name t = None).
Proof.
  intros t. unfold Database.restock_item. fold t.
  destruct (select_row name t) as [r|] eqn:Hr.
  - left. exists r. auto.
  - right. auto.
Qed.

(** One call: what it adds to the reserved and restocked totals is what
    it takes from and gives to the quantity on hand. *)
Lemma run_op_balance (op : store_op) (d : database) (n : string) :
  on_hand n (get_connection (snd (run_op op d)))
  = on_hand n (get_connection d)
    - reserved_total n [op] d + restocked_total n [op] d.
Proof.
  unfold reserved_total, restocked_total.
  destruct op as [name qty|name qty]; simpl run_op.
  - destruct (subtract_inventory_cases name qty d) as [(r & Hr & _ & ->)|[-> _]];
      simpl.
    + rewrite (on_hand_update _ _ _ _ r Hr), (String.eqb_sym name n).
      destruct (String.eqb n name) eqn:E; [|lia].
      apply String.eqb_eq in E. subst n.
      unfold on_hand, quantity_on_hand. rewrite Hr. simpl. lia.
    + lia.
  - destruct (restock_item_cases name qty d) as [(r & Hr & ->)|[-> _]]; simpl.
    + rewrite (on_hand_update _ _ _ _ r Hr), (String.eqb_sym name n).
      destruct (String.eqb n name) eqn:E; [|lia].
      apply String.eqb_eq in E. subst n.
      unfold on_hand, quantity_on_hand. rewrite Hr. simpl. lia.
    + lia.
Qed.

(** One call keeps the quantities non-negative, a restock provided its
    quantity is. *)
Lemma run_op_nonneg (op : store_op) (d : database) :
  all_nonneg (get_connection d) = true ->
  restocks_nonneg [op] = true ->
  all_nonneg (get_connection (snd (run_op op d))) = true.
Proof.
  intros Hd Hop.
  destruct op as [name qty|name qty]; simpl run_op.
  - destruct (subtract_inventory_cases name qty d) as [(r & Hr & Hq & ->)|[-> _]];
      simpl; [|exact Hd].
    apply all_nonneg_update; [lia|exact Hd].
  - simpl in Hop. rewrite andb_true_r in Hop. apply Z.leb_le in Hop.
    destruct (restock_item_cases name qty d) as [(r & Hr & ->)|[-> _]];
      simpl; [|exact Hd].
    apply all_nonneg_update; [|exact Hd].
    pose proof (all_nonneg_select _ _ _ Hd Hr). lia.
Qed.

Lemma run_ops_cons (op : store_op) (ops : list store_op) (d : database) :
  snd (run_ops (op :: ops) d) = snd (run_ops ops (snd (run_op op d))).
Proof.
  simpl. destruct (run_op op d) as [ok d']. simpl.
  destruct (run_ops ops d'). reflexivity.
Qed.

Lemma reserved_total_cons (n : string) (op : store_op) (ops : list store_op)
      (d : database) :
  reserved_total n (op :: ops) d
  = reserved_total n [op] d + reserved_total n ops (snd (run_op op d)).
Proof. simpl. destruct (run_op op d) as [ok d']. simpl. lia. Qed.

Lemma restocked_total_cons (n : string) (op : store_op) (ops : list store_op)
      (d : database) :
  restocked_total n (op :: ops) d
  = restocked_total n [op] d + restocked_total n ops (snd (run_op op d)).
Proof. simpl. destruct (run_op op d) as [ok d']. simpl. lia. Qed.

(** Over a whole sequence: the quantity on hand at the end is the one at
    the start, less what was reserved, plus what was restocked. *)
Lemma run_ops_balance (ops : list store_op) (d : database) (n : string) :
  on_hand n (get_connection (snd (run_ops ops d)))
  = on_hand n (get_connection d)
    - reserved_total n ops d + restocked_total n ops d.
Proof.
  revert d. induction ops as [|op ops IH]; intros d.
  - simpl. lia.
  - rewrite run_ops_cons, IH, run_op_balance.
    rewrite (reserved_total_cons n op ops), (restocked_total_cons n op ops).
    lia.
Qed.

Lemma run_ops_nonneg (ops : list store_op) (d : database) :
  all_nonneg (get_connection d) = true ->
  restocks_nonneg ops = true ->
  all_nonneg (get_connection (snd (run_ops ops d))) = true.
Proof.
  revert d. induction ops as [|op ops IH]; intros d Hd Hops.
  - exact Hd.
  - rewrite run_ops_cons. simpl in Hops. apply andb_true_iff in Hops.
    destruct Hops as [Hop Hops]. apply IH; [|exact Hops].
    apply run_op_nonneg; [exact Hd|]. simpl. rewrite Hop. reflexivity.
Qed.

End Store.

(* ===================================================================== *)
(** * The store operations                                                *)
(* ===================================================================== *)

(** C5. [subtract_inventory] on the table [t] its connection works on:
    when the item is unknown or its quantity is less than the requested
    one, it returns false and the table is [t], unchanged; otherwise it
    returns true and the item's quantity is the old one minus exactly the
    requested quantity, every other item's row, all names and all prices
    being as before. *)
Theorem subtract_inventory_outcome (name : string) (qty : Z) (d : database) :
  match quantity_on_hand name (get_connection d) with
  | None =>
      Database.subtract_inventory name qty d = (false, Some (get_connection d))
  | Some current =>
      if current <? qty
      then Database.subtract_inventory name qty d
           = (false, Some (get_connection d))
      else exists t',
          Database.subtract_inventory name qty d = (true, Some t')
          /\ (forall other,
                 quantity_on_hand other t'
                 = if String.eqb other name then Some (current - qty)
                   else quantity_on_hand other (get_connection d))
          /\ map item_name t' = map item_name (get_connection d)
          /\ map price t' = map price (get_connection d)
  end.
Proof.
  unfold quantity_on_hand, Database.subtract_inventory.
  destruct (select_row name (get_connection d)) as [r|] eqn:Hr; simpl;
    [|reflexivity].
  destruct (quantity r <? qty); [reflexivity|].
  eexists. split; [reflexivity|]. split; [|split].
  - intros other. pose proof (quantity_on_hand_update other name
                               (quantity r - qty) (get_connection d)) as H.
    unfold quantity_on_hand in H. rewrite H, Hr. reflexivity.
  - apply update_quantity_names.
  - apply update_quantity_prices.
Qed.

(** C3, as the claim states its last part, fails: a restock followed by a
    reservation of the enlarged stock reserves 15 of an item of which 10
    were present before the two calls ran. *)
Lemma reservations_exceed_initial_quantity :
  all_nonneg (get_connection (Some sample_items)) = true
  /\ fst (run_ops [Restock "tshirt" 5; Reserve "tshirt" 15] (Some sample_items))
     = [true; true]
  /\ on_hand "tshirt" (get_connection (Some sample_items)) = 10
  /\ reserved_total "tshirt" [Restock "tshirt" 5; Reserve "tshirt" 15]
       (Some sample_items) = 15
  /\ ~ (reserved_total "tshirt" [Restock "tshirt" 5; Reserve "tshirt" 15]
          (Some sample_items)
        <= on_hand "tshirt" (get_connection (Some sample_items))).
Proof. vm_compute. repeat split; try reflexivity. intros H. apply H. reflexivity. Qed.

(** A restock is not checked either: with a negative quantity it drives the
    quantity on hand below zero. *)
Lemma negative_restock_goes_below_zero :
  Database.restock_item "jacket" (-4) (Some sample_items)
  = (true, Some (update_quantity (-1) "jacket" sample_items))
  /\ on_hand "jacket"
       (get_connection (snd (Database.restock_item "jacket" (-4)
                               (Some sample_items)))) = -1.
Proof. vm_compute. split; reflexivity. Qed.

(** C3, amended. From a store whose quantities are all non-negative, and
    for a sequence of reserve and restock calls whose restock quantities
    are non-negative: every quantity is non-negative afterwards; each
    item's final quantity is its initial one less the successful
    reservations plus the successful restocks, so the successful
    reservations never exceed the initial quantity plus the successful
    restocks; and a reservation asking for more than is on hand returns
    false and leaves the table as it is. *)
Theorem no_oversell (ops : list store_op) (d : database) :
  all_nonneg (get_connection d) = true ->
  restocks_nonneg ops = true ->
  all_nonneg (get_connection (snd (run_ops ops d))) = true
  /\ (forall name,
         on_hand name (get_connection (snd (run_ops ops d)))
         = on_hand name (get_connection d)
           - reserved_total name ops d + restocked_total name ops d)
  /\ (forall name,
         reserved_total name ops d
         <= on_hand name (get_connection d) + restocked_total name ops d)
  /\ (forall name qty d' current,
         quantity_on_hand name (get_connection d') = Some current ->
         current - qty < 0 ->
         Database.subtract_inventory name qty d'
         = (false, Some (get_connection d'))).
Proof.
  intros Hd Hops.
  pose proof (run_ops_nonneg ops d Hd Hops) as Hfinal.
  split; [exact Hfinal|]. split; [|split].
  - intros name. apply run_ops_balance.
  - intros name.
    pose proof (run_ops_balance ops d name) as Hbal.
    pose proof (all_nonneg_on_hand name _ Hfinal). lia.
  - intros name qty d' current Hcur Hneg.
    destruct (subtract_inventory_cases name qty d')
      as [(r & Hr & Hq & _)|[E _]]; [|exact E].
    unfold quantity_on_hand in Hcur. rewrite Hr in Hcur.
    injection Hcur as Hcur. lia.
Qed.

(** With reservations only, the successful ones never exceed the quantity
    present before they ran. *)
Corollary no_oversell_reservations_only (items : list item) (d : database)
          (name : string) :
  all_nonneg (get_connection d) = true ->
  reserved_total name (reserve_ops items) d <= on_hand name (get_connection d).
Proof.
  intros Hd.
  assert (Hr : restocks_nonneg (reserve_ops items) = true).
  { induction items as [|it items IH]; simpl; auto. }
  assert (H0 : forall d0, restocked_total name (reserve_ops items) d0 = 0).
  { clear. induction items as [|it items IH]; intros d0; [reflexivity|].
    unfold reserve_ops. simpl map. rewrite restocked_total_cons.
    fold (reserve_ops items). rewrite IH. simpl.
    destruct (Database.subtract_inventory _ _ d0). reflexivity. }
  pose proof (run_ops_balance (reserve_ops items) d name) as Hbal.
  pose proof (all_nonneg_on_hand name _ (run_ops_nonneg _ d Hd Hr)).
  rewrite H0 in Hbal. lia.
Qed.

Lemma no_oversell_witness :
  all_nonneg (get_connection
                (snd (run_ops [Reserve "tshirt" 4; Restock "tshirt" 5;
                               Reserve "tshirt" 12; Reserve "tshirt" 11]
                              None))) = true
  /\ on_hand "tshirt"
       (get_connection
          (snd (run_ops [Reserve "tshirt" 4; Restock "tshirt" 5;
                         Reserve "tshirt" 12; Reserve "tshirt" 11] None))) = 0.
Proof.
  destruct (no_oversell [Reserve "tshirt" 4; Restock "tshirt" 5;
                         Reserve "tshirt" 12; Reserve "tshirt" 11] None)
    as (H1 & H2 & _); [reflexivity|reflexivity|].
  split; [exact H1|]. rewrite H2. reflexivity.
Defined.

(** C9. On the seeded store the name "T-Shirts" passes the stock check,
    which finds 10 under the normalized name "tshirt" after the exact
    lookup found nothing, while [subtract_inventory] and [restock_item],
    which look up the exact name only, return false for every quantity
    and leave the table as it is. *)
Theorem check_passes_but_reserve_fails :
  exists name,
    0 < fst (Database.check_stock name (Some sample_items))
    /\ select_row name sample_items = None
    /\ quantity_on_hand (normalize_item_name name) sample_items
       = Some (fst (Database.check_stock name (Some sample_items)))
    /\ (forall qty,
           Database.subtract_inventory name qty (Some sample_items)
           = (false, Some sample_items))
    /\ (forall qty,
           Database.restock_item name qty (Some sample_items)
           = (false, Some sample_items)).
Proof.
  exists "T-Shirts".
  split; [reflexivity|]. split; [reflexivity|]. split; [reflexivity|].
  split; intros qty; reflexivity.
Qed.

(** The mutating operations never normalize: a name that the exact lookup
    does not find makes both fail, whatever the stock check says. *)
Lemma unknown_exact_name_fails (name : string) (qty : Z) (d : database) :
  select_row name (get_connection d) = None ->
  Database.subtract_inventory name qty d = (false, Some (get_connection d))
  /\ Database.restock_item name qty d = (false, Some (get_connection d)).
Proof.
  intros H. unfold Database.subtract_inventory, Database.restock_item.
  rewrite H. split; reflexivity.
Qed.

(* ===================================================================== *)
(** * The name resolver                                                   *)
(* ===================================================================== *)

(** C6. The resolver gives the same identifier for the variants of a
    name: "T-Shirts", "tshirt" and "Tshirt" all resolve to "tshirt", and
    "shoe" and "shoes" both to "shoes". *)
Theorem resolver_variants :
  normalize_item_name "T-Shirts" = normalize_item_name "tshirt"
  /\ normalize_item_name "tshirt" = normalize_item_name "Tshirt"
  /\ normalize_item_name "Tshirt" = "tshirt"
  /\ normalize_item_name "shoe" = normalize_item_name "shoes"
  /\ normalize_item_name "shoes" = "shoes".
Proof. vm_compute. repeat split; reflexivity. Qed.

(** C7, as stated, fails: "Widget" matches no alias and no database name,
    with or without its cleaning, and is returned lowercased, not
    unchanged. *)
Lemma unresolvable_name_is_changed :
  unresolvable "Widget" = true
  /\ unresolvable (clean "Widget") = true
  /\ normalize_item_name "Widget" = "widget"
  /\ normalize_item_name "Widget" <> "Widget".
Proof. vm_compute. repeat split; try reflexivity. discriminate. Qed.

(** C7, amended. [normalize_item_name] is total, and a name whose cleaned
    form (lowercased, stripped, hyphens and spaces removed) matches no
    alias and no database name, directly or after dropping a trailing
    "s", is returned in that cleaned form; it comes back as it was given
    exactly when it was clean already. *)
Theorem unresolvable_name_is_cleaned (name : string) :
  unresolvable (clean name) = true ->
  normalize_item_name name = clean name
  /\ (normalize_item_name name = name <-> clean name = name).
Proof.
  intros Hu.
  assert (H : normalize_item_name name = clean name).
  { revert Hu. unfold unresolvable, normalize_item_name.
    destruct (String.eqb_spec name "") as [->|_]; [reflexivity|].
    rewrite !andb_true_iff, orb_true_iff, andb_true_iff, !negb_true_iff,
      !bool_decide_eq_true.
    intros [[-> ->] [->|[-> ->]]]; [reflexivity|].
    destruct (endswith_char "s" (clean name)); reflexivity. }
  split; [exact H|]. rewrite H. tauto.
Qed.

Lemma unresolvable_name_is_cleaned_witness :
  normalize_item_name " Blue-Widget " = "bluewidget".
Proof.
  exact (proj1 (unresolvable_name_is_cleaned " Blue-Widget " eq_refl)).
Defined.

(* ===================================================================== *)
(** * Initialisation of the store                                         *)
(* ===================================================================== *)

Section InitDatabase.

Lemma backfill_updates_rowwise (l : list (string * Q)) (t : table) :
  fold_left (fun acc '(name, p) => update_missing_price p name acc) l t
  = map (fun r => fold_left backfill_step l r) t.
Proof.
  revert t. induction l as [|[n p] l IH]; intros t; simpl.
  - symmetry. apply map_id.
  - rewrite IH. unfold update_missing_price. rewrite map_map.
    reflexivity.
Qed.

Lemma backfill_steps_priced (l : list (string * Q)) (r : row) :
  price_missing (price r) = false -> fold_left backfill_step l r = r.
Proof.
  intros H. induction l as [|np l IH]; simpl; [reflexivity|].
  unfold backfill_step at 2. rewrite H, andb_false_r. exact IH.
Qed.

Lemma backfill_steps (l : list (string * Q)) (r : row) :
  forallb nonzero_price l = true ->
  fold_left backfill_step l r = backfill_in l r.
Proof.
  revert r. induction l as [|[n p] l IH]; intros r Hl; simpl.
  - unfold backfill_in. simpl. destruct (price_missing (price r)); reflexivity.
  - simpl in Hl. apply andb_true_iff in Hl. destruct Hl as [Hp Hl].
    unfold backfill_step at 2, backfill_in. simpl.
    destruct (price_missing (price r)) eqn:Hm.
    + rewrite andb_true_r, (String.eqb_sym n (item_name r)).
      destruct (String.eqb (item_name r) n) eqn:E.
      * apply backfill_steps_priced. simpl.
        unfold nonzero_price in Hp. simpl in Hp.
        apply negb_true_iff in Hp. exact Hp.
      * rewrite (IH r Hl). unfold backfill_in. rewrite Hm. reflexivity.
    + rewrite andb_false_r. apply backfill_steps_priced. exact Hm.
Qed.

Lemma default_prices_nonzero : forallb nonzero_price default_prices = true.
Proof. reflexivity. Qed.

Lemma default_price_nonzero (name : string) (p : Q) :
  default_price name = Some p -> price_missing (Some p) = false.
Proof.
  unfold default_price. pose proof default_prices_nonzero as H.
  induction default_prices as [|[n q] l IH]; simpl in *; [discriminate|].
  apply andb_true_iff in H. destruct H as [Hq Hl].
  destruct (String.eqb n name).
  - intros [= <-]. apply negb_true_iff in Hq. exact Hq.
  - auto.
Qed.

(** Re-initialising a table that has rows is the row-wise backfill. *)
Lemma init_database_backfills (r : row) (t : table) :
  init_database (Some (r :: t)) = map backfill_price (r :: t).
Proof.
  unfold init_database. simpl length. cbv iota beta.
  change (S (length t) =? 0)%nat with false. cbv iota.
  rewrite backfill_updates_rowwise. apply map_ext. intros r0.
  rewrite (backfill_steps _ _ default_prices_nonzero). reflexivity.
Qed.

Lemma backfill_price_idempotent (r : row) :
  backfill_price (backfill_price r) = backfill_price r.
Proof.
  unfold backfill_price at 2.
  destruct (price_missing (price r)) eqn:Hm.
  - destruct (default_price (item_name r)) as [p|] eqn:Hp.
    + unfold backfill_price. cbn [price item_name quantity].
      rewrite (default_price_nonzero _ _ Hp), Hm, Hp. reflexivity.
    + unfold backfill_price. rewrite Hm, Hp. reflexivity.
  - unfold backfill_price. rewrite Hm. reflexivity.
Qed.

(** What the backfill of a row leaves alone. *)
Lemma backfill_price_frame (r : row) :
  item_name (backfill_price r) = item_name r
  /\ quantity (backfill_price r) = quantity r
  /\ (price (backfill_price r) = price r
      \/ (price_missing (price r) = true
          /\ price (backfill_price r) = default_price (item_name r))).
Proof.
  unfold backfill_price.
  destruct (price_missing (price r)) eqn:Hm; [|auto].
  destruct (default_price (item_name r)) as [p|] eqn:Hp; simpl; auto.
Qed.

End InitDatabase.

(** C8. On a file without table, or with an empty table, [init_database]
    leaves exactly the seed catalogue.  On a table that has rows it keeps
    every name and every quantity, and changes a price only where the
    price was missing (NULL or 0), to the default price of that name;
    running it a second time changes nothing. *)
Theorem init_database_seeds_and_backfills :
  init_database None
  = [ mkRow "tshirt" 10 (Some 19.99%Q); mkRow "jeans" 5 (Some 49.99%Q);
      mkRow "shoes" 8 (Some 79.99%Q); mkRow "hat" 15 (Some 14.99%Q);
      mkRow "jacket" 3 (Some 99.99%Q) ]
  /\ init_database (Some []) = init_database None
  /\ (forall r t,
         map item_name (init_database (Some (r :: t))) = map item_name (r :: t)
         /\ map quantity (init_database (Some (r :: t))) = map quantity (r :: t)
         /\ Forall2 (fun old new =>
                       price new = price old
                       \/ (price_missing (price old) = true
                           /\ price new = default_price (item_name old)))
                    (r :: t) (init_database (Some (r :: t)))
         /\ init_database (Some (r :: t)) = map backfill_price (r :: t))
  /\ (forall d, init_database (Some (init_database d)) = init_database d).
Proof.
  split; [reflexivity|]. split; [reflexivity|]. split.
  - intros r t. rewrite init_database_backfills.
    generalize (r :: t) as l. intros l. rewrite !map_map.
    split; [|split; [|split; [|reflexivity]]].
    + apply map_ext. intros x. apply backfill_price_frame.
    + apply map_ext. intros x. apply backfill_price_frame.
    + induction l as [|x l IH]; simpl; constructor; [|exact IH].
      apply backfill_price_frame.
  - intros [[|r t]|].
    + reflexivity.
    + rewrite init_database_backfills. simpl map.
      rewrite init_database_backfills. simpl map.
      rewrite backfill_price_idempotent, map_map. f_equal.
      apply map_ext. intros x. apply backfill_price_idempotent.
    + reflexivity.
Qed.

(* ===================================================================== *)
(** * The workflow graph                                                  *)
(* ===================================================================== *)

Section Graph.

Lemma cashier_node_payment_status (state : AgentState) :
  payment_status (cashier_node state) = Some "successful".
Proof. reflexivity. Qed.

Lemma cashier_node_status (state : AgentState) :
  status (cashier_node state) = Some "completed".
Proof. reflexivity. Qed.

Lemma route_after_cashier (state : AgentState) :
  route_after_payment (cashier_node state) = END.
Proof. reflexivity. Qed.

(** The stock router knows two destinations only. *)
Lemma route_after_stock_check_cases (state : AgentState) :
  route_after_stock_check state = END
  \/ route_after_stock_check state = Goto warehouse.
Proof.
  unfold route_after_stock_check.
  destruct (stock_availability state) as [[|]|]; auto.
Qed.

(** From a node other than the restocker, the edge taken after the node
    has run never leads to the restocker. *)
Lemma edge_avoids_restocker (n : node) (state : AgentState) (w : world) :
  n <> restocker ->
  edge n (fst (run_node n state w)) <> Goto restocker.
Proof.
  intros Hn. destruct n.
  - simpl. destruct (route_after_stock_check_cases
                       (fst (stock_management_node state w))) as [-> | ->];
      congruence.
  - simpl. congruence.
  - change (route_after_payment (cashier_node state) <> Goto restocker).
    rewrite route_after_cashier. congruence.
  - congruence.
Qed.

Lemma run_from_avoids_restocker (fuel : nat) (n : node) (state : AgentState)
      (w : world) :
  n <> restocker ->
  ~ In restocker (visited (fst (run_from fuel n state w))).
Proof.
  revert n state w. induction fuel as [|fuel IH]; intros n state w Hn.
  - simpl. tauto.
  - simpl. unfold bind.
    pose proof (edge_avoids_restocker n state w Hn) as He.
    destruct (run_node n state w) as [out w1]. simpl in He.
    destruct (edge n out) as [n'|] eqn:E.
    + assert (Hn' : n' <> restocker) by congruence.
      specialize (IH n' out w1 Hn').
      destruct (run_from fuel n' out w1) as [[[events final] finished] w2].
      unfold visited in *. simpl in *. intros [H|H]; [congruence|tauto].
    + unfold visited. simpl. intros [H|H]; [congruence|tauto].
Qed.

(** One step of a run. *)
Lemma run_from_step (fuel : nat) (n : node) (state : AgentState) (w : world) :
  run_from (S fuel) n state w
  = let (out, w1) := run_node n state w in
    match edge n out with
    | END => (([(n, out)], out, true), w1)
    | Goto n' =>
        let (r, w2) := run_from fuel n' out w1 in
        let '(events, final, finished) := r in
        (((n, out) :: events, final, finished), w2)
    end.
Proof.
  simpl. unfold bind. destruct (run_node n state w) as [out w1].
  destruct (edge n out) as [n'|]; [|reflexivity].
  destruct (run_from fuel n' out w1) as [[[events final] finished] w2].
  reflexivity.
Qed.

Lemma run_from_cashier (fuel : nat) (state : AgentState) (w : world) :
  run_from (S fuel) cashier state w
  = (([(cashier, cashier_node state)], cashier_node state, true), w).
Proof. reflexivity. Qed.

Lemma run_from_warehouse (fuel : nat) (state : AgentState) (w : world) :
  run_from (S (S fuel)) warehouse state w
  = let (out, w1) := warehouse_node state w in
    (([(warehouse, out); (cashier, cashier_node out)],
      cashier_node out, true), w1).
Proof.
  rewrite run_from_step. simpl run_node. destruct (warehouse_node state w).
  reflexivity.
Qed.

(** A run of the compiled graph from its entry point: the stock check,
    then either the end or the warehouse and the cashier. *)
Lemma run_from_entry_point (fuel : nat) (state : AgentState) (w : world) :
  run_from (S (S (S fuel))) entry_point state w
  = let (s1, w1) := stock_management_node state w in
    match stock_availability s1 with
    | Some true =>
        let (s2, w2) := warehouse_node s1 w1 in
        (([(stock_management, s1); (warehouse, s2);
           (cashier, cashier_node s2)], cashier_node s2, true), w2)
    | _ => (([(stock_management, s1)], s1, true), w1)
    end.
Proof.
  rewrite run_from_step. unfold entry_point. simpl run_node.
  destruct (stock_management_node state w) as [s1 w1].
  cbn [edge]. unfold route_after_stock_check.
  destruct (stock_availability s1) as [[|]|]; try reflexivity.
  rewrite run_from_warehouse. destruct (warehouse_node s1 w1). reflexivity.
Qed.

(** The recursion limit is never reached. *)
Lemma run_from_finishes (state : AgentState) (w : world) :
  snd (fst (run_from recursion_limit entry_point state w)) = true.
Proof.
  unfold recursion_limit. rewrite run_from_entry_point.
  destruct (stock_management_node state w) as [s1 w1].
  destruct (stock_availability s1) as [[|]|]; try reflexivity.
  destruct (warehouse_node s1 w1). reflexivity.
Qed.

End Graph.

(* ===================================================================== *)
(** * Relations that the computations preserve                            *)
(* ===================================================================== *)

Section Preserves.

Variable R : world -> world -> Prop.
Hypothesis R_refl : forall w, R w w.
Hypothesis R_trans : forall w1 w2 w3, R w1 w2 -> R w2 w3 -> R w1 w3.

Lemma preserves_ret {A} (a : A) : preserves R (ret a).
Proof. intros w. apply R_refl. Qed.

Lemma preserves_bind {A B} (c : M A) (k : A -> M B) :
  preserves R c -> (forall a, preserves R (k a)) -> preserves R (bind c k).
Proof.
  intros Hc Hk w. unfold bind. specialize (Hc w).
  destruct (c w) as [a w1]. simpl in Hc.
  eapply R_trans; [exact Hc|]. apply Hk.
Qed.

Lemma preserves_storage_has (k : string) : preserves R (storage_has k).
Proof. intros w. apply R_refl. Qed.

Lemma preserves_storage_get (k : string) : preserves R (storage_get k).
Proof. intros w. apply R_refl. Qed.

Lemma preserves_memory_get (k : string) : preserves R (memory_get k).
Proof. intros w. apply R_refl. Qed.

(** What the workflow and the order processing do to the world: they
    query and update the inventory, record subtractions, put
    checkpoints, set storage keys and send chat messages. *)
Hypothesis R_inventory :
  forall A (f : database -> A * database), preserves R (on_inventory f).
Hypothesis R_subtract :
  forall name qty ok, preserves R (emit (EvSubtract name qty ok)).
Hypothesis R_memory_put : forall k s, preserves R (memory_put k s).
Hypothesis R_storage_set : forall k v, preserves R (storage_set k v).
Hypothesis R_chat :
  forall destination text, preserves R (send destination (ChatMessage text)).

Lemma preserves_check_stock (name : string) :
  preserves R (Runtime.check_stock name).
Proof. apply R_inventory. Qed.

Lemma preserves_subtract_inventory (name : string) (qty : Z) :
  preserves R (Runtime.subtract_inventory name qty).
Proof.
  unfold Runtime.subtract_inventory.
  apply preserves_bind; [apply R_inventory|]. intros ok.
  apply preserves_bind; [apply R_subtract|]. intros _. apply preserves_ret.
Qed.

Lemma preserves_stock_check_loop (items : list item)
      (results : odict stock_check) (all_available : bool) :
  preserves R (stock_check_loop items results all_available).
Proof.
  revert results all_available.
  induction items as [|it items IH]; intros results all_available; simpl.
  - apply preserves_ret.
  - apply preserves_bind; [apply preserves_check_stock|].
    intros available. apply IH.
Qed.

Lemma preserves_stock_management_node (state : AgentState) :
  preserves R (stock_management_node state).
Proof.
  unfold stock_management_node.
  destruct (get_parsed_items state) as [|it items]; [apply preserves_ret|].
  apply preserves_bind; [apply preserves_stock_check_loop|].
  intros [results all_available].
  destruct all_available; apply preserves_ret.
Qed.

Lemma preserves_warehouse_loop (items : list item) (updated : gmap string Z) :
  preserves R (warehouse_loop items updated).
Proof.
  revert updated.
  induction items as [|it items IH]; intros updated; simpl.
  - apply preserves_ret.
  - apply preserves_bind; [apply preserves_subtract_inventory|].
    intros [|]; [|apply preserves_ret].
    apply preserves_bind; [apply preserves_check_stock|]. intros q. apply IH.
Qed.

Lemma preserves_warehouse_node (state : AgentState) :
  preserves R (warehouse_node state).
Proof.
  unfold warehouse_node.
  destruct (get_parsed_items state) as [|it items]; [apply preserves_ret|].
  apply preserves_bind; [apply preserves_warehouse_loop|].
  intros [name|updated]; apply preserves_ret.
Qed.

Lemma preserves_run_node (n : node) (state : AgentState) :
  n <> restocker -> preserves R (run_node n state).
Proof.
  intros Hn. destruct n; simpl.
  - apply preserves_stock_management_node.
  - apply preserves_warehouse_node.
  - apply preserves_ret.
  - congruence.
Qed.

Lemma preserves_run_from (fuel : nat) (n : node) (state : AgentState) :
  n <> restocker -> preserves R (run_from fuel n state).
Proof.
  revert n state.
  induction fuel as [|fuel IH]; intros n state Hn; simpl.
  - apply preserves_ret.
  - intros w. unfold bind.
    pose proof (preserves_run_node n state Hn w) as H1.
    pose proof (edge_avoids_restocker n state w Hn) as He.
    destruct (run_node n state w) as [out w1]. simpl in H1, He.
    destruct (edge n out) as [n'|] eqn:E.
    + assert (Hn' : n' <> restocker) by congruence.
      pose proof (IH n' out Hn' w1) as H2.
      destruct (run_from fuel n' out w1) as [[[events final] finished] w2].
      simpl in *. eapply R_trans; eauto.
    + exact H1.
Qed.

Lemma preserves_app_stream (initial_state : AgentState) (thread_id : string) :
  preserves R (app_stream initial_state thread_id).
Proof.
  unfold app_stream.
  apply preserves_bind; [apply preserves_memory_get|]. intros checkpoint.
  apply preserves_bind.
  - apply preserves_run_from. unfold entry_point. congruence.
  - intros [[events final] finished].
    apply preserves_bind; [apply R_memory_put|]. intros _.
    apply preserves_ret.
Qed.

Lemma preserves_run_agent_turn (items : list item)
      (session_state : SessionState) (history : list hist_entry)
      (session_id : string) :
  preserves R (run_agent_turn items session_state history session_id).
Proof.
  unfold run_agent_turn.
  apply preserves_bind; [apply preserves_app_stream|].
  intros [events finished].
  destruct finished; simpl; [|apply preserves_ret].
  destruct (last events) as [[n state]|]; apply preserves_ret.
Qed.

Lemma preserves_mark_payment_confirmed (sender session : string) :
  preserves R (mark_payment_confirmed sender session).
Proof.
  unfold mark_payment_confirmed.
  apply preserves_bind; [apply preserves_storage_get|].
  intros [[b|session_data]|]; try apply preserves_ret.
  destruct (sd_state session_data); [apply R_storage_set|apply preserves_ret].
Qed.

Lemma preserves_process_order (sender session : string) (msg : CommitPayment) :
  preserves R (process_order sender session msg).
Proof.
  unfold process_order.
  apply preserves_bind; [apply preserves_storage_get|]. intros v.
  match goal with
  | |- preserves R (match ?p with _ => _ end) => destruct p as [[|it items]|]
  end; try apply R_chat.
  destruct (match v with Some x => x | None => StoredDict empty_data end)
    as [b|session_data]; [apply R_chat|].
  apply preserves_bind; [apply preserves_run_agent_turn|].
  intros [result|]; [|apply R_chat].
  apply preserves_bind; [apply R_storage_set|]. intros _.
  destruct (String.eqb (tr_content result) ""); apply R_chat.
Qed.

End Preserves.

(** The three relations are preorders. *)
Lemma extends_refl (P : event -> bool) (w : world) : extends P w w.
Proof. exists []. rewrite app_nil_r. auto. Qed.

Lemma extends_trans (P : event -> bool) (w1 w2 w3 : world) :
  extends P w1 w2 -> extends P w2 w3 -> extends P w1 w3.
Proof.
  intros (e1 & H1 & F1) (e2 & H2 & F2). exists (e1 ++ e2)%list.
  rewrite H2, H1, <- app_assoc, forallb_app, F1, F2. auto.
Qed.

Lemma extends_silent (P : event -> bool) (w w' : world) :
  trace w' = trace w -> extends P w w'.
Proof. intros H. exists []. rewrite H, app_nil_r. auto. Qed.

Lemma extends_emit (P : event -> bool) (e : event) :
  P e = true -> preserves (extends P) (emit e).
Proof. intros He w. exists [e]. simpl. rewrite He. auto. Qed.

Lemma extends_on_inventory (P : event -> bool) {A}
      (f : database -> A * database) :
  preserves (extends P) (on_inventory f).
Proof.
  intros w. apply extends_silent. unfold on_inventory.
  destruct (f (inventory w)). reflexivity.
Qed.

Lemma keeps_keys_refl (w : world) : keeps_keys w w.
Proof. intros k H. exact H. Qed.

Lemma keeps_keys_trans (w1 w2 w3 : world) :
  keeps_keys w1 w2 -> keeps_keys w2 w3 -> keeps_keys w1 w3.
Proof. intros H1 H2 k H. apply H2, H1, H. Qed.

Lemma keeps_keys_same (w w' : world) : storage w' = storage w -> keeps_keys w w'.
Proof. intros E k H. rewrite E. exact H. Qed.

Lemma keeps_keys_storage_set (k : string) (v : stored) :
  preserves keeps_keys (storage_set k v).
Proof.
  intros w k' H. simpl. destruct (decide (k = k')) as [->|Hne].
  - rewrite lookup_insert_eq. eauto.
  - rewrite lookup_insert_ne; [exact H|exact Hne].
Qed.

Lemma keeps_keys_on_inventory {A} (f : database -> A * database) :
  preserves keeps_keys (on_inventory f).
Proof.
  intros w. apply keeps_keys_same. unfold on_inventory.
  destruct (f (inventory w)). reflexivity.
Qed.

(** The workflow and the order processing add to the trace only
    subtractions and chat messages, whatever else [P] allows. *)
Lemma process_order_extends (P : event -> bool) (sender session : string)
      (msg : CommitPayment) :
  (forall name qty ok, P (EvSubtract name qty ok) = true) ->
  (forall destination text, P (EvSend destination (ChatMessage text)) = true) ->
  preserves (extends P) (process_order sender session msg).
Proof.
  intros Hsub Hchat. apply preserves_process_order.
  - apply extends_refl.
  - apply extends_trans.
  - intros A f. apply extends_on_inventory.
  - intros name qty ok. apply extends_emit, Hsub.
  - intros k s w. apply extends_silent. reflexivity.
  - intros k v w. apply extends_silent. reflexivity.
  - intros destination text. apply extends_emit, Hchat.
Qed.

Lemma app_stream_extends (P : event -> bool) (initial_state : AgentState)
      (thread_id : string) :
  (forall name qty ok, P (EvSubtract name qty ok) = true) ->
  preserves (extends P) (app_stream initial_state thread_id).
Proof.
  intros Hsub. apply preserves_app_stream.
  - apply extends_refl.
  - apply extends_trans.
  - intros A f. apply extends_on_inventory.
  - intros name qty ok. apply extends_emit, Hsub.
  - intros k s w. apply extends_silent. reflexivity.
Qed.

Lemma process_order_keeps_keys (sender session : string) (msg : CommitPayment) :
  preserves keeps_keys (process_order sender session msg).
Proof.
  apply preserves_process_order.
  - apply keeps_keys_refl.
  - apply keeps_keys_trans.
  - intros A f. apply keeps_keys_on_inventory.
  - intros name qty ok w. apply keeps_keys_same. reflexivity.
  - intros k s w. apply keeps_keys_same. reflexivity.
  - apply keeps_keys_storage_set.
  - intros destination text w. apply keeps_keys_same. reflexivity.
Qed.

(* ===================================================================== *)
(** * Reachability of the restocker                                       *)
(* ===================================================================== *)

(** C10. Whatever state it is given, [cashier_node] sets [payment_status]
    to "successful" and [status] to "completed", so the router after it
    answers END; no run of the compiled graph, from any input, thread and
    world, visits the restocker or calls [restock_item]; and the run never
    hits the recursion limit. *)
Theorem restocker_unreachable (initial_state : AgentState) (thread_id : string)
        (w : world) :
  (forall state,
      payment_status (cashier_node state) = Some "successful"
      /\ status (cashier_node state) = Some "completed"
      /\ route_after_payment (cashier_node state) = END)
  /\ ~ In restocker (map fst (fst (fst (app_stream initial_state thread_id w))))
  /\ snd (fst (app_stream initial_state thread_id w)) = true
  /\ exists evs,
      trace (snd (app_stream initial_state thread_id w)) = (trace w ++ evs)%list
      /\ forallb (fun e => negb (is_restock_event e)) evs = true.
Proof.
  split; [intros state; repeat split|].
  split; [|split].
  - unfold app_stream, bind, memory_get.
    match goal with
    | |- context [run_from recursion_limit entry_point ?s ?w0] =>
        pose proof (run_from_avoids_restocker recursion_limit entry_point s w0)
          as H;
        destruct (run_from recursion_limit entry_point s w0)
          as [[[events final] finished] w1]
    end.
    simpl in *. apply H. unfold entry_point. congruence.
  - unfold app_stream, bind, memory_get.
    match goal with
    | |- context [run_from recursion_limit entry_point ?s ?w0] =>
        pose proof (run_from_finishes s w0) as H;
        destruct (run_from recursion_limit entry_point s w0)
          as [[[events final] finished] w1]
    end.
    simpl in *. exact H.
  - apply (app_stream_extends (fun e => negb (is_restock_event e))).
    reflexivity.
Qed.

(** Called directly, outside the graph, [restocker_node] does restock:
    the second scenario of the module's own test block. *)
Example restocker_node_called_directly :
  let state := mkState [] None (Some [mkItem "tshirt" 2]) None None (Some true)
                 None (Some true) (Some "failed") (Some "payment_failed")
                 None None in
  let w := mkWorld (Some (update_quantity 8 "tshirt" sample_items)) ∅ ∅ [] in
  route_after_payment state = Goto restocker
  /\ trace (snd (restocker_node state w)) = [EvRestock "tshirt" 2 true]
  /\ on_hand "tshirt" (table_of (snd (restocker_node state w))) = 10
  /\ status (fst (restocker_node state w)) = Some "completed"
  /\ restocked_items (fst (restocker_node state w)) = Some ["tshirt"].
Proof. vm_compute. repeat split; reflexivity. Qed.

(* ===================================================================== *)
(** * Partial failure of the reservation phase                            *)
(* ===================================================================== *)

Section Warehouse.

Lemma subtract_inventory_world (name : string) (qty : Z) (w : world) :
  Runtime.subtract_inventory name qty w
  = (fst (Database.subtract_inventory name qty (inventory w)),
     mkWorld (snd (Database.subtract_inventory name qty (inventory w)))
             (memory w) (storage w)
             (trace w
              ++ [EvSubtract name qty
                    (fst (Database.subtract_inventory name qty (inventory w)))])%list).
Proof.
  unfold Runtime.subtract_inventory, bind, on_inventory, emit, ret.
  destruct (Database.subtract_inventory name qty (inventory w)). reflexivity.
Qed.

Lemma check_stock_world (name : string) (w : world) :
  Runtime.check_stock name w
  = (lookup_quantity name (get_connection (inventory w)),
     mkWorld (Some (get_connection (inventory w))) (memory w) (storage w)
             (trace w)).
Proof. reflexivity. Qed.

(** A successful subtraction leaves a file with a table. *)
Lemma subtract_inventory_some (name : string) (qty : Z) (d : database) :
  Some (get_connection (snd (Database.subtract_inventory name qty d)))
  = snd (Database.subtract_inventory name qty d).
Proof.
  unfold Database.subtract_inventory.
  destruct (select_row name (get_connection d)) as [r|]; [|reflexivity].
  destruct (quantity r <? qty); reflexivity.
Qed.

Lemma restocked_total_reserve_ops (name : string) (items : list item)
      (d : database) :
  restocked_total name (reserve_ops items) d = 0.
Proof.
  revert d. induction items as [|it items IH]; intros d; [reflexivity|].
  unfold reserve_ops. simpl map. rewrite restocked_total_cons.
  fold (reserve_ops items). rewrite IH. simpl.
  destruct (Database.subtract_inventory _ _ d). reflexivity.
Qed.

(** The loop of [warehouse_node] on an order whose first items [pre] are
    reserved and whose next item [it] is not: it stops there. *)
Lemma warehouse_loop_stops (pre : list item) (it : item) (post : list item)
      (updated : gmap string Z) (w : world) :
  fst (run_ops (reserve_ops pre) (inventory w)) = map (fun _ => true) pre ->
  fst (Database.subtract_inventory (it_name it) (it_quantity it)
         (snd (run_ops (reserve_ops pre) (inventory w)))) = false ->
  fst (warehouse_loop (pre ++ it :: post) updated w) = inl (it_name it)
  /\ trace (snd (warehouse_loop (pre ++ it :: post) updated w))
     = (trace w ++ reserve_events pre
        ++ [EvSubtract (it_name it) (it_quantity it) false])%list
  /\ get_connection (inventory (snd (warehouse_loop (pre ++ it :: post)
                                       updated w)))
     = get_connection (snd (run_ops (reserve_ops pre) (inventory w))).
Proof.
  revert updated w. induction pre as [|p pre IH]; intros updated w Hpre Hit.
  - simpl in Hit. simpl app. simpl warehouse_loop. unfold bind.
    rewrite subtract_inventory_world, Hit. simpl.
    split; [reflexivity|]. split; [reflexivity|].
    pose proof (subtract_inventory_cases (it_name it) (it_quantity it)
                  (inventory w)) as [(r & _ & _ & E)|[E _]];
      rewrite E in *; [discriminate|reflexivity].
  - simpl app. simpl warehouse_loop. unfold bind.
    rewrite subtract_inventory_world.
    unfold reserve_ops in Hpre, Hit. simpl map in Hpre, Hit.
    fold (reserve_ops pre) in Hpre, Hit.
    rewrite run_ops_cons in Hit. simpl run_op in Hit.
    simpl run_ops in Hpre. simpl run_op in Hpre.
    destruct (Database.subtract_inventory (it_name p) (it_quantity p)
                (inventory w)) as [ok d1] eqn:E1.
    simpl in Hit.
    destruct (run_ops (reserve_ops pre) d1) as [oks d2] eqn:E2.
    simpl in Hpre. injection Hpre as Hok Hoks. subst ok. simpl fst. simpl snd.
    assert (Hd1 : Some (get_connection d1) = d1).
    { pose proof (subtract_inventory_some (it_name p) (it_quantity p)
                    (inventory w)) as H. rewrite E1 in H. exact H. }
    rewrite Hd1, E1.
    specialize (IH (<[it_name p := lookup_quantity (it_name p)
                                     (get_connection d1)]> updated)
                   (mkWorld d1 (memory w) (storage w)
                      (trace w ++ [EvSubtract (it_name p) (it_quantity p) true])%list)).
    cbn [inventory trace] in IH. rewrite E2 in IH.
    destruct (IH Hoks Hit) as (H1 & H2 & H3).
    rewrite E2. split; [exact H1|]. split; [|exact H3].
    rewrite H2, <- app_assoc. reflexivity.
Qed.

End Warehouse.

(** C1 (defect of the code). On the seeded store the order of one
    "jeans" and one "T-Shirts" passes the stock check; the warehouse
    reserves the jeans and fails on "T-Shirts".  No restock is called and
    the pair of jeans stays subtracted; the run goes on to the cashier,
    which ends the order as "completed" with the payment "successful",
    although [inventory_subtracted] was never set and the error message of
    the warehouse is in the state.  An order that fails at the stock
    check, by contrast, ends as "rejected" without any inventory call. *)
Lemma partial_reservation_is_not_rolled_back :
  on_hand "jeans" (table_of (mkWorld None ∅ ∅ [])) = 5
  /\ trace (snd (run_agent_turn [mkItem "jeans" 1; mkItem "T-Shirts" 1]
                   empty_state [] "alice::s1" (mkWorld None ∅ ∅ [])))
     = [EvSubtract "jeans" 1 true; EvSubtract "T-Shirts" 1 false]
  /\ on_hand "jeans"
       (table_of (snd (run_agent_turn [mkItem "jeans" 1; mkItem "T-Shirts" 1]
                         empty_state [] "alice::s1" (mkWorld None ∅ ∅ []))))
     = 4
  /\ option_map (fun r => ss_status (tr_state r))
       (fst (run_agent_turn [mkItem "jeans" 1; mkItem "T-Shirts" 1]
               empty_state [] "alice::s1" (mkWorld None ∅ ∅ [])))
     = Some (Some "completed")
  /\ option_map (fun r => ss_error_message (tr_state r))
       (fst (run_agent_turn [mkItem "jeans" 1; mkItem "T-Shirts" 1]
               empty_state [] "alice::s1" (mkWorld None ∅ ∅ [])))
     = Some (Some "Failed to subtract inventory for T-Shirts")
  /\ option_map (fun r => ss_payment_status (tr_state r))
       (fst (run_agent_turn [mkItem "jeans" 1; mkItem "T-Shirts" 1]
               empty_state [] "alice::s1" (mkWorld None ∅ ∅ [])))
     = Some (Some "successful")
  /\ option_map (fun r => ss_inventory_subtracted (tr_state r))
       (fst (run_agent_turn [mkItem "jeans" 1; mkItem "T-Shirts" 1]
               empty_state [] "alice::s1" (mkWorld None ∅ ∅ [])))
     = Some None
  /\ visited (fst (run_from recursion_limit entry_point
                     (mkState [] None
                        (Some [mkItem "jeans" 1; mkItem "T-Shirts" 1])
                        None None None None None None (Some "checking_stock")
                        None None)
                     (mkWorld None ∅ ∅ [])))
     = [stock_management; warehouse; cashier]
  /\ option_map (fun r => ss_status (tr_state r))
       (fst (run_agent_turn [mkItem "jeans" 1; mkItem "T-Shirts" 11]
               empty_state [] "alice::s1" (mkWorld None ∅ ∅ [])))
     = Some (Some "rejected")
  /\ trace (snd (run_agent_turn [mkItem "jeans" 1; mkItem "T-Shirts" 11]
                   empty_state [] "alice::s1" (mkWorld None ∅ ∅ [])))
     = [].
Proof. vm_compute. repeat split; reflexivity. Qed.

(** How far the defect reaches.  Whenever the reservations of the first
    items [pre] of an order succeed and the next one fails,
    [warehouse_node] stops at that item without any restock: its calls
    are the successful subtractions of [pre] and the failed one, and the
    table is the one those subtractions left, so the quantities reserved
    for [pre] stay subtracted. *)
Lemma warehouse_node_partial_failure (state : AgentState) (w : world)
        (pre : list item) (it : item) (post : list item) :
  get_parsed_items state = (pre ++ it :: post)%list ->
  fst (run_ops (reserve_ops pre) (inventory w)) = map (fun _ => true) pre ->
  fst (Database.subtract_inventory (it_name it) (it_quantity it)
         (snd (run_ops (reserve_ops pre) (inventory w)))) = false ->
  fst (warehouse_node state w)
  = set_error_message ("Failed to subtract inventory for " ++ it_name it)%string
      (set_status "subtracting_inventory" state)
  /\ trace (snd (warehouse_node state w))
     = (trace w ++ reserve_events pre
        ++ [EvSubtract (it_name it) (it_quantity it) false])%list
  /\ table_of (snd (warehouse_node state w))
     = get_connection (snd (run_ops (reserve_ops pre) (inventory w)))
  /\ (forall name,
         on_hand name (table_of (snd (warehouse_node state w)))
         = on_hand name (table_of w)
           - reserved_total name (reserve_ops pre) (inventory w)).
Proof.
  intros Hitems Hpre Hit.
  destruct (warehouse_loop_stops pre it post ∅ w Hpre Hit) as (H1 & H2 & H3).
  unfold warehouse_node. rewrite Hitems.
  destruct (pre ++ it :: post)%list as [|x l] eqn:E.
  { destruct pre; discriminate. }
  unfold bind. destruct (warehouse_loop (x :: l) ∅ w) as [r w'].
  simpl in H1, H2, H3. subst r. simpl.
  split; [reflexivity|]. split; [exact H2|]. unfold table_of.
  split; [exact H3|]. intros name. rewrite H3, run_ops_balance.
  rewrite restocked_total_reserve_ops. lia.
Qed.

Example warehouse_node_partial_failure_at_three_items :
  trace (snd (warehouse_node
                (mkState [] None
                   (Some [mkItem "jeans" 1; mkItem "T-Shirts" 1; mkItem "hat" 2])
                   None (Some true) None None None None (Some "checking_stock")
                   None None)
                (mkWorld None ∅ ∅ [])))
  = [EvSubtract "jeans" 1 true; EvSubtract "T-Shirts" 1 false]
  /\ on_hand "jeans"
       (table_of (snd (warehouse_node
                         (mkState [] None
                            (Some [mkItem "jeans" 1; mkItem "T-Shirts" 1;
                                   mkItem "hat" 2])
                            None (Some true) None None None None
                            (Some "checking_stock") None None)
                         (mkWorld None ∅ ∅ [])))) = 4.
Proof.
  destruct (warehouse_node_partial_failure
              (mkState [] None
                 (Some [mkItem "jeans" 1; mkItem "T-Shirts" 1; mkItem "hat" 2])
                 None (Some true) None None None None (Some "checking_stock")
                 None None)
              (mkWorld None ∅ ∅ [])
              [mkItem "jeans" 1] (mkItem "T-Shirts" 1) [mkItem "hat" 2]
              eq_refl eq_refl eq_refl) as (_ & H2 & _ & H4).
  split; [exact H2|]. rewrite H4. reflexivity.
Qed.

(* ===================================================================== *)
(** * The chat handler                                                    *)
(* ===================================================================== *)

Section HandleChat.

Variable R : world -> world -> Prop.
Hypothesis R_refl : forall w, R w w.
Hypothesis R_trans : forall w1 w2 w3, R w1 w2 -> R w2 w3 -> R w1 w3.

(** What the chat handler does to the world: it sends messages, sets
    storage keys and reads stock and prices. *)
Hypothesis R_send : forall destination m, preserves R (send destination m).
Hypothesis R_storage_set : forall k v, preserves R (storage_set k v).
Hypothesis R_stock :
  forall items, preserves R (on_inventory (check_stock_multiple items)).
Hypothesis R_prices :
  forall items, preserves R (on_inventory (get_items_prices items)).

Lemma preserves_get_session_data (sender session_id : string) :
  preserves R (_get_session_data sender session_id).
Proof.
  unfold _get_session_data.
  apply (preserves_bind R R_trans); [intros w; apply R_refl|].
  intros [[[|]|d]|]; apply (preserves_ret R R_refl).
Qed.

Lemma preserves_handle_chat (cfg : config) (llm_result : option (list item))
      (sender session_id : string) (msg : IncomingChat) :
  preserves R (handle_chat cfg llm_result sender session_id msg).
Proof.
  unfold handle_chat.
  apply (preserves_bind R R_trans); [apply R_send|]. intros _.
  destruct (String.eqb (_extract_text msg) ""); [apply (preserves_ret R R_refl)|].
  destruct llm_result as [items|]; [|apply R_send].
  apply (preserves_bind R R_trans); [apply preserves_get_session_data|].
  intros [session_data|]; [|apply (preserves_ret R R_refl)].
  apply (preserves_bind R R_trans); [apply R_storage_set|]. intros _.
  apply (preserves_bind R R_trans); [apply R_stock|]. intros stock_results.
  match goal with
  | |- preserves R (match ?l with _ => _ end) => destruct l
  end; [|apply R_send].
  destruct (skyfire_service_id cfg) as [[|c s]|]; try apply R_send.
  apply (preserves_bind R R_trans); [apply R_prices|]. intros prices.
  apply R_send.
Qed.

End HandleChat.

Lemma keeps_table_refl (w : world) : keeps_table w w.
Proof. reflexivity. Qed.

Lemma keeps_table_trans (w1 w2 w3 : world) :
  keeps_table w1 w2 -> keeps_table w2 w3 -> keeps_table w1 w3.
Proof. unfold keeps_table. intros H1 H2. rewrite H2. exact H1. Qed.

(** The chat handler adds no inventory call to the trace. *)
Lemma handle_chat_sends_only (cfg : config) (llm_result : option (list item))
      (sender session_id : string) (msg : IncomingChat) :
  preserves (extends (fun e => negb (is_inventory_event e)))
            (handle_chat cfg llm_result sender session_id msg).
Proof.
  apply preserves_handle_chat.
  - apply extends_refl.
  - apply extends_trans.
  - intros destination m. apply extends_emit. reflexivity.
  - intros k v w. apply extends_silent. reflexivity.
  - intros items. apply extends_on_inventory.
  - intros items. apply extends_on_inventory.
Qed.

(** The chat handler leaves the inventory table as it finds it. *)
Lemma handle_chat_keeps_table (cfg : config) (llm_result : option (list item))
      (sender session_id : string) (msg : IncomingChat) :
  preserves keeps_table (handle_chat cfg llm_result sender session_id msg).
Proof.
  apply preserves_handle_chat.
  - apply keeps_table_refl.
  - apply keeps_table_trans.
  - intros destination m w. reflexivity.
  - intros k v w. reflexivity.
  - intros items w. reflexivity.
  - intros items w. reflexivity.
Qed.

(* ===================================================================== *)
(** * The payment handler                                                 *)
(* ===================================================================== *)

Section OnCommit.

Variables (sender session : string) (msg : CommitPayment).

(** A commit whose marker is present is ignored. *)
Lemma on_commit_duplicate (verify_and_charge : bool) (w : world) :
  is_Some (storage w !! commit_key sender session msg) ->
  on_commit verify_and_charge sender session msg w = (tt, w).
Proof.
  intros H. unfold on_commit, bind, storage_has. fold (commit_key sender session msg).
  rewrite (bool_decide_eq_true_2 _ H). reflexivity.
Qed.

(** A commit that is not verified is rejected and changes nothing else. *)
Lemma on_commit_rejects (verify_and_charge : bool) (w : world) :
  storage w !! commit_key sender session msg = None ->
  (if String.eqb (payment_method (funds msg)) "skyfire"
   then verify_and_charge else false) = false ->
  on_commit verify_and_charge sender session msg w
  = (tt, mkWorld (inventory w) (memory w) (storage w)
           (trace w ++ [EvSend sender
                          (RejectPayment "Payment verification failed")])%list).
Proof.
  intros H Hv. unfold on_commit, bind, storage_has. fold (commit_key sender session msg).
  rewrite H, Hv. reflexivity.
Qed.

(** A verified first commit: marker, [CompletePayment], "paid" flag,
    then the session update and the order. *)
Lemma on_commit_settles (verify_and_charge : bool) (w : world) :
  storage w !! commit_key sender session msg = None ->
  (if String.eqb (payment_method (funds msg)) "skyfire"
   then verify_and_charge else false) = true ->
  on_commit verify_and_charge sender session msg w
  = process_order sender session msg
      (snd (mark_payment_confirmed sender session (after_complete_payment sender session msg w))).
Proof.
  intros H Hv. unfold on_commit, bind, storage_has. fold (commit_key sender session msg).
  rewrite H, Hv. simpl.
  unfold after_complete_payment.
  destruct (mark_payment_confirmed sender session _) as [[] w2]. reflexivity.
Qed.

Lemma mark_payment_confirmed_trace (w : world) :
  trace (snd (mark_payment_confirmed sender session w)) = trace w.
Proof.
  apply (preserves_mark_payment_confirmed (fun w w' => trace w' = trace w)).
  - intros w0. reflexivity.
  - intros w1 w2 w3 H1 H2. rewrite H2. exact H1.
  - intros k v w0. reflexivity.
Qed.

Lemma mark_payment_confirmed_keys (w : world) :
  keeps_keys w (snd (mark_payment_confirmed sender session w)).
Proof.
  apply (preserves_mark_payment_confirmed keeps_keys).
  - apply keeps_keys_refl.
  - apply keeps_keys_trans.
  - apply keeps_keys_storage_set.
Qed.

(** After a verified first commit the marker is in the storage. *)
Lemma on_commit_sets_marker (verify_and_charge : bool) (w : world) :
  storage w !! commit_key sender session msg = None ->
  (if String.eqb (payment_method (funds msg)) "skyfire"
   then verify_and_charge else false) = true ->
  is_Some (storage (snd (on_commit verify_and_charge sender session msg w))
           !! commit_key sender session msg).
Proof.
  intros H Hv. rewrite (on_commit_settles _ _ H Hv).
  apply process_order_keeps_keys, mark_payment_confirmed_keys.
  unfold after_complete_payment. simpl.
  destruct (decide (_k "paid" sender session = commit_key sender session msg)) as [E|NE].
  - rewrite E, lookup_insert_eq. eauto.
  - rewrite lookup_insert_ne, lookup_insert_eq; eauto.
Qed.

(** After a verified first commit the trace has grown by the
    [CompletePayment] and then by events that all satisfy [P], provided
    [P] allows subtractions and chat messages. *)
Lemma on_commit_settles_trace (P : event -> bool) (verify_and_charge : bool)
      (w : world) :
  (forall name qty ok, P (EvSubtract name qty ok) = true) ->
  (forall destination text, P (EvSend destination (ChatMessage text)) = true) ->
  storage w !! commit_key sender session msg = None ->
  (if String.eqb (payment_method (funds msg)) "skyfire"
   then verify_and_charge else false) = true ->
  exists rest,
    trace (snd (on_commit verify_and_charge sender session msg w))
    = (trace w ++ EvSend sender (CompletePayment (transaction_id msg)) :: rest)%list
    /\ forallb P rest = true.
Proof.
  intros Hsub Hchat H Hv. rewrite (on_commit_settles _ _ H Hv).
  destruct (process_order_extends P sender session msg Hsub Hchat
              (snd (mark_payment_confirmed sender session
                      (after_complete_payment sender session msg w))))
    as (rest & Ht & Fr).
  exists rest. split; [|exact Fr].
  rewrite Ht, mark_payment_confirmed_trace. unfold after_complete_payment.
  simpl. rewrite <- app_assoc. reflexivity.
Qed.

End OnCommit.

(** The two deliveries of scenario A: one subtraction, one
    [CompletePayment], one completion message. *)
Example settlement_delivered_twice :
  trace (snd (on_commit true "alice" "s1"
                (mkCommit "tx1" (mkFunds "USDC" "0.001" "skyfire")
                   (Decoded [mkItem "tshirt" 2]))
                (snd (on_commit true "alice" "s1"
                        (mkCommit "tx1" (mkFunds "USDC" "0.001" "skyfire")
                           (Decoded [mkItem "tshirt" 2]))
                        fresh_world))))
  = [ EvSend "alice" (CompletePayment "tx1");
      EvSubtract "tshirt" 2 true;
      EvSend "alice"
        (ChatMessage
           "✅ Order completed successfully! Your purchase of 2x tshirt has been processed. Thank you for your order!") ].
Proof. vm_compute. reflexivity. Qed.

(* ===================================================================== *)
(** * When the inventory is decremented                                   *)
(* ===================================================================== *)

(** C2, as stated, fails.  The chat handler checks the stock of the order
    and asks for payment without reserving anything: the ten "tshirt" are
    still there while the payment is awaited.  The subtraction is made by
    the payment handler, after the commit has been verified and the
    [CompletePayment] sent. *)
Lemma reservation_follows_settlement :
  trace (snd (handle_chat (mkConfig (Some "service") "agent1" "0.001")
                (Some [mkItem "tshirt" 2]) "alice" "s1"
                (mkChat "m1" [TextContent "two tshirts please"]) fresh_world))
  = [ EvSend "alice" (ChatAcknowledgement "m1");
      EvSend "alice"
        (RequestPayment [mkFunds "USDC" "0.001" "skyfire"] "agent1"
           [(mkItem "tshirt" 2, 19.99%Q)] 39.98%Q) ]
  /\ on_hand "tshirt"
       (table_of (snd (handle_chat (mkConfig (Some "service") "agent1" "0.001")
                         (Some [mkItem "tshirt" 2]) "alice" "s1"
                         (mkChat "m1" [TextContent "two tshirts please"])
                         fresh_world))) = 10
  /\ trace (snd (on_commit true "alice" "s1"
                   (mkCommit "tx1" (mkFunds "USDC" "0.001" "skyfire") NoItems)
                   (snd (handle_chat
                           (mkConfig (Some "service") "agent1" "0.001")
                           (Some [mkItem "tshirt" 2]) "alice" "s1"
                           (mkChat "m1" [TextContent "two tshirts please"])
                           fresh_world))))
     = [ EvSend "alice" (ChatAcknowledgement "m1");
         EvSend "alice"
           (RequestPayment [mkFunds "USDC" "0.001" "skyfire"] "agent1"
              [(mkItem "tshirt" 2, 19.99%Q)] 39.98%Q);
         EvSend "alice" (CompletePayment "tx1");
         EvSubtract "tshirt" 2 true;
         EvSend "alice"
           (ChatMessage
              "✅ Order completed successfully! Your purchase of 2x tshirt has been processed. Thank you for your order!") ]
  /\ on_hand "tshirt"
       (table_of (snd (on_commit true "alice" "s1"
                         (mkCommit "tx1" (mkFunds "USDC" "0.001" "skyfire")
                            NoItems)
                         (snd (handle_chat
                                 (mkConfig (Some "service") "agent1" "0.001")
                                 (Some [mkItem "tshirt" 2]) "alice" "s1"
                                 (mkChat "m1" [TextContent "two tshirts please"])
                                 fresh_world))))) = 8.
Proof. vm_compute. repeat split; reflexivity. Qed.

(* ===================================================================== *)
(** * Further properties of the store                                     *)
(* ===================================================================== *)

Section StoreMore.

Lemma update_quantity_twice (q1 q2 : Z) (name : string) (t : table) :
  update_quantity q2 name (update_quantity q1 name t) = update_quantity q2 name t.
Proof.
  unfold update_quantity. rewrite map_map. apply map_ext. intros r.
  destruct (String.eqb (item_name r) name) eqn:E; simpl; rewrite E; reflexivity.
Qed.

Lemma update_quantity_absent (q : Z) (name : string) (t : table) :
  name ∉ map item_name t -> update_quantity q name t = t.
Proof.
  induction t as [|r t IH]; simpl; intros H; [reflexivity|].
  apply not_elem_of_cons in H. destruct H as [Hne Hnin].
  destruct (String.eqb_spec (item_name r) name) as [E|_]; [congruence|].
  f_equal. apply IH. exact Hnin.
Qed.

Lemma update_quantity_same (name : string) (t : table) (r : row) :
  unique_names t -> select_row name t = Some r ->
  update_quantity (quantity r) name t = t.
Proof.
  unfold unique_names. induction t as [|r0 t IH]; simpl; [discriminate|].
  intros Hnd Hsel. apply NoDup_cons in Hnd. destruct Hnd as [Hnotin Hnd'].
  destruct (String.eqb_spec (item_name r0) name) as [E|NE].
  - injection Hsel as <-. destruct r0 as [n q p]. simpl in *. subst n.
    f_equal. apply update_quantity_absent. exact Hnotin.
  - f_equal. apply IH; assumption.
Qed.

Lemma select_row_known (name : string) (t : table) :
  known t name = true <-> name ∈ map item_name t.
Proof.
  unfold known. induction t as [|r t IH]; simpl.
  - split; [discriminate|]. intros H. apply elem_of_nil in H. destruct H.
  - rewrite elem_of_cons.
    destruct (String.eqb_spec (item_name r) name) as [E|NE].
    + split; auto.
    + rewrite IH. split; [auto|intros [H|H]; [congruence|exact H]].
Qed.

(** A successful subtraction followed by the restock of the same
    quantity. *)
Lemma subtract_then_restock (name : string) (qty : Z) (d : database) (r : row) :
  select_row name (get_connection d) = Some r ->
  qty <= quantity r ->
  Database.subtract_inventory name qty d
  = (true, Some (update_quantity (quantity r - qty) name (get_connection d)))
  /\ Database.restock_item name qty
       (Some (update_quantity (quantity r - qty) name (get_connection d)))
     = (true, Some (update_quantity (quantity r) name (get_connection d))).
Proof.
  intros Hr Hq. split.
  - unfold Database.subtract_inventory. rewrite Hr.
    destruct (Z.ltb_spec (quantity r) qty); [lia|reflexivity].
  - unfold Database.restock_item. simpl get_connection.
    rewrite select_row_update, String.eqb_refl, Hr. simpl.
    rewrite update_quantity_twice. repeat f_equal. lia.
Qed.

(** The result dict of a batch query: the last assignment to a key wins,
    and every assignment to [k] stores [f k]. *)
Lemma batch_lookup {V} (f : string -> V) (items : list item)
      (acc : gmap string V) (k : string) :
  fold_left (fun results it => <[it_name it := f (it_name it)]> results)
            items acc !! k
  = if bool_decide (k ∈ map it_name items) then Some (f k) else acc !! k.
Proof.
  revert acc. induction items as [|it items IH]; intros acc.
  - cbn [fold_left map]. case_bool_decide as H; [|reflexivity].
    apply elem_of_nil in H. destruct H.
  - cbn [fold_left map]. rewrite IH.
    repeat case_bool_decide; try reflexivity.
    + exfalso. rewrite elem_of_cons in *. tauto.
    + rewrite elem_of_cons in *. destruct H0 as [->|H0]; [|tauto].
      apply lookup_insert_eq.
    + rewrite elem_of_cons in *. apply lookup_insert_ne. intros E. auto.
Qed.

End StoreMore.

(** X1. [restock_item] returns false, leaving the table as it is, exactly
    when the item is unknown.  For a known item there is no check of the
    quantity, not even of its sign: when the new quantity is a 64-bit
    integer the call returns true and adds exactly the given quantity to
    that item, every other item, all names and all prices being as before;
    when it is not, the call raises instead of returning. *)
Theorem restock_item_outcome (name : string) (qty : Z) (d : database) :
  match quantity_on_hand name (get_connection d) with
  | None =>
      restock_item_raises name qty d = false
      /\ Database.restock_item name qty d = (false, Some (get_connection d))
  | Some current =>
      if int64 (current + qty)
      then restock_item_raises name qty d = false
           /\ exists t',
               Database.restock_item name qty d = (true, Some t')
               /\ (forall other,
                      quantity_on_hand other t'
                      = if String.eqb other name then Some (current + qty)
                        else quantity_on_hand other (get_connection d))
               /\ map item_name t' = map item_name (get_connection d)
               /\ map price t' = map price (get_connection d)
      else restock_item_raises name qty d = true
  end.
Proof.
  unfold quantity_on_hand, restock_item_raises, Database.restock_item.
  destruct (select_row name (get_connection d)) as [r|] eqn:Hr; simpl;
    [|split; reflexivity].
  destruct (int64 (quantity r + qty)); [|reflexivity].
  split; [reflexivity|].
  eexists. split; [reflexivity|]. split; [|split].
  - intros other. pose proof (quantity_on_hand_update other name
                               (quantity r + qty) (get_connection d)) as H.
    unfold quantity_on_hand in H. rewrite H, Hr. reflexivity.
  - apply update_quantity_names.
  - apply update_quantity_prices.
Qed.

(** X2. Round trip: after a successful reservation, the restock of the
    same quantity of the same item succeeds and gives every item the
    quantity it had before the reservation; when no two rows share a name
    the table is exactly the one before. *)
Theorem reserve_then_restock_restores (name : string) (qty : Z) (d : database) :
  fst (Database.subtract_inventory name qty d) = true ->
  fst (Database.restock_item name qty
         (snd (Database.subtract_inventory name qty d))) = true
  /\ (forall other,
         quantity_on_hand other
           (get_connection
              (snd (Database.restock_item name qty
                      (snd (Database.subtract_inventory name qty d)))))
         = quantity_on_hand other (get_connection d))
  /\ (unique_names (get_connection d) ->
      snd (Database.restock_item name qty
             (snd (Database.subtract_inventory name qty d)))
      = Some (get_connection d)).
Proof.
  intros Hok.
  destruct (subtract_inventory_cases name qty d) as [(r & Hr & Hq & E)|[E _]];
    [|rewrite E in Hok; discriminate].
  destruct (subtract_then_restock name qty d r Hr Hq) as [E1 E2].
  rewrite E1. simpl snd. rewrite E2. simpl.
  split; [reflexivity|]. split.
  - intros other. rewrite quantity_on_hand_update.
    destruct (String.eqb_spec other name) as [->|_]; [|reflexivity].
    unfold quantity_on_hand. rewrite Hr. reflexivity.
  - intros Hu. f_equal. apply update_quantity_same; assumption.
Qed.

Lemma reserve_then_restock_restores_witness :
  snd (Database.restock_item "hat" 15
         (snd (Database.subtract_inventory "hat" 15 None)))
  = Some sample_items.
Proof.
  apply (proj2 (proj2 (reserve_then_restock_restores "hat" 15 None eq_refl))).
  unfold unique_names. simpl.
  repeat (apply NoDup_cons; split; [rewrite ?elem_of_cons, elem_of_nil;
                                    intuition discriminate|]).
  apply NoDup_nil_2.
Defined.

(** X3. For a name that is stored exactly, [check_stock] reports the
    quantity of that row and leaves the table alone, and a reservation of
    no more than the reported quantity, made right after, succeeds. *)
Theorem exact_name_check_then_reserve (name : string) (qty : Z) (d : database)
        (r : row) :
  select_row name (get_connection d) = Some r ->
  fst (Database.check_stock name d) = quantity r
  /\ snd (Database.check_stock name d) = Some (get_connection d)
  /\ (qty <= fst (Database.check_stock name d) ->
      Database.subtract_inventory name qty (snd (Database.check_stock name d))
      = (true, Some (update_quantity (quantity r - qty) name (get_connection d)))).
Proof.
  intros Hr. unfold Database.check_stock, lookup_quantity. rewrite Hr. simpl.
  split; [reflexivity|]. split; [reflexivity|]. intros Hq.
  apply (subtract_then_restock name qty (Some (get_connection d)) r Hr Hq).
Qed.

Lemma exact_name_check_then_reserve_witness :
  fst (Database.check_stock "jacket" None) = 3
  /\ fst (Database.subtract_inventory "jacket" 3
            (snd (Database.check_stock "jacket" None))) = true.
Proof.
  destruct (exact_name_check_then_reserve "jacket" 3 None
              (mkRow "jacket" 3 (Some 99.99%Q)) eq_refl) as (H1 & _ & H3).
  split; [exact H1|]. rewrite H3; [reflexivity|]. rewrite H1. simpl. lia.
Defined.

(** X4. [check_stock_multiple] never changes the table and answers each
    requested name with what [check_stock] answers for it, independently
    of the other items; names that were not requested are not in the
    result. *)
Theorem check_stock_multiple_agrees (items : list item) (d : database)
        (k : string) :
  fst (check_stock_multiple items d) !! k
  = (if bool_decide (k ∈ map it_name items)
     then Some (fst (Database.check_stock k d)) else None)
  /\ snd (check_stock_multiple items d) = Some (get_connection d).
Proof.
  unfold check_stock_multiple, Database.check_stock. simpl. split; [|reflexivity].
  rewrite (batch_lookup (fun n => lookup_quantity n (get_connection d))).
  rewrite lookup_empty. reflexivity.
Qed.

(** X5. [get_items_prices] never changes the table and answers each
    requested name with what [get_item_price] answers for it; the price of
    a name that is not stored exactly, or whose stored price is NULL, is
    0. *)
Theorem get_items_prices_agrees (items : list item) (d : database)
        (k : string) :
  fst (get_items_prices items d) !! k
  = (if bool_decide (k ∈ map it_name items)
     then Some (fst (get_item_price k d)) else None)
  /\ snd (get_items_prices items d) = Some (get_connection d)
  /\ fst (get_item_price k d)
     = match select_row k (get_connection d) with
       | Some r => match price r with Some p => p | None => 0%Q end
       | None => 0%Q
       end.
Proof.
  unfold get_items_prices, get_item_price. simpl.
  split; [|split; reflexivity].
  rewrite (batch_lookup
             (fun n => price_of_result (select_row n (get_connection d)))).
  rewrite lookup_empty. reflexivity.
Qed.

(* ===================================================================== *)
(** * Further properties of the name resolver                             *)
(* ===================================================================== *)

Section Resolver.

(** Every alias leads to a database name. *)
Lemma alias_is_database_name (k v : string) :
  name_mappings !! k = Some v -> str_in v db_item_names = true.
Proof.
  unfold name_mappings. intros H. apply elem_of_list_to_map_2 in H.
  repeat (apply elem_of_cons in H; destruct H as [H|H];
          [injection H as _ ->; reflexivity|]).
  apply elem_of_nil in H. destruct H.
Qed.

(** The three ways [normalize_item_name] ends. *)
Lemma normalize_cases (name : string) :
  str_in (normalize_item_name name) db_item_names = true
  \/ (normalize_item_name name = clean name
      /\ unresolvable (clean name) = true).
Proof.
  unfold normalize_item_name.
  destruct (String.eqb_spec name "") as [->|_]; [right; split; reflexivity|].
  destruct (name_mappings !! clean name) as [v|] eqn:Ha.
  { left. eapply alias_is_database_name, Ha. }
  destruct (str_in (clean name) db_item_names) eqn:Hd; [left; exact Hd|].
  destruct (endswith_char "s" (clean name)) eqn:He.
  2:{ right. split; [reflexivity|]. unfold unresolvable.
      rewrite Ha, Hd, He. reflexivity. }
  destruct (str_in (drop_last (clean name)) db_item_names) eqn:Hs;
    [left; exact Hs|].
  destruct (name_mappings !! drop_last (clean name)) as [v|] eqn:Hb.
  { left. eapply alias_is_database_name, Hb. }
  right. split; [reflexivity|]. unfold unresolvable.
  rewrite Ha, Hd, He, Hs, Hb. reflexivity.
Qed.

Lemma normalize_of_unresolvable (name : string) :
  unresolvable (clean name) = true ->
  normalize_item_name name = clean name
  /\ str_in (clean name) db_item_names = false.
Proof.
  unfold unresolvable, normalize_item_name.
  rewrite !andb_true_iff, orb_true_iff, andb_true_iff, !negb_true_iff,
    !bool_decide_eq_true.
  intros [[Ha Hd] Hs]. split; [|exact Hd].
  destruct (String.eqb_spec name "") as [->|_]; [reflexivity|].
  rewrite Ha, Hd. destruct Hs as [->|[-> ->]]; [reflexivity|].
  destruct (endswith_char "s" (clean name)); reflexivity.
Qed.

Lemma lower_ascii_not_upper (c : ascii) :
  let n := nat_of_ascii (lower_ascii c) in
  ((65 <=? n)%nat && (n <=? 90)%nat)%bool = false.
Proof.
  destruct c as [[] [] [] [] [] [] [] []]; reflexivity.
Qed.

Lemma all_chars_lower :
  forall s, all_chars (fun c => negb ((65 <=? nat_of_ascii c)%nat
                                      && (nat_of_ascii c <=? 90)%nat)) (lower s)
            = true.
Proof.
  induction s as [|c s IH]; [reflexivity|].
  cbn [lower all_chars]. rewrite IH, andb_true_r.
  pose proof (lower_ascii_not_upper c) as H. cbv zeta in H. rewrite H.
  reflexivity.
Qed.

Lemma all_chars_lstrip (P : ascii -> bool) (s : string) :
  all_chars P s = true -> all_chars P (lstrip s) = true.
Proof.
  induction s as [|c s IH]; [auto|]. intros H. cbn [lstrip].
  destruct (is_space c); [|exact H].
  apply IH. cbn [all_chars] in H. apply andb_true_iff in H. tauto.
Qed.

Lemma all_chars_rstrip (P : ascii -> bool) (s : string) :
  all_chars P s = true -> all_chars P (rstrip s) = true.
Proof.
  induction s as [|c s IH]; [auto|]. intros H. cbn [all_chars] in H.
  apply andb_true_iff in H. destruct H as [Hc Hs]. specialize (IH Hs).
  cbn [rstrip]. destruct (rstrip s) as [|c' r].
  - destruct (is_space c); [reflexivity|]. cbn [all_chars]. rewrite Hc.
    reflexivity.
  - cbn [all_chars] in *. rewrite Hc. exact IH.
Qed.

(** Removing a character keeps what held of all characters and adds that
    the removed one no longer occurs. *)
Lemma all_chars_remove_char (P Q : ascii -> bool) (c : ascii) (s : string) :
  (forall a, P a = true -> Ascii.eqb a c = false -> Q a = true) ->
  all_chars P s = true -> all_chars Q (remove_char c s) = true.
Proof.
  intros HPQ. induction s as [|a s IH]; [auto|]. intros H.
  cbn [all_chars] in H. apply andb_true_iff in H. destruct H as [Ha Hs].
  cbn [remove_char]. destruct (Ascii.eqb a c) eqn:E; [auto|].
  cbn [all_chars]. rewrite (HPQ a Ha E). auto.
Qed.

Lemma clean_canonical (name : string) :
  all_chars canonical_char (clean name) = true.
Proof.
  unfold clean, strip.
  eapply (all_chars_remove_char
            (fun a => negb ((65 <=? nat_of_ascii a)%nat
                            && (nat_of_ascii a <=? 90)%nat)
                      && negb (Ascii.eqb a "-"))%bool).
  { intros a Ha E. unfold canonical_char. cbv zeta. rewrite Ha, E. reflexivity. }
  eapply all_chars_remove_char;
    [|apply all_chars_rstrip, all_chars_lstrip, all_chars_lower].
  intros a Ha E. cbv beta. rewrite Ha, E. reflexivity.
Qed.

End Resolver.

(** X6. The resolver ends in one of two ways only: it returns one of the
    five database names, or the cleaned input, and the latter exactly when
    the cleaned input matches no alias and no database name, directly or
    after a trailing "s" is dropped. *)
Theorem normalize_database_name_or_cleaned (name : string) :
  (unresolvable (clean name) = false ->
   In (normalize_item_name name) ["tshirt"; "jeans"; "shoes"; "hat"; "jacket"])
  /\ (unresolvable (clean name) = true ->
      normalize_item_name name = clean name
      /\ ~ In (clean name) ["tshirt"; "jeans"; "shoes"; "hat"; "jacket"]).
Proof.
  assert (Hin : forall v, str_in v db_item_names = true <->
                          In v ["tshirt"; "jeans"; "shoes"; "hat"; "jacket"]).
  { intros v. unfold str_in, db_item_names. rewrite existsb_exists. split.
    - intros (x & Hx & E). apply String.eqb_eq in E. subst x. exact Hx.
    - intros H. exists v. split; [exact H|apply String.eqb_refl]. }
  split.
  - intros Hu. destruct (normalize_cases name) as [H|[_ H]].
    + apply Hin, H.
    + congruence.
  - intros Hu. destruct (normalize_of_unresolvable name Hu) as [H Hd].
    split; [exact H|]. rewrite <- Hin, Hd. discriminate.
Qed.

(** X7. Whatever the input, the resolved name holds no upper-case letter,
    no hyphen and no space. *)
Theorem normalize_is_canonical (name : string) :
  all_chars canonical_char (normalize_item_name name) = true.
Proof.
  destruct (normalize_cases name) as [H|[-> _]].
  - unfold str_in, db_item_names in H. apply existsb_exists in H.
    destruct H as (x & Hx & E). apply String.eqb_eq in E. rewrite E.
    simpl in Hx.
    repeat (destruct Hx as [<-|Hx]; [reflexivity|]). destruct Hx.
  - apply clean_canonical.
Qed.

(* ===================================================================== *)
(** * Further properties of the workflow graph                            *)
(* ===================================================================== *)

Section GraphMore.

Lemma reads_only_refl (w : world) : reads_only w w.
Proof. repeat split. Qed.

Lemma reads_only_trans (w1 w2 w3 : world) :
  reads_only w1 w2 -> reads_only w2 w3 -> reads_only w1 w3.
Proof.
  intros (A1 & B1 & C1 & D1) (A2 & B2 & C2 & D2).
  repeat split; congruence.
Qed.

Lemma stock_check_loop_spec (items : list item) (results : odict stock_check)
      (all_available : bool) (w : world) :
  fst (stock_check_loop items results all_available w)
  = (check_results (table_of w) items results,
     (all_available && forallb (in_stock (table_of w)) items)%bool)
  /\ reads_only w (snd (stock_check_loop items results all_available w)).
Proof.
  revert results all_available w.
  induction items as [|it items IH]; intros results all_available w.
  - simpl. rewrite andb_true_r. split; [reflexivity|apply reads_only_refl].
  - cbn [stock_check_loop]. unfold bind. rewrite check_stock_world.
    match goal with
    | |- context [stock_check_loop items ?r ?a ?w1] =>
        destruct (IH r a w1) as [E R]
    end.
    split.
    + rewrite E. unfold table_of, check_results, checked, in_stock. simpl.
      destruct (lookup_quantity (it_name it) (get_connection (inventory w))
                >=? it_quantity it), all_available; reflexivity.
    + eapply reads_only_trans; [|exact R]. repeat split.
Qed.

(** What [stock_management_node] returns and does, for every state. *)
Lemma stock_management_node_spec (state : AgentState) (w : world) :
  stock_availability (fst (stock_management_node state w))
  = Some (order_available (table_of w) (get_parsed_items state))
  /\ status (fst (stock_management_node state w))
     = Some (if order_available (table_of w) (get_parsed_items state)
             then "checking_stock" else "rejected")
  /\ parsed_items (fst (stock_management_node state w)) = parsed_items state
  /\ reads_only w (snd (stock_management_node state w)).
Proof.
  unfold stock_management_node.
  destruct (get_parsed_items state) as [|it items] eqn:Hi.
  - simpl. repeat split.
  - unfold bind.
    destruct (stock_check_loop_spec (it :: items) [] true w) as [E R].
    destruct (stock_check_loop (it :: items) [] true w) as [[results all] w1].
    cbn [fst snd] in E, R. injection E as Hres Hall. unfold order_available.
    cbn [forallb]. rewrite <- Hall.
    destruct all; simpl; repeat split; apply R.
Qed.

End GraphMore.

(** X8. For a non-empty order, [stock_management_node] sets
    [stock_availability] to whether every item passes the three-step stock
    lookup for its requested quantity, sets [status] to "checking_stock"
    if so and to "rejected" otherwise, records one result per item name,
    and only reads the store: no call is added to the trace and the table,
    the checkpoints and the storage are as before. *)
Theorem stock_management_node_checks_every_item (state : AgentState)
        (w : world) (it : item) (rest : list item) :
  get_parsed_items state = it :: rest ->
  stock_availability (fst (stock_management_node state w))
  = Some (forallb (in_stock (table_of w)) (it :: rest))
  /\ status (fst (stock_management_node state w))
     = Some (if forallb (in_stock (table_of w)) (it :: rest)
             then "checking_stock" else "rejected")
  /\ stock_check_results (fst (stock_management_node state w))
     = Some (check_results (table_of w) (it :: rest) [])
  /\ trace (snd (stock_management_node state w)) = trace w
  /\ table_of (snd (stock_management_node state w)) = table_of w
  /\ memory (snd (stock_management_node state w)) = memory w
  /\ storage (snd (stock_management_node state w)) = storage w.
Proof.
  intros Hi.
  destruct (stock_management_node_spec state w) as (H1 & H2 & _ & R).
  rewrite Hi in H1, H2. simpl order_available in H1, H2.
  split; [exact H1|]. split; [exact H2|].
  split; [|destruct R as (A & B & C & D); auto].
  unfold stock_management_node. rewrite Hi. unfold bind.
  destruct (stock_check_loop_spec (it :: rest) [] true w) as [E _].
  destruct (stock_check_loop (it :: rest) [] true w) as [[results all] w1].
  cbn [fst snd] in E. injection E as Hres Hall. subst results.
  destruct all; reflexivity.
Qed.

Lemma stock_management_node_checks_every_item_witness :
  stock_availability
    (fst (stock_management_node
            (mkState [] None (Some [mkItem "T-Shirts" 2; mkItem "jacket" 4])
               None None None None None None None None None)
            fresh_world))
  = Some false.
Proof.
  exact (proj1 (stock_management_node_checks_every_item
                  (mkState [] None
                     (Some [mkItem "T-Shirts" 2; mkItem "jacket" 4])
                     None None None None None None None None None)
                  fresh_world (mkItem "T-Shirts" 2) [mkItem "jacket" 4]
                  eq_refl)).
Defined.

(** The two ways a run from the entry point ends. *)
Lemma run_from_entry_outcome (state : AgentState) (w : world) :
  if order_available (table_of w) (get_parsed_items state)
  then visited (fst (run_from recursion_limit entry_point state w))
       = [stock_management; warehouse; cashier]
       /\ status (snd (fst (fst (run_from recursion_limit entry_point state w))))
          = Some "completed"
       /\ payment_status
            (snd (fst (fst (run_from recursion_limit entry_point state w))))
          = Some "successful"
  else visited (fst (run_from recursion_limit entry_point state w))
       = [stock_management]
       /\ status (snd (fst (fst (run_from recursion_limit entry_point state w))))
          = Some "rejected"
       /\ trace (snd (run_from recursion_limit entry_point state w)) = trace w
       /\ table_of (snd (run_from recursion_limit entry_point state w))
          = table_of w.
Proof.
  unfold recursion_limit. rewrite run_from_entry_point.
  destruct (stock_management_node_spec state w) as (H1 & H2 & _ & R).
  destruct (stock_management_node state w) as [s1 w1]. simpl in H1, H2, R.
  rewrite H1.
  destruct (order_available (table_of w) (get_parsed_items state)).
  - destruct (warehouse_node s1 w1) as [s2 w2]. unfold visited. simpl.
    repeat split.
  - unfold visited. simpl. destruct R as (A & B & C & D). auto.
Qed.

(** X9. A run of the graph from its entry point ends in one of two ways.
    When the order is non-empty and every item passes the stock check, it
    visits the stock check, the warehouse and the cashier and ends with
    status "completed" and payment status "successful".  Otherwise (empty
    order or an item short of stock) it visits the stock check only and
    ends with status "rejected", without any inventory call and with the
    inventory table unchanged. *)
Theorem graph_run_outcome (state : AgentState) (w : world) :
  if order_available (table_of w) (get_parsed_items state)
  then visited (fst (run_from recursion_limit entry_point state w))
       = [stock_management; warehouse; cashier]
       /\ status (snd (fst (fst (run_from recursion_limit entry_point state w))))
          = Some "completed"
       /\ payment_status
            (snd (fst (fst (run_from recursion_limit entry_point state w))))
          = Some "successful"
  else visited (fst (run_from recursion_limit entry_point state w))
       = [stock_management]
       /\ status (snd (fst (fst (run_from recursion_limit entry_point state w))))
          = Some "rejected"
       /\ trace (snd (run_from recursion_limit entry_point state w)) = trace w
       /\ table_of (snd (run_from recursion_limit entry_point state w))
          = table_of w.
Proof. exact (run_from_entry_outcome state w). Qed.

(* ===================================================================== *)
(** * Reservation and restock of a whole order                            *)
(* ===================================================================== *)

Section Orders.

Lemma restock_item_world (name : string) (qty : Z) (w : world) :
  Runtime.restock_item name qty w
  = (fst (Database.restock_item name qty (inventory w)),
     mkWorld (snd (Database.restock_item name qty (inventory w)))
             (memory w) (storage w)
             (trace w
              ++ [EvRestock name qty
                    (fst (Database.restock_item name qty (inventory w)))])%list).
Proof.
  unfold Runtime.restock_item, bind, on_inventory, emit, ret.
  destruct (Database.restock_item name qty (inventory w)). reflexivity.
Qed.

Lemma known_names (t t' : table) (name : string) :
  map item_name t' = map item_name t -> known t' name = known t name.
Proof.
  intros E. apply eq_true_iff_eq. rewrite !select_row_known, E. reflexivity.
Qed.

Lemma known_quantity_on_hand (t : table) (name : string) :
  known t name = true <-> is_Some (quantity_on_hand name t).
Proof.
  unfold known, quantity_on_hand. destruct (select_row name t); simpl.
  - split; eauto.
  - split; [discriminate|]. intros [x H]. discriminate.
Qed.

(** The loop of [warehouse_node] on an order all of whose reservations
    succeed. *)
Lemma warehouse_loop_succeeds (items : list item) (updated : gmap string Z)
      (w : world) :
  fst (run_ops (reserve_ops items) (inventory w)) = map (fun _ => true) items ->
  (exists updated', fst (warehouse_loop items updated w) = inr updated')
  /\ trace (snd (warehouse_loop items updated w))
     = (trace w ++ reserve_events items)%list
  /\ get_connection (inventory (snd (warehouse_loop items updated w)))
     = get_connection (snd (run_ops (reserve_ops items) (inventory w)))
  /\ memory (snd (warehouse_loop items updated w)) = memory w
  /\ storage (snd (warehouse_loop items updated w)) = storage w.
Proof.
  revert updated w. induction items as [|p items IH]; intros updated w Hall.
  - simpl. rewrite app_nil_r. eauto 6.
  - cbn [warehouse_loop]. unfold bind. rewrite subtract_inventory_world.
    unfold reserve_ops in Hall. cbn [map] in Hall. fold (reserve_ops items) in Hall.
    cbn [run_ops run_op] in Hall.
    unfold reserve_ops at 1. cbn [map]. fold (reserve_ops items).
    rewrite run_ops_cons. cbn [run_op].
    destruct (Database.subtract_inventory (it_name p) (it_quantity p)
                (inventory w)) as [ok d1] eqn:E1.
    destruct (run_ops (reserve_ops items) d1) as [oks d2] eqn:E2.
    cbn [fst snd] in Hall |- *. injection Hall as Hok Hoks. subst ok.
    assert (Hd1 : Some (get_connection d1) = d1).
    { pose proof (subtract_inventory_some (it_name p) (it_quantity p)
                    (inventory w)) as H. rewrite E1 in H. exact H. }
    rewrite check_stock_world. cbn [inventory memory storage trace].
    rewrite Hd1.
    match goal with
    | |- context [warehouse_loop items ?u ?w1] =>
        specialize (IH u w1)
    end.
    cbn [inventory trace memory storage] in IH. rewrite E2 in IH.
    destruct (IH Hoks) as (H1 & H2 & H3 & H4 & H5).
    rewrite E2. split; [exact H1|]. split; [|auto].
    rewrite H2. cbn [reserve_events map]. rewrite <- app_assoc. reflexivity.
Qed.

(** Distinct items that the store holds in sufficient quantity are all
    reserved. *)
Lemma reserve_ops_succeed (items : list item) (d : database) :
  NoDup (map it_name items) ->
  forallb (reservable (get_connection d)) items = true ->
  fst (run_ops (reserve_ops items) d) = map (fun _ => true) items.
Proof.
  revert d. induction items as [|p items IH]; intros d Hnd Hres; [reflexivity|].
  cbn [map] in Hnd. apply NoDup_cons in Hnd. destruct Hnd as [Hnotin Hnd].
  cbn [forallb] in Hres. apply andb_true_iff in Hres. destruct Hres as [Hp Hres].
  unfold reservable, quantity_on_hand in Hp.
  destruct (select_row (it_name p) (get_connection d)) as [r|] eqn:Hr;
    [|discriminate].
  simpl in Hp. apply Z.leb_le in Hp.
  destruct (subtract_then_restock (it_name p) (it_quantity p) d r Hr Hp)
    as [E1 _].
  unfold reserve_ops. cbn [map run_ops run_op]. fold (reserve_ops items).
  rewrite E1.
  specialize (IH (Some (update_quantity (quantity r - it_quantity p)
                          (it_name p) (get_connection d))) Hnd).
  destruct (run_ops (reserve_ops items) _) as [oks d2].
  cbn [fst] in IH |- *. f_equal. apply IH.
  rewrite forallb_forall in Hres |- *. intros x Hx.
  rewrite <- (Hres x Hx).
  unfold reservable. cbn [get_connection]. rewrite quantity_on_hand_update.
  destruct (String.eqb_spec (it_name x) (it_name p)) as [E|_]; [|reflexivity].
  exfalso. apply Hnotin. rewrite <- E. apply list_elem_of_In, in_map, Hx.
Qed.

(** What an order whose reservations all succeed takes from an item. *)
Lemma reserved_total_succeed (name : string) (items : list item) (d : database) :
  fst (run_ops (reserve_ops items) d) = map (fun _ => true) items ->
  reserved_total name (reserve_ops items) d = ordered_total name items.
Proof.
  revert d. induction items as [|p items IH]; intros d Hall; [reflexivity|].
  unfold reserve_ops in *. cbn [map] in *. fold (reserve_ops items) in *.
  rewrite reserved_total_cons. cbn [run_ops run_op] in Hall.
  cbn [reserved_total run_op ordered_total].
  destruct (Database.subtract_inventory (it_name p) (it_quantity p) d)
    as [ok d1].
  destruct (run_ops (reserve_ops items) d1) as [oks d2] eqn:E2.
  cbn [fst snd] in *. injection Hall as -> Hoks.
  rewrite (IH d1); [|rewrite E2; exact Hoks]. simpl. lia.
Qed.

(** Every item of an order whose reservations all succeed is known to the
    store afterwards. *)
Lemma reserved_items_known (items : list item) (d : database) :
  fst (run_ops (reserve_ops items) d) = map (fun _ => true) items ->
  map item_name (get_connection (snd (run_ops (reserve_ops items) d)))
  = map item_name (get_connection d)
  /\ forallb (fun it => known (get_connection d) (it_name it)) items = true.
Proof.
  revert d. induction items as [|p items IH]; intros d Hall; [auto|].
  unfold reserve_ops in *. cbn [map] in *. fold (reserve_ops items) in *.
  rewrite run_ops_cons. cbn [run_ops run_op] in Hall. cbn [run_op].
  destruct (subtract_inventory_cases (it_name p) (it_quantity p) d)
    as [(r & Hr & Hq & E)|[E _]]; rewrite E in *.
  - destruct (run_ops (reserve_ops items) _) as [oks d2] eqn:E2.
    cbn [fst snd] in *. injection Hall as Hoks.
    specialize (IH (Some (update_quantity (quantity r - it_quantity p)
                            (it_name p) (get_connection d)))).
    rewrite E2 in IH. destruct (IH Hoks) as [Hn Hk].
    cbn [get_connection snd] in Hn.
    rewrite update_quantity_names in Hn. split; [exact Hn|].
    cbn [forallb]. unfold known at 1. rewrite Hr. simpl.
    rewrite forallb_forall in Hk |- *. intros x Hx. rewrite <- (Hk x Hx).
    symmetry. apply known_names. cbn [get_connection].
    apply update_quantity_names.
  - destruct (run_ops (reserve_ops items) _) as [oks d2].
    cbn [fst] in Hall. discriminate.
Qed.

(** The loop of [restocker_node]. *)
Lemma restock_loop_spec (items : list item) (restocked : list string)
      (w : world) :
  fst (restock_loop items restocked w)
  = (restocked ++ List.filter (known (table_of w)) (map it_name items))%list
  /\ trace (snd (restock_loop items restocked w))
     = (trace w ++ restock_events (table_of w) items)%list
  /\ memory (snd (restock_loop items restocked w)) = memory w
  /\ storage (snd (restock_loop items restocked w)) = storage w
  /\ map item_name (table_of (snd (restock_loop items restocked w)))
     = map item_name (table_of w)
  /\ (forall name,
         on_hand name (table_of (snd (restock_loop items restocked w)))
         = on_hand name (table_of w)
           + restockable_total (table_of w) name items).
Proof.
  revert restocked w. induction items as [|p items IH]; intros restocked w.
  - simpl. rewrite !app_nil_r. repeat split.
    intros name. unfold restockable_total. simpl. destruct (known _ _); lia.
  - cbn [restock_loop]. unfold bind. rewrite restock_item_world.
    match goal with
    | |- context [restock_loop items ?a ?w1] =>
        destruct (IH a w1) as (H1 & H2 & H3 & H4 & H5 & H6)
    end.
    unfold table_of in *. cbn [inventory memory storage trace] in *.
    assert (Hnames :
              map item_name
                (get_connection
                   (snd (Database.restock_item (it_name p) (it_quantity p)
                           (inventory w))))
              = map item_name (get_connection (inventory w))).
    { destruct (restock_item_cases (it_name p) (it_quantity p) (inventory w))
        as [(r & Hr & ->)|[-> _]]; [apply update_quantity_names|reflexivity]. }
    assert (Hok : fst (Database.restock_item (it_name p) (it_quantity p)
                         (inventory w))
                  = known (get_connection (inventory w)) (it_name p)).
    { unfold known.
      destruct (restock_item_cases (it_name p) (it_quantity p) (inventory w))
        as [(r & Hr & ->)|[-> ->]]; [rewrite Hr|]; reflexivity. }
    assert (Hknown : forall n,
               known (get_connection
                        (snd (Database.restock_item (it_name p) (it_quantity p)
                                (inventory w)))) n
               = known (get_connection (inventory w)) n).
    { intros n. apply known_names, Hnames. }
    split; [|split; [|split; [exact H3|split; [exact H4|split]]]].
    + rewrite H1, Hok. cbn [map List.filter].
      rewrite (List.filter_ext _ _ Hknown).
      destruct (known (get_connection (inventory w)) (it_name p)).
      * rewrite <- app_assoc. reflexivity.
      * reflexivity.
    + rewrite H2, Hok, <- app_assoc. cbn [restock_events map]. do 3 f_equal.
      apply map_ext. intros x. rewrite Hknown. reflexivity.
    + rewrite H5. exact Hnames.
    + intros name. rewrite H6. unfold restockable_total.
      rewrite Hknown. cbn [ordered_total].
      destruct (restock_item_cases (it_name p) (it_quantity p) (inventory w))
        as [(r & Hr & E)|[E Hr]]; rewrite E; cbn [snd get_connection].
      * rewrite (on_hand_update _ _ _ _ r Hr), (String.eqb_sym (it_name p) name).
        destruct (String.eqb_spec name (it_name p)) as [->|_].
        -- unfold known. rewrite Hr. unfold on_hand, quantity_on_hand.
           rewrite Hr. simpl. lia.
        -- destruct (known _ name); lia.
      * destruct (String.eqb_spec (it_name p) name) as [<-|_].
        -- unfold known. rewrite Hr. lia.
        -- destruct (known _ name); lia.
Qed.

Lemma ordered_total_unknown (t : table) (name : string) (items : list item) :
  forallb (fun it => known t (it_name it)) items = true ->
  known t name = false -> ordered_total name items = 0.
Proof.
  induction items as [|p items IH]; [reflexivity|]. cbn [forallb ordered_total].
  rewrite andb_true_iff. intros [Hp Hrest] Hn.
  destruct (String.eqb_spec (it_name p) name) as [E|_]; [congruence|].
  rewrite IH; auto.
Qed.

End Orders.

Section OrderNodes.

Lemma in_stock_reservable (t : table) (it : item) :
  known t (it_name it) = true -> in_stock t it = reservable t it.
Proof.
  unfold known, in_stock, reservable, quantity_on_hand, lookup_quantity.
  destruct (select_row (it_name it) t) as [r|]; [|discriminate]. intros _.
  simpl. apply eq_true_iff_eq. rewrite Z.geb_le, Z.leb_le. reflexivity.
Qed.

(** [warehouse_node] on an order all of whose reservations succeed. *)
Lemma warehouse_node_success (state : AgentState) (w : world) (it : item)
      (rest : list item) :
  get_parsed_items state = it :: rest ->
  fst (run_ops (reserve_ops (it :: rest)) (inventory w))
  = map (fun _ => true) (it :: rest) ->
  inventory_subtracted (fst (warehouse_node state w)) = Some true
  /\ status (fst (warehouse_node state w)) = Some "subtracting_inventory"
  /\ error_message (fst (warehouse_node state w)) = error_message state
  /\ parsed_items (fst (warehouse_node state w)) = parsed_items state
  /\ trace (snd (warehouse_node state w))
     = (trace w ++ reserve_events (it :: rest))%list
  /\ table_of (snd (warehouse_node state w))
     = get_connection (snd (run_ops (reserve_ops (it :: rest)) (inventory w)))
  /\ (forall name,
         on_hand name (table_of (snd (warehouse_node state w)))
         = on_hand name (table_of w) - ordered_total name (it :: rest)).
Proof.
  intros Hi Hall.
  destruct (warehouse_loop_succeeds (it :: rest) ∅ w Hall)
    as ((updated & H1) & H2 & H3 & _ & _).
  unfold warehouse_node. rewrite Hi. unfold bind.
  destruct (warehouse_loop (it :: rest) ∅ w) as [r w1].
  cbn [fst snd] in *. subst r. cbn [fst snd ret].
  repeat (split; [reflexivity|]). split; [exact H2|].
  unfold table_of. split; [exact H3|]. intros name.
  rewrite H3, run_ops_balance, restocked_total_reserve_ops,
    (reserved_total_succeed name _ _ Hall). lia.
Qed.

(** [restocker_node] on a non-empty order. *)
Lemma restocker_node_spec (state : AgentState) (w : world) (it : item)
      (rest : list item) :
  get_parsed_items state = it :: rest ->
  restocked_items (fst (restocker_node state w))
  = Some (List.filter (known (table_of w)) (map it_name (it :: rest)))
  /\ status (fst (restocker_node state w)) = Some "completed"
  /\ trace (snd (restocker_node state w))
     = (trace w ++ restock_events (table_of w) (it :: rest))%list
  /\ map item_name (table_of (snd (restocker_node state w)))
     = map item_name (table_of w)
  /\ (forall name,
         on_hand name (table_of (snd (restocker_node state w)))
         = on_hand name (table_of w)
           + restockable_total (table_of w) name (it :: rest)).
Proof.
  intros Hi.
  destruct (restock_loop_spec (it :: rest) [] w) as (H1 & H2 & _ & _ & H5 & H6).
  unfold restocker_node. rewrite Hi. unfold bind.
  destruct (restock_loop (it :: rest) [] w) as [restocked w1].
  cbn [fst snd app] in *. subst restocked.
  destruct (List.filter (known (table_of w)) (map it_name (it :: rest)));
    cbn [fst snd ret]; repeat split; auto.
Qed.

(** While no restock raises, a quantity on hand that is a 64-bit integer
    stays one. *)
Lemma restock_loop_int64 (items : list item) (restocked : list string)
      (w : world) (name : string) :
  restocks_return items (inventory w) = true ->
  int64 (on_hand name (table_of w)) = true ->
  int64 (on_hand name (table_of (snd (restock_loop items restocked w)))) = true.
Proof.
  revert restocked w. induction items as [|p items IH]; intros restocked w.
  - intros _ H. exact H.
  - cbn [restock_loop restocks_return]. rewrite andb_true_iff, negb_true_iff.
    intros [Hp Hrest] Hn. unfold bind. rewrite restock_item_world.
    apply IH; [exact Hrest|].
    unfold table_of in *. cbn [inventory].
    unfold restock_item_raises in Hp.
    destruct (restock_item_cases (it_name p) (it_quantity p) (inventory w))
      as [(r & Hr & ->)|[-> _]]; cbn [snd get_connection]; [|exact Hn].
    rewrite (on_hand_update _ _ _ _ r Hr). rewrite Hr in Hp.
    destruct (String.eqb name (it_name p)); [|exact Hn].
    apply negb_false_iff. exact Hp.
Qed.

End OrderNodes.

(** X10. For an order of distinct items, each stored under exactly the
    name the order uses, a passed stock check guarantees the warehouse
    step: every reservation succeeds, [inventory_subtracted] is set, no
    error message is written, the calls made are one successful
    subtraction per item, and each item's quantity on hand goes down by
    exactly the quantity ordered. *)
Theorem checked_order_is_reserved (state : AgentState) (w : world) (it : item)
        (rest : list item) :
  get_parsed_items state = it :: rest ->
  NoDup (map it_name (it :: rest)) ->
  forallb (fun i => known (table_of w) (it_name i)) (it :: rest) = true ->
  forallb (in_stock (table_of w)) (it :: rest) = true ->
  inventory_subtracted (fst (warehouse_node state w)) = Some true
  /\ status (fst (warehouse_node state w)) = Some "subtracting_inventory"
  /\ error_message (fst (warehouse_node state w)) = error_message state
  /\ trace (snd (warehouse_node state w))
     = (trace w ++ reserve_events (it :: rest))%list
  /\ (forall name,
         on_hand name (table_of (snd (warehouse_node state w)))
         = on_hand name (table_of w) - ordered_total name (it :: rest)).
Proof.
  intros Hi Hnd Hknown Hstock.
  assert (Hall : fst (run_ops (reserve_ops (it :: rest)) (inventory w))
                 = map (fun _ => true) (it :: rest)).
  { apply reserve_ops_succeed; [exact Hnd|]. fold (table_of w).
    rewrite forallb_forall in Hknown, Hstock |- *. intros x Hx.
    rewrite <- (in_stock_reservable _ _ (Hknown x Hx)). apply Hstock, Hx. }
  destruct (warehouse_node_success state w it rest Hi Hall)
    as (H1 & H2 & H3 & _ & H5 & _ & H7).
  auto.
Qed.

Lemma checked_order_is_reserved_witness :
  trace (snd (warehouse_node
                (mkState [] None (Some [mkItem "tshirt" 2; mkItem "hat" 15])
                   None (Some true) None None None None None None None)
                fresh_world))
  = [EvSubtract "tshirt" 2 true; EvSubtract "hat" 15 true]
  /\ on_hand "hat"
       (table_of (snd (warehouse_node
                         (mkState [] None
                            (Some [mkItem "tshirt" 2; mkItem "hat" 15])
                            None (Some true) None None None None None None None)
                         fresh_world))) = 0.
Proof.
  assert (Hnd : NoDup (map it_name [mkItem "tshirt" 2; mkItem "hat" 15])).
  { simpl. repeat (apply NoDup_cons; split;
                   [rewrite ?elem_of_cons, elem_of_nil; intuition discriminate|]).
    apply NoDup_nil_2. }
  destruct (checked_order_is_reserved
              (mkState [] None (Some [mkItem "tshirt" 2; mkItem "hat" 15])
                 None (Some true) None None None None None None None)
              fresh_world (mkItem "tshirt" 2) [mkItem "hat" 15]
              eq_refl Hnd eq_refl eq_refl) as (_ & _ & _ & H4 & H5).
  split; [exact H4|]. rewrite H5. reflexivity.
Defined.

(** X11. On a non-empty order none of whose restocks raises (each new
    quantity is a 64-bit integer), [restocker_node] ends with status
    "completed": it restocks every item the store knows under exactly the
    ordered name, adding the ordered quantity, skips the others, lists the
    restocked names in order in [restocked_items], never adds or removes a
    row, and leaves every quantity that was a 64-bit integer one. *)
Theorem restocker_node_restocks_known_items (state : AgentState) (w : world)
        (it : item) (rest : list item) :
  get_parsed_items state = it :: rest ->
  restocks_return (it :: rest) (inventory w) = true ->
  restocked_items (fst (restocker_node state w))
  = Some (List.filter (known (table_of w)) (map it_name (it :: rest)))
  /\ status (fst (restocker_node state w)) = Some "completed"
  /\ trace (snd (restocker_node state w))
     = (trace w ++ restock_events (table_of w) (it :: rest))%list
  /\ map item_name (table_of (snd (restocker_node state w)))
     = map item_name (table_of w)
  /\ (forall name,
         on_hand name (table_of (snd (restocker_node state w)))
         = on_hand name (table_of w)
           + (if known (table_of w) name
              then ordered_total name (it :: rest) else 0))
  /\ (forall name,
         int64 (on_hand name (table_of w)) = true ->
         int64 (on_hand name (table_of (snd (restocker_node state w))))
         = true).
Proof.
  intros Hi Hret.
  destruct (restocker_node_spec state w it rest Hi) as (H1 & H2 & H3 & H4 & H5).
  repeat (split; [assumption|]).
  intros name Hn.
  pose proof (restock_loop_int64 (it :: rest) [] w name Hret Hn) as H6.
  unfold restocker_node. rewrite Hi. unfold bind.
  destruct (restock_loop (it :: rest) [] w) as [restocked w1].
  cbn [snd] in H6. destruct restocked; exact H6.
Qed.

Lemma restocker_node_restocks_known_items_witness :
  restocked_items
    (fst (restocker_node
            (mkState [] None (Some [mkItem "T-Shirts" 2; mkItem "hat" 1])
               None None None None None (Some "failed") None None None)
            fresh_world))
  = Some ["hat"]
  /\ on_hand "hat"
       (table_of (snd (restocker_node
                         (mkState [] None
                            (Some [mkItem "T-Shirts" 2; mkItem "hat" 1])
                            None None None None None (Some "failed") None None
                            None)
                         fresh_world))) = 16.
Proof.
  destruct (restocker_node_restocks_known_items
              (mkState [] None (Some [mkItem "T-Shirts" 2; mkItem "hat" 1])
                 None None None None None (Some "failed") None None None)
              fresh_world (mkItem "T-Shirts" 2) [mkItem "hat" 1] eq_refl
              eq_refl)
    as (H1 & _ & _ & _ & H5 & _).
  split; [exact H1|]. rewrite H5. reflexivity.
Defined.

(** X12. Compensation round trip: when every reservation of an order has
    succeeded in [warehouse_node], [restocker_node] run on the same items
    restocks every one of them and returns every quantity on hand to its
    value before the warehouse step. *)
Theorem warehouse_then_restocker_restores (state state' : AgentState)
        (w : world) (it : item) (rest : list item) :
  get_parsed_items state = it :: rest ->
  get_parsed_items state' = it :: rest ->
  fst (run_ops (reserve_ops (it :: rest)) (inventory w))
  = map (fun _ => true) (it :: rest) ->
  restocked_items (fst (restocker_node state' (snd (warehouse_node state w))))
  = Some (map it_name (it :: rest))
  /\ status (fst (restocker_node state' (snd (warehouse_node state w))))
     = Some "completed"
  /\ (forall name,
         on_hand name
           (table_of (snd (restocker_node state' (snd (warehouse_node state w)))))
         = on_hand name (table_of w)).
Proof.
  intros Hi Hi' Hall.
  destruct (warehouse_node_success state w it rest Hi Hall)
    as (_ & _ & _ & _ & _ & Ht & Hqty).
  destruct (reserved_items_known (it :: rest) (inventory w) Hall) as [Hn Hk].
  destruct (restocker_node_spec state' (snd (warehouse_node state w)) it rest Hi')
    as (H1 & H2 & _ & _ & H5).
  assert (Hk1 : forall n, known (table_of (snd (warehouse_node state w))) n
                          = known (table_of w) n).
  { intros n. apply known_names. rewrite Ht. exact Hn. }
  split; [|split; [exact H2|]].
  - rewrite H1. f_equal. rewrite (List.filter_ext _ _ Hk1).
    fold (table_of w) in Hk. clear - Hk.
    induction (it :: rest) as [|x l IH]; [reflexivity|].
    cbn [forallb] in Hk. apply andb_true_iff in Hk. destruct Hk as [Hx Hl].
    cbn [map List.filter]. rewrite Hx. f_equal. apply IH, Hl.
  - intros name. rewrite H5, Hqty. unfold restockable_total. rewrite Hk1.
    destruct (known (table_of w) name) eqn:Hkn; [lia|].
    rewrite (ordered_total_unknown (table_of w) name (it :: rest) Hk Hkn). lia.
Qed.

Lemma warehouse_then_restocker_restores_witness :
  on_hand "tshirt"
    (table_of
       (snd (restocker_node
               (mkState [] None (Some [mkItem "tshirt" 2]) None None
                  (Some true) None (Some true) (Some "failed")
                  (Some "payment_failed") None None)
               (snd (warehouse_node
                       (mkState [] None (Some [mkItem "tshirt" 2]) None
                          (Some true) None None None None
                          (Some "checking_stock") None None)
                       fresh_world)))))
  = 10.
Proof.
  rewrite (proj2 (proj2 (warehouse_then_restocker_restores
                           (mkState [] None (Some [mkItem "tshirt" 2]) None
                              (Some true) None None None None
                              (Some "checking_stock") None None)
                           (mkState [] None (Some [mkItem "tshirt" 2]) None None
                              (Some true) None (Some true) (Some "failed")
                              (Some "payment_failed") None None)
                           fresh_world (mkItem "tshirt" 2) [] eq_refl eq_refl
                           eq_refl))).
  reflexivity.
Defined.

(* ===================================================================== *)
(** * One turn of the agent                                               *)
(* ===================================================================== *)

Section Turn.

(** [warehouse_node] leaves the order and the stock verdict in the state
    as they are. *)
Lemma warehouse_node_frame (state : AgentState) (w : world) :
  parsed_items (fst (warehouse_node state w)) = parsed_items state
  /\ stock_availability (fst (warehouse_node state w))
     = stock_availability state.
Proof.
  unfold warehouse_node.
  destruct (get_parsed_items state) as [|it items]; [split; reflexivity|].
  unfold bind. destruct (warehouse_loop (it :: items) ∅ w) as [[name|updated] w1];
    split; reflexivity.
Qed.

(** A run from the entry point finishes, ends with an update, keeps the
    order, and its final status follows the stock check. *)
Lemma run_from_entry_result (state : AgentState) (w : world) :
  exists events final n,
    fst (run_from recursion_limit entry_point state w) = (events, final, true)
    /\ last events = Some (n, final)
    /\ parsed_items final = parsed_items state
    /\ stock_availability final
       = Some (order_available (table_of w) (get_parsed_items state))
    /\ status final
       = Some (if order_available (table_of w) (get_parsed_items state)
               then "completed" else "rejected").
Proof.
  unfold recursion_limit. rewrite run_from_entry_point.
  destruct (stock_management_node_spec state w) as (H1 & H2 & H3 & _).
  destruct (stock_management_node state w) as [s1 w1].
  cbn [fst snd] in H1, H2, H3. rewrite H1.
  destruct (order_available (table_of w) (get_parsed_items state)).
  - destruct (warehouse_node_frame s1 w1) as [F1 F2].
    destruct (warehouse_node s1 w1) as [s2 w2]. cbn [fst snd] in *.
    exists [(stock_management, s1); (warehouse, s2); (cashier, cashier_node s2)],
      (cashier_node s2), cashier.
    repeat split; cbn; congruence.
  - exists [(stock_management, s1)], s1, stock_management.
    repeat split; assumption.
Qed.

End Turn.

(** What a turn returns. *)
Lemma run_agent_turn_spec (items : list item) (session_state : SessionState)
        (history : list hist_entry) (session_id : string) (w : world) :
  exists r,
    fst (run_agent_turn items session_state history session_id w) = Some r
    /\ tr_history r
       = (history
          ++ [ mkHist "user" ("Purchase request: " ++ items_summary items)%string;
               mkHist "assistant" (tr_content r) ])%list
    /\ ss_parsed_items (tr_state r) = Some items
    /\ ss_stock_availability (tr_state r)
       = Some (order_available (table_of w) items)
    /\ ss_status (tr_state r)
       = Some (if order_available (table_of w) items
               then "completed" else "rejected").
Proof.
  unfold run_agent_turn, bind, app_stream, memory_get, memory_put, bind.
  match goal with
  | |- context [run_from recursion_limit entry_point ?s0 w] =>
      set (state0 := s0)
  end.
  assert (Hp : parsed_items state0 = Some items).
  { unfold state0. destruct (memory w !! session_id); reflexivity. }
  destruct (run_from_entry_result state0 w)
    as (events & final & n & E & Hlast & Hpi & Hsa & Hst).
  unfold get_parsed_items in Hsa, Hst. rewrite Hp in Hpi, Hsa, Hst.
  destruct (run_from recursion_limit entry_point state0 w) as [r w1].
  cbn [fst] in E. subst r. cbn [fst snd negb ret]. rewrite Hlast.
  eexists. split; [reflexivity|]. cbn [tr_history tr_content tr_state].
  cbn [ss_parsed_items ss_stock_availability ss_status]. auto.
Qed.

(** X13. [run_agent_turn] always returns a result.  The result carries the
    order it was given; its status is "completed" exactly when the order
    is non-empty and every item passes the stock check against the table
    at the start of the turn, and "rejected" otherwise; and the history
    grows by exactly two entries, the purchase request and the reply. *)
Theorem run_agent_turn_result (items : list item) (session_state : SessionState)
        (history : list hist_entry) (session_id : string) (w : world) :
  exists r,
    fst (run_agent_turn items session_state history session_id w) = Some r
    /\ tr_history r
       = (history
          ++ [ mkHist "user" ("Purchase request: " ++ items_summary items)%string;
               mkHist "assistant" (tr_content r) ])%list
    /\ ss_parsed_items (tr_state r) = Some items
    /\ ss_stock_availability (tr_state r)
       = Some (order_available (table_of w) items)
    /\ ss_status (tr_state r)
       = Some (if order_available (table_of w) items
               then "completed" else "rejected").
Proof.
  exact (run_agent_turn_spec items session_state history session_id w).
Qed.

(* ===================================================================== *)
(** * Further properties of the payment handler                           *)
(* ===================================================================== *)

Section StorageKeys.

Lemma append_cons (c : ascii) (a b : string) :
  (String c a ++ b)%string = String c (a ++ b)%string.
Proof. reflexivity. Qed.

Lemma length_append (a b : string) :
  String.length (a ++ b)%string = (String.length a + String.length b)%nat.
Proof.
  induction a as [|c a IH]; [reflexivity|].
  rewrite append_cons. simpl. rewrite IH. reflexivity.
Qed.

Lemma append_inv_tail (a b c : string) :
  (a ++ c)%string = (b ++ c)%string -> a = b.
Proof.
  revert b. induction a as [|x a IH]; intros [|y b] H.
  - reflexivity.
  - apply (f_equal String.length) in H.
    rewrite !length_append in H. simpl in H. lia.
  - apply (f_equal String.length) in H.
    rewrite !length_append in H. simpl in H. lia.
  - rewrite !append_cons in H. injection H as -> H. f_equal. apply IH, H.
Qed.

Lemma append_inv_head (a b c : string) :
  (a ++ b)%string = (a ++ c)%string -> b = c.
Proof.
  induction a as [|x a IH]; [auto|]. rewrite !append_cons.
  intros H. injection H as H. auto.
Qed.

(** Within one sender and session, the marker keys of two transactions
    are the same only for the same transaction identifier. *)
Lemma commit_key_inj (sender session : string) (m1 m2 : CommitPayment) :
  commit_key sender session m1 = commit_key sender session m2 ->
  transaction_id m1 = transaction_id m2.
Proof.
  unfold commit_key, _k. intros H.
  apply append_inv_tail in H. apply append_inv_head in H. exact H.
Qed.

Lemma commit_key_not_paid (sender session : string) (m : CommitPayment) :
  commit_key sender session m <> _k "paid" sender session.
Proof. unfold commit_key, _k. discriminate. Qed.

Lemma commit_key_not_session (sender session : string) (m : CommitPayment) :
  commit_key sender session m <> session_key sender session.
Proof.
  unfold commit_key, _k, session_key. intros H.
  apply (f_equal String.length) in H. rewrite !length_append in H.
  simpl in H. lia.
Qed.

Lemma paid_key_not_session (sender session : string) :
  _k "paid" sender session <> session_key sender session.
Proof.
  unfold _k, session_key. intros H.
  apply (f_equal String.length) in H. rewrite !length_append in H.
  simpl in H. lia.
Qed.

End StorageKeys.

Section ProcessOrder.

Variables (sender session : string) (msg : CommitPayment).

(** [process_order] in terms of the order it chooses. *)
Lemma process_order_unfold (w : world) :
  process_order sender session msg w
  = match chosen_order (metadata msg)
            (storage w !! session_key sender session) with
    | [] =>
        send sender
          (ChatMessage
             "✅ Payment received, but order details not found. Please contact support.")
          w
    | items =>
        match storage w !! session_key sender session with
        | Some (StoredBool _) =>
            send sender
              (ChatMessage
                 "✅ Payment received! Your order will be processed shortly.")
              w
        | Some (StoredDict d) => run_and_record sender session d items w
        | None => run_and_record sender session empty_data items w
        end
    end.
Proof.
  unfold process_order, run_and_record, bind at 1, storage_get, chosen_order.
  destruct (metadata msg) as [| |[|x l]];
    destruct (storage w !! session_key sender session) as [[b|sd]|];
    try reflexivity;
    destruct (sd_parsed_items sd) as [[|y l']|]; reflexivity.
Qed.

Lemma run_agent_turn_storage (items : list item) (state : SessionState)
      (history : list hist_entry) (session_id : string) (w : world) :
  storage (snd (run_agent_turn items state history session_id w)) = storage w.
Proof.
  apply (preserves_run_agent_turn (fun w w' => storage w' = storage w)).
  - reflexivity.
  - intros w1 w2 w3 H1 H2. rewrite H2. exact H1.
  - intros A f w0. unfold on_inventory. destruct (f (inventory w0)). reflexivity.
  - intros name qty ok w0. reflexivity.
  - intros k s0 w0. reflexivity.
Qed.

(** Without order details the handler only reports that. *)
Lemma process_order_no_details (w : world) :
  chosen_order (metadata msg) (storage w !! session_key sender session) = [] ->
  process_order sender session msg w
  = (tt, mkWorld (inventory w) (memory w) (storage w)
           (trace w
            ++ [EvSend sender
                  (ChatMessage
                     "✅ Payment received, but order details not found. Please contact support.")])%list).
Proof. intros H. rewrite process_order_unfold, H. reflexivity. Qed.

(** The turn is run on the items and its outcome stored under the session
    key; the last thing sent is a chat message. *)
Lemma run_and_record_spec (session_data : SessionData) (it : item)
      (rest : list item) (w : world) :
  exists data st,
    storage (snd (run_and_record sender session session_data (it :: rest) w))
      !! session_key sender session = Some (StoredDict data)
    /\ sd_state data = Some st
    /\ ss_parsed_items st = Some (it :: rest)
    /\ ss_stock_availability st
       = Some (order_available (table_of w) (it :: rest))
    /\ ss_status st
       = Some (if order_available (table_of w) (it :: rest)
               then "completed" else "rejected")
    /\ exists reply,
        last (trace (snd (run_and_record sender session session_data
                            (it :: rest) w)))
        = Some (EvSend sender (ChatMessage reply)).
Proof.
  unfold run_and_record. cbv zeta. unfold bind.
  match goal with
  | |- context [run_agent_turn ?i ?s ?h ?k w] =>
      destruct (run_agent_turn_spec i s h k w)
        as (r & Er & _ & Hp & Hsa & Hst);
      destruct (run_agent_turn i s h k w) as [res w1];
      set (state := s)
  end.
  cbn [fst] in Er. subst res.
  exists (mkData (Some (state_update state (tr_state r)))
                 (Some (tr_history r)) (sd_parsed_items session_data)),
    (state_update state (tr_state r)).
  unfold storage_set, send, emit.
  split; [|split; [reflexivity|split; [|split; [|split]]]].
  - destruct (String.eqb (tr_content r) ""); cbn [snd storage];
      apply lookup_insert_eq.
  - unfold state_update. cbn [ss_parsed_items]. rewrite Hp. reflexivity.
  - unfold state_update. cbn [ss_stock_availability]. rewrite Hsa. reflexivity.
  - unfold state_update. cbn [ss_status]. rewrite Hst. reflexivity.
  - destruct (String.eqb (tr_content r) ""); cbn [snd trace];
      rewrite last_snoc; eauto.
Qed.

Lemma run_and_record_storage_frame (session_data : SessionData)
      (items : list item) (w : world) (k : string) :
  k <> session_key sender session ->
  storage (snd (run_and_record sender session session_data items w)) !! k
  = storage w !! k.
Proof.
  intros Hk. unfold run_and_record. cbv zeta. unfold bind at 1.
  match goal with
  | |- context [run_agent_turn ?i ?s ?h ?k0 w] =>
      pose proof (run_agent_turn_storage i s h k0 w) as Hs;
      destruct (run_agent_turn i s h k0 w) as [[r|] w1]
  end; cbn [snd] in Hs.
  - unfold bind, storage_set, send, emit.
    destruct (String.eqb (tr_content r) ""); cbn [snd storage];
      rewrite lookup_insert_ne, Hs by congruence; reflexivity.
  - unfold send, emit. cbn [snd storage]. rewrite Hs. reflexivity.
Qed.

(** With an order and a usable session entry the handler runs the turn
    and stores its outcome. *)
Lemma process_order_records (w : world) (it : item) (rest : list item) :
  chosen_order (metadata msg) (storage w !! session_key sender session)
  = it :: rest ->
  dict_or_absent (storage w !! session_key sender session) = true ->
  exists data st,
    storage (snd (process_order sender session msg w))
      !! session_key sender session = Some (StoredDict data)
    /\ sd_state data = Some st
    /\ ss_parsed_items st = Some (it :: rest)
    /\ ss_stock_availability st
       = Some (order_available (table_of w) (it :: rest))
    /\ ss_status st
       = Some (if order_available (table_of w) (it :: rest)
               then "completed" else "rejected")
    /\ exists reply,
        last (trace (snd (process_order sender session msg w)))
        = Some (EvSend sender (ChatMessage reply)).
Proof.
  intros Hc Hd. rewrite process_order_unfold, Hc.
  destruct (storage w !! session_key sender session) as [[b|sd]|];
    [discriminate| |]; apply run_and_record_spec.
Qed.

(** The handler writes to the session key only. *)
Lemma process_order_storage_frame (w : world) (k : string) :
  k <> session_key sender session ->
  storage (snd (process_order sender session msg w)) !! k = storage w !! k.
Proof.
  intros Hk. rewrite process_order_unfold.
  destruct (chosen_order (metadata msg) _) as [|it rest]; [reflexivity|].
  destruct (storage w !! session_key sender session) as [[b|sd]|];
    [reflexivity| |]; apply run_and_record_storage_frame, Hk.
Qed.

(** Marking the payment as confirmed touches the session entry only, and
    keeps the order stored there. *)
Lemma mark_payment_confirmed_spec (w : world) :
  inventory (snd (mark_payment_confirmed sender session w)) = inventory w
  /\ memory (snd (mark_payment_confirmed sender session w)) = memory w
  /\ (forall k, k <> session_key sender session ->
                storage (snd (mark_payment_confirmed sender session w)) !! k
                = storage w !! k)
  /\ (forall m,
         chosen_order m
           (storage (snd (mark_payment_confirmed sender session w))
              !! session_key sender session)
         = chosen_order m (storage w !! session_key sender session))
  /\ dict_or_absent
       (storage (snd (mark_payment_confirmed sender session w))
          !! session_key sender session)
     = dict_or_absent (storage w !! session_key sender session).
Proof.
  unfold mark_payment_confirmed, bind, storage_get.
  destruct (storage w !! session_key sender session) as [[b|sd]|] eqn:Ev;
    cbn [snd ret]; try (rewrite Ev; repeat split; reflexivity).
  destruct (sd_state sd) as [st|];
    cbn [snd ret storage_set]; [|rewrite Ev; repeat split; reflexivity].
  unfold storage_set. cbn [snd inventory memory storage].
  rewrite lookup_insert_eq. repeat split.
  - intros k Hk. apply lookup_insert_ne. congruence.
Qed.

End ProcessOrder.

Section OnCommitMore.

Variables (sender session : string) (msg : CommitPayment).

(** The world in which a settling commit processes the order. *)
Lemma settling_world (w : world) :
  inventory (snd (mark_payment_confirmed sender session
                    (after_complete_payment sender session msg w)))
  = inventory w
  /\ (forall m,
         chosen_order m
           (storage (snd (mark_payment_confirmed sender session
                            (after_complete_payment sender session msg w)))
              !! session_key sender session)
         = chosen_order m (storage w !! session_key sender session))
  /\ dict_or_absent
       (storage (snd (mark_payment_confirmed sender session
                        (after_complete_payment sender session msg w)))
          !! session_key sender session)
     = dict_or_absent (storage w !! session_key sender session)
  /\ trace (snd (mark_payment_confirmed sender session
                   (after_complete_payment sender session msg w)))
     = (trace w ++ [EvSend sender (CompletePayment (transaction_id msg))])%list.
Proof.
  destruct (mark_payment_confirmed_spec sender session
              (after_complete_payment sender session msg w))
    as (Hi & _ & _ & Hc & Hd).
  assert (Hs : storage (after_complete_payment sender session msg w)
                 !! session_key sender session
               = storage w !! session_key sender session).
  { unfold after_complete_payment. cbn [storage].
    rewrite !lookup_insert_ne; [reflexivity| |].
    - apply commit_key_not_session.
    - apply paid_key_not_session. }
  rewrite Hi, Hd, Hs, mark_payment_confirmed_trace.
  split; [reflexivity|]. split; [|split; reflexivity].
  intros m. rewrite Hc, Hs. reflexivity.
Qed.

(** A commit writes to three storage keys only: its marker, the "paid"
    flag and the session entry. *)
Lemma on_commit_storage_frame (verify_and_charge : bool) (w : world)
      (k : string) :
  k <> commit_key sender session msg ->
  k <> _k "paid" sender session ->
  k <> session_key sender session ->
  storage (snd (on_commit verify_and_charge sender session msg w)) !! k
  = storage w !! k.
Proof.
  intros H1 H2 H3.
  destruct (storage w !! commit_key sender session msg) as [x|] eqn:Hk.
  { rewrite on_commit_duplicate; [reflexivity|]. rewrite Hk. eauto. }
  destruct (if String.eqb (payment_method (funds msg)) "skyfire"
            then verify_and_charge else false) eqn:Hv.
  - rewrite (on_commit_settles sender session msg _ w Hk Hv).
    rewrite process_order_storage_frame by exact H3.
    destruct (mark_payment_confirmed_spec sender session
                (after_complete_payment sender session msg w))
      as (_ & _ & Hf & _).
    rewrite (Hf k H3). unfold after_complete_payment. cbn [storage].
    rewrite !lookup_insert_ne; auto.
  - rewrite (on_commit_rejects sender session msg _ w Hk Hv). reflexivity.
Qed.

End OnCommitMore.

(** X14. A commit that is not verified (the verification answers no, or
    the payment method is not "skyfire") is answered with a
    [RejectPayment] and leaves inventory, checkpoints and storage as they
    are; no marker is written, so a later verified commit with the same
    transaction identifier is settled. *)
Theorem unverified_commit_can_be_retried (verify_and_charge : bool)
        (sender session : string) (msg : CommitPayment) (w : world) :
  storage w !! commit_key sender session msg = None ->
  verified verify_and_charge msg = false ->
  on_commit verify_and_charge sender session msg w
  = (tt, mkWorld (inventory w) (memory w) (storage w)
           (trace w ++ [EvSend sender
                          (RejectPayment "Payment verification failed")])%list)
  /\ (payment_method (funds msg) = "skyfire" ->
      exists rest,
        trace (snd (on_commit true sender session msg
                      (snd (on_commit verify_and_charge sender session msg w))))
        = (trace w
           ++ EvSend sender (RejectPayment "Payment verification failed")
           :: EvSend sender (CompletePayment (transaction_id msg)) :: rest)%list).
Proof.
  intros Hk Hv.
  pose proof (on_commit_rejects sender session msg verify_and_charge w Hk Hv)
    as E.
  split; [exact E|]. intros Hm. rewrite E. cbn [snd].
  destruct (on_commit_settles_trace sender session msg (fun _ => true) true
              (mkWorld (inventory w) (memory w) (storage w)
                 (trace w ++ [EvSend sender
                                (RejectPayment "Payment verification failed")])%list))
    as (rest & Ht & _); auto.
  { rewrite Hm. reflexivity. }
  exists rest. rewrite Ht. cbn [trace]. rewrite <- app_assoc. reflexivity.
Qed.

Lemma unverified_commit_can_be_retried_witness :
  on_commit true "alice" "s1"
    (mkCommit "tx1" (mkFunds "FET" "1" "fet_direct") (Decoded [mkItem "hat" 1]))
    fresh_world
  = (tt, mkWorld None ∅ ∅
           [EvSend "alice" (RejectPayment "Payment verification failed")]).
Proof.
  exact (proj1 (unverified_commit_can_be_retried true "alice" "s1"
                  (mkCommit "tx1" (mkFunds "FET" "1" "fet_direct")
                     (Decoded [mkItem "hat" 1]))
                  fresh_world eq_refl eq_refl)).
Defined.

(** X15. The idempotency marker is per transaction: whatever an earlier
    commit of the same sender and session did, a verified commit with a
    different transaction identifier that has not been seen before is
    never taken for a duplicate; it is settled and its [CompletePayment]
    sent. *)
Theorem other_transaction_is_settled (verify_first : bool)
        (sender session : string) (msg1 msg2 : CommitPayment) (w : world) :
  transaction_id msg2 <> transaction_id msg1 ->
  storage w !! commit_key sender session msg2 = None ->
  payment_method (funds msg2) = "skyfire" ->
  exists rest,
    trace (snd (on_commit true sender session msg2
                  (snd (on_commit verify_first sender session msg1 w))))
    = (trace (snd (on_commit verify_first sender session msg1 w))
       ++ EvSend sender (CompletePayment (transaction_id msg2)) :: rest)%list.
Proof.
  intros Htx Hk Hm.
  destruct (on_commit_settles_trace sender session msg2 (fun _ => true) true
              (snd (on_commit verify_first sender session msg1 w)))
    as (rest & Ht & _); auto.
  - rewrite on_commit_storage_frame; [exact Hk| | |].
    + intros E. apply commit_key_inj in E. congruence.
    + apply commit_key_not_paid.
    + apply commit_key_not_session.
  - rewrite Hm. reflexivity.
  - exists rest. exact Ht.
Qed.

Lemma other_transaction_is_settled_witness :
  exists rest,
    trace (snd (on_commit true "alice" "s1"
                  (mkCommit "tx2" (mkFunds "USDC" "0.001" "skyfire")
                     (Decoded [mkItem "hat" 1]))
                  (snd (on_commit true "alice" "s1"
                          (mkCommit "tx1" (mkFunds "USDC" "0.001" "skyfire")
                             (Decoded [mkItem "hat" 1]))
                          fresh_world))))
    = (trace (snd (on_commit true "alice" "s1"
                     (mkCommit "tx1" (mkFunds "USDC" "0.001" "skyfire")
                        (Decoded [mkItem "hat" 1]))
                     fresh_world))
       ++ EvSend "alice" (CompletePayment "tx2") :: rest)%list.
Proof.
  apply (other_transaction_is_settled true "alice" "s1"
           (mkCommit "tx1" (mkFunds "USDC" "0.001" "skyfire")
              (Decoded [mkItem "hat" 1]))
           (mkCommit "tx2" (mkFunds "USDC" "0.001" "skyfire")
              (Decoded [mkItem "hat" 1]))
           fresh_world); [discriminate|reflexivity|reflexivity].
Defined.

(** X16. A verified first commit that carries no items in its metadata,
    for a session in which none are stored, is still completed: the
    [CompletePayment] is sent, then the message that the order details
    were not found; the workflow is not run and the inventory is as
    before. *)
Theorem commit_without_order_details (verify_and_charge : bool)
        (sender session : string) (msg : CommitPayment) (w : world) :
  storage w !! commit_key sender session msg = None ->
  verified verify_and_charge msg = true ->
  chosen_order (metadata msg) (storage w !! session_key sender session) = [] ->
  trace (snd (on_commit verify_and_charge sender session msg w))
  = (trace w
     ++ [ EvSend sender (CompletePayment (transaction_id msg));
          EvSend sender
            (ChatMessage
               "✅ Payment received, but order details not found. Please contact support.") ])%list
  /\ inventory (snd (on_commit verify_and_charge sender session msg w))
     = inventory w.
Proof.
  intros Hk Hv Hc.
  rewrite (on_commit_settles sender session msg _ w Hk Hv).
  destruct (settling_world sender session msg w) as (Hi & Hco & _ & Ht).
  rewrite process_order_no_details by (rewrite Hco; exact Hc).
  cbn [snd trace inventory]. rewrite Ht, Hi, <- app_assoc. auto.
Qed.

Lemma commit_without_order_details_witness :
  trace (snd (on_commit true "alice" "s1"
                (mkCommit "tx1" (mkFunds "USDC" "0.001" "skyfire") BadJson)
                fresh_world))
  = [ EvSend "alice" (CompletePayment "tx1");
      EvSend "alice"
        (ChatMessage
           "✅ Payment received, but order details not found. Please contact support.") ].
Proof.
  exact (proj1 (commit_without_order_details true "alice" "s1"
                  (mkCommit "tx1" (mkFunds "USDC" "0.001" "skyfire") BadJson)
                  fresh_world eq_refl eq_refl eq_refl)).
Defined.

(** X17. A verified first commit with an order (from the metadata, else
    from the session) and a usable session entry runs the workflow on
    exactly that order and stores the outcome under the session key: the
    stored state holds the order, and its status is "completed" when
    every item passed the stock check against the table as it was when
    the commit arrived, "rejected" otherwise; the last message sent is
    the chat reply. *)
Theorem commit_records_outcome (verify_and_charge : bool)
        (sender session : string) (msg : CommitPayment) (w : world)
        (it : item) (rest : list item) :
  storage w !! commit_key sender session msg = None ->
  verified verify_and_charge msg = true ->
  chosen_order (metadata msg) (storage w !! session_key sender session)
  = it :: rest ->
  dict_or_absent (storage w !! session_key sender session) = true ->
  exists data st,
    storage (snd (on_commit verify_and_charge sender session msg w))
      !! session_key sender session = Some (StoredDict data)
    /\ sd_state data = Some st
    /\ ss_parsed_items st = Some (it :: rest)
    /\ ss_status st
       = Some (if forallb (in_stock (table_of w)) (it :: rest)
               then "completed" else "rejected")
    /\ exists reply,
        last (trace (snd (on_commit verify_and_charge sender session msg w)))
        = Some (EvSend sender (ChatMessage reply)).
Proof.
  intros Hk Hv Hc Hd.
  rewrite (on_commit_settles sender session msg _ w Hk Hv).
  destruct (settling_world sender session msg w) as (Hi & Hco & Hda & _).
  destruct (process_order_records sender session msg
              (snd (mark_payment_confirmed sender session
                      (after_complete_payment sender session msg w)))
              it rest)
    as (data & st & H1 & H2 & H3 & _ & H5 & H6).
  { rewrite Hco. exact Hc. }
  { rewrite Hda. exact Hd. }
  exists data, st. unfold table_of in H5. rewrite Hi in H5. auto.
Qed.

Lemma commit_records_outcome_witness :
  exists data st,
    storage (snd (on_commit true "alice" "s1"
                    (mkCommit "tx1" (mkFunds "USDC" "0.001" "skyfire")
                       (Decoded [mkItem "jacket" 4]))
                    fresh_world))
      !! session_key "alice" "s1" = Some (StoredDict data)
    /\ sd_state data = Some st
    /\ ss_status st = Some "rejected".
Proof.
  destruct (commit_records_outcome true "alice" "s1"
              (mkCommit "tx1" (mkFunds "USDC" "0.001" "skyfire")
                 (Decoded [mkItem "jacket" 4]))
              fresh_world (mkItem "jacket" 4) [] eq_refl eq_refl eq_refl eq_refl)
    as (data & st & H1 & H2 & _ & H4 & _).
  exists data, st. auto.
Defined.

(* ===================================================================== *)
(** * Further properties of the chat handler                              *)
(* ===================================================================== *)

Section ChatMore.

Variables (cfg : config) (sender session_id : string).

(** [handle_chat] once the text has been parsed into [items] and the
    session entry is usable. *)
Lemma handle_chat_unfold (items : list item) (msg : IncomingChat) (w : world) :
  _extract_text msg <> "" ->
  storage w !! session_key sender session_id <> Some (StoredBool true) ->
  exists session_data,
    sd_parsed_items session_data = Some items
    /\ handle_chat cfg (Some items) sender session_id msg w
       = request_or_refuse cfg sender items
           (mkWorld (inventory w) (memory w)
              (<[session_key sender session_id := StoredDict session_data]>
                 (storage w))
              (trace w ++ [EvSend sender (ChatAcknowledgement (msg_id msg))])%list).
Proof.
  intros Htext Hv. unfold handle_chat, bind at 1, send at 1, emit.
  destruct (String.eqb_spec (_extract_text msg) "") as [E|_]; [congruence|].
  unfold bind at 1, _get_session_data, bind at 1, storage_get.
  cbn [storage].
  destruct (storage w !! session_key sender session_id) as [[[|]|d]|];
    [congruence| | |];
    (eexists; split; [|reflexivity]); reflexivity.
Qed.

(** The stock check of the chat handler is the one of the workflow. *)
Lemma unavailable_items_nil (items : list item) (d : database) :
  flat_map
    (fun it =>
       let available_qty :=
         match fst (check_stock_multiple items d) !! it_name it with
         | Some q => q
         | None => 0
         end in
       if available_qty <? it_quantity it
       then [unavailable_part (it_name it) (it_quantity it) available_qty]
       else []) items = []
  <-> forallb (in_stock (get_connection d)) items = true.
Proof.
  assert (H : forall it, In it items ->
              fst (check_stock_multiple items d) !! it_name it
              = Some (lookup_quantity (it_name it) (get_connection d))).
  { intros it Hin. unfold check_stock_multiple. cbn [fst].
    rewrite (batch_lookup (fun n => lookup_quantity n (get_connection d))).
    rewrite bool_decide_eq_true_2; [reflexivity|].
    apply list_elem_of_In, in_map, Hin. }
  revert H. generalize (fst (check_stock_multiple items d)) as results.
  intros results H. induction items as [|it items IH]; [split; reflexivity|].
  cbn [flat_map forallb]. rewrite (H it (or_introl eq_refl)). cbv zeta.
  unfold in_stock at 1.
  destruct (Z.ltb_spec (lookup_quantity (it_name it) (get_connection d))
              (it_quantity it)) as [Hlt|Hge].
  - split; [discriminate|]. rewrite andb_true_iff, Z.geb_le. lia.
  - cbn [app]. rewrite IH by (intros x Hx; apply H; right; exact Hx).
    rewrite andb_true_iff, Z.geb_le. tauto.
Qed.

(** What [request_or_refuse] adds to the trace: one message, which is a
    payment request exactly when every item is in stock and the service
    is configured; the store is only read. *)
Lemma request_or_refuse_spec (items : list item) (w : world) :
  exists m,
    trace (snd (request_or_refuse cfg sender items w))
    = (trace w ++ [EvSend sender m])%list
    /\ request_for cfg sender items (EvSend sender m)
    /\ (is_payment_request (EvSend sender m) = true ->
        forallb (in_stock (table_of w)) items = true
        /\ Skyfire.truthy (skyfire_service_id cfg) = true)
    /\ (forallb (in_stock (table_of w)) items = true ->
        Skyfire.truthy (skyfire_service_id cfg) = true ->
        is_payment_request (EvSend sender m) = true)
    /\ storage (snd (request_or_refuse cfg sender items w)) = storage w
    /\ table_of (snd (request_or_refuse cfg sender items w)) = table_of w.
Proof.
  unfold request_or_refuse, bind, on_inventory, send, emit, get_items_prices.
  pose proof (unavailable_items_nil items (inventory w)) as Hnil.
  destruct (check_stock_multiple items (inventory w)) as [results d1] eqn:Ec.
  assert (Hd1 : d1 = Some (get_connection (inventory w))).
  { unfold check_stock_multiple in Ec. injection Ec as _ <-. reflexivity. }
  cbn [fst] in Hnil. cbv zeta in Hnil |- *.
  destruct (flat_map _ items) as [|u us] eqn:Eu.
  - assert (Hall : forallb (in_stock (table_of w)) items = true)
      by (apply Hnil; reflexivity).
    destruct (skyfire_service_id cfg) as [[|c s0]|] eqn:Es.
    + eexists. split; [reflexivity|]. subst d1.
      split; [exact I|]. split; [discriminate|].
      split; [intros _ Hs; discriminate Hs|split; reflexivity].
    + cbn [fst snd trace storage inventory]. eexists.
      split; [reflexivity|]. subst d1. unfold request_for.
      rewrite map_map. cbn [fst]. rewrite map_id.
      split; [auto|]. split; [intros _; split; [exact Hall|reflexivity]|].
      split; [reflexivity|split; reflexivity].
    + eexists. split; [reflexivity|]. subst d1.
      split; [exact I|]. split; [discriminate|].
      split; [intros _ Hs; discriminate Hs|split; reflexivity].
  - eexists. split; [reflexivity|]. subst d1.
    split; [exact I|]. split; [discriminate|]. split; [|split; reflexivity].
    intros Hall _. apply Hnil in Hall. discriminate.
Qed.

End ChatMore.

(** X18. What the chat handler sends after the acknowledgement is a
    single message, and it is a payment request only if the order was
    parsed, every item passed the same stock check the workflow makes, and
    the payment service is configured; the request then goes to the
    sender, is for exactly the parsed items, and accepts the one fixed
    USDC amount. *)
Theorem payment_request_only_when_in_stock (cfg : config)
        (llm_result : option (list item)) (sender session_id : string)
        (msg : IncomingChat) (w : world) :
  exists evs,
    trace (snd (handle_chat cfg llm_result sender session_id msg w))
    = (trace w ++ EvSend sender (ChatAcknowledgement (msg_id msg)) :: evs)%list
    /\ (length evs <= 1)%nat
    /\ forall e, In e evs -> is_payment_request e = true ->
         exists items,
           llm_result = Some items
           /\ forallb (in_stock (table_of w)) items = true
           /\ Skyfire.truthy (skyfire_service_id cfg) = true
           /\ request_for cfg sender items e.
Proof.
  destruct (String.eqb_spec (_extract_text msg) "") as [Et|Et].
  { exists []. unfold handle_chat, bind, send, emit. rewrite Et. cbn.
    split; [reflexivity|]. split; [lia|]. intros e []. }
  destruct llm_result as [items|].
  2:{ eexists [_]. unfold handle_chat, bind, send, emit.
      destruct (String.eqb_spec (_extract_text msg) "") as [E|_]; [congruence|].
      cbn. rewrite <- app_assoc. split; [reflexivity|]. split; [lia|].
      intros e [<-|[]] H. discriminate. }
  assert (Hdec : storage w !! session_key sender session_id
                 = Some (StoredBool true)
                 \/ storage w !! session_key sender session_id
                    <> Some (StoredBool true)).
  { destruct (storage w !! session_key sender session_id) as [[[|]|d]|];
      [left; reflexivity|right; discriminate ..]. }
  destruct Hdec as [Ev|Ev].
  { exists []. unfold handle_chat, bind at 1, send at 1, emit.
    destruct (String.eqb_spec (_extract_text msg) "") as [E|_]; [congruence|].
    unfold bind at 1, _get_session_data, bind at 1, storage_get.
    cbn [storage]. rewrite Ev. cbn.
    split; [reflexivity|]. split; [lia|]. intros e []. }
  destruct (handle_chat_unfold cfg sender session_id items msg w Et Ev)
    as (sd & _ & ->).
  match goal with
  | |- context [request_or_refuse cfg sender items ?w1] =>
      destruct (request_or_refuse_spec cfg sender items w1)
        as (m & Ht & Hr & Hp & _)
  end.
  exists [EvSend sender m]. rewrite Ht. cbn [trace]. rewrite <- app_assoc.
  split; [reflexivity|]. split; [simpl; lia|].
  intros e [<-|[]] He. exists items. destruct (Hp He) as [Hall Hs]. auto.
Qed.

(** X19. When the text is not empty, the order has been parsed and the
    session entry is usable, the chat handler stores the parsed items
    under the session key before it does anything else, so that a later
    commit without items in its metadata works on exactly these items. *)
Theorem handle_chat_persists_order (cfg : config) (items : list item)
        (sender session_id : string) (msg : IncomingChat) (w : world) :
  _extract_text msg <> "" ->
  storage w !! session_key sender session_id <> Some (StoredBool true) ->
  exists session_data,
    storage (snd (handle_chat cfg (Some items) sender session_id msg w))
      !! session_key sender session_id = Some (StoredDict session_data)
    /\ sd_parsed_items session_data = Some items
    /\ chosen_order NoItems
         (storage (snd (handle_chat cfg (Some items) sender session_id msg w))
            !! session_key sender session_id) = items.
Proof.
  intros Ht Hv.
  destruct (handle_chat_unfold cfg sender session_id items msg w Ht Hv)
    as (sd & Hsd & ->).
  match goal with
  | |- context [request_or_refuse cfg sender items ?w1] =>
      destruct (request_or_refuse_spec cfg sender items w1)
        as (m & _ & _ & _ & _ & Hs & _)
  end.
  exists sd. rewrite Hs. cbn [storage]. rewrite lookup_insert_eq.
  split; [reflexivity|]. split; [exact Hsd|]. cbn. rewrite Hsd. reflexivity.
Qed.

Lemma handle_chat_persists_order_witness :
  chosen_order NoItems
    (storage (snd (handle_chat (mkConfig None "agent1" "0.001")
                     (Some [mkItem "hat" 99]) "alice" "s1"
                     (mkChat "m1" [TextContent "99 hats"]) fresh_world))
       !! session_key "alice" "s1")
  = [mkItem "hat" 99].
Proof.
  destruct (handle_chat_persists_order (mkConfig None "agent1" "0.001")
              [mkItem "hat" 99] "alice" "s1"
              (mkChat "m1" [TextContent "99 hats"]) fresh_world)
    as (sd & _ & _ & H); [discriminate|discriminate|exact H].
Defined.

(* ===================================================================== *)
(** * Properties of the Skyfire helpers                                   *)
(* ===================================================================== *)

Section SkyfireProps.

Variable env : gmap string string.

Lemma truthy_py_or (a b : option string) :
  truthy (py_or a b) = (truthy a || truthy b)%bool.
Proof.
  unfold py_or. destruct (truthy a) eqn:E; [exact E|reflexivity].
Qed.

Lemma truthy_JWT_AUDIENCE :
  truthy (JWT_AUDIENCE env)
  = (is_set env "JWT_AUDIENCE" || is_set env "SELLER_ACCOUNT_ID"
     || is_set env "SKYFIRE_ACCOUNT_ID")%bool.
Proof.
  unfold JWT_AUDIENCE, is_set, getenv. rewrite !truthy_py_or.
  rewrite <- orb_assoc. do 2 f_equal.
  destruct (env !! "SKYFIRE_ACCOUNT_ID"); reflexivity.
Qed.

(** The guard of [verify_and_charge], on the environment variables. *)
Lemma guard_configured :
  (truthy (SKYFIRE_API_KEY env) && truthy (SKYFIRE_SERVICE_ID env)
   && (truthy (SELLER_ACCOUNT_ID env) || truthy (JWT_AUDIENCE env)))%bool
  = configured env.
Proof.
  rewrite truthy_JWT_AUDIENCE.
  unfold SKYFIRE_API_KEY, SKYFIRE_SERVICE_ID, SELLER_ACCOUNT_ID, configured,
    is_set, getenv.
  rewrite !truthy_py_or.
  destruct (truthy (env !! "SKYFIRE_API_KEY")),
    (truthy (env !! "SELLER_SKYFIRE_API_KEY")),
    (truthy (env !! "SKYFIRE_SERVICE_ID")),
    (truthy (env !! "SELLER_SERVICE_ID")),
    (truthy (env !! "JWT_AUDIENCE")),
    (truthy (env !! "SELLER_ACCOUNT_ID")),
    (truthy (env !! "SKYFIRE_ACCOUNT_ID")); reflexivity.
Qed.

(** The audience a token is decoded against is [JWT_AUDIENCE]: its
    fallback to [SELLER_ACCOUNT_ID] never applies, since [JWT_AUDIENCE]
    already falls back to it. *)
Lemma audience_is_JWT_AUDIENCE :
  py_or (JWT_AUDIENCE env) (py_or (SELLER_ACCOUNT_ID env) (Some ""))
  = JWT_AUDIENCE env.
Proof.
  unfold py_or at 1. destruct (truthy (JWT_AUDIENCE env)) eqn:E;
    [reflexivity|].
  revert E. unfold JWT_AUDIENCE, SELLER_ACCOUNT_ID, py_or, getenv.
  destruct (truthy (env !! "JWT_AUDIENCE")) eqn:E1;
    [intros E; cbv iota in E; congruence|].
  destruct (truthy (env !! "SELLER_ACCOUNT_ID")) eqn:E2;
    [intros E; cbv iota in E; congruence|].
  destruct (env !! "SKYFIRE_ACCOUNT_ID") as [s|]; [|reflexivity].
  cbn [truthy]. destruct (String.eqb_spec s "") as [->|]; [reflexivity|].
  discriminate.
Qed.

Lemma verify_and_charge_spec (verify : string -> bool)
      (charge : string -> string -> bool) (token amount_usdc : string) :
  verify_and_charge env verify charge token amount_usdc
  = if configured env
    then if verify token
         then (charge token amount_usdc,
               [CallVerify token; CallCharge token amount_usdc])
         else (false, [CallVerify token])
    else (false, []).
Proof.
  unfold verify_and_charge. rewrite guard_configured.
  destruct (configured env); [|reflexivity].
  cbn [negb]. cbv zeta. destruct (verify token); reflexivity.
Qed.

End SkyfireProps.

Section SigningKey.

Context {J K : Type}.
Variable construct : J -> option K.

(** The key [get_signing_key] returns is built from the first entry of
    the document with the asked ["kid"]. *)
Lemma get_signing_key_first (keys : list (option string * J)) (kid : string)
      (key : K) :
  get_signing_key construct keys kid = Some key ->
  exists before j after,
    keys = (before ++ (Some kid, j) :: after)%list
    /\ Forall (fun e => fst e <> Some kid) before
    /\ construct j = Some key.
Proof.
  induction keys as [|[k j] rest IH]; [discriminate|].
  cbn [get_signing_key].
  destruct k as [k'|].
  - destruct (String.eqb_spec k' kid) as [->|Hne].
    + intros H. exists [], j, rest. repeat split; [constructor|exact H].
    + intros H. destruct (IH H) as (before & j0 & after & -> & Hb & Hc).
      exists ((Some k', j) :: before), j0, after.
      repeat split; [|exact Hc]. constructor; [|exact Hb].
      cbn. congruence.
  - intros H. destruct (IH H) as (before & j0 & after & -> & Hb & Hc).
    exists ((None, j) :: before), j0, after.
    repeat split; [|exact Hc]. constructor; [|exact Hb]. discriminate.
Qed.

(** Conversely, the first entry with the asked ["kid"] decides. *)
Lemma get_signing_key_app (before after : list (option string * J))
      (kid : string) (j : J) :
  Forall (fun e => fst e <> Some kid) before ->
  get_signing_key construct (before ++ (Some kid, j) :: after) kid
  = construct j.
Proof.
  induction 1 as [|[k j0] before Hk _ IH].
  - cbn. rewrite String.eqb_refl. reflexivity.
  - cbn [app get_signing_key]. destruct k as [k'|]; [|exact IH].
    destruct (String.eqb_spec k' kid) as [->|_]; [|exact IH].
    cbn in Hk. congruence.
Qed.

End SigningKey.

(** X20. [verify_and_charge] answers true exactly when the seller
    credentials are in the environment (an API key, a service id and an
    account id, each under one of its variable names), the token verifies
    and the charge succeeds.  It calls the charge service only after a
    successful verification of the same token, and calls nothing when the
    credentials are missing. *)
Theorem verify_and_charge_outcome (env : gmap string string)
        (verify : string -> bool) (charge : string -> string -> bool)
        (token amount_usdc : string) :
  (fst (verify_and_charge env verify charge token amount_usdc) = true
   <-> configured env = true /\ verify token = true
       /\ charge token amount_usdc = true)
  /\ (forall t a,
        In (CallCharge t a)
           (snd (verify_and_charge env verify charge token amount_usdc)) ->
        configured env = true /\ verify token = true
        /\ snd (verify_and_charge env verify charge token amount_usdc)
           = [CallVerify token; CallCharge token amount_usdc])
  /\ (configured env = false ->
      snd (verify_and_charge env verify charge token amount_usdc) = []).
Proof.
  rewrite verify_and_charge_spec.
  destruct (configured env); [destruct (verify token)|]; cbn [fst snd].
  - split; [tauto|]. split; [auto|discriminate].
  - split; [split; [discriminate|intros (_ & H & _); discriminate H]|].
    split; [|discriminate]. intros t a [H|[]]. discriminate H.
  - split; [split; [discriminate|intros (H & _); discriminate H]|].
    split; [intros t a []|reflexivity].
Qed.

(** X21. A token that [verify_token_claims] accepts has a non-empty key
    id in its header, the key set was fetched, the signing key was built
    from the first entry of the key set with that id, the token decoded
    under that key against the audience [JWT_AUDIENCE] (the fallback to
    [SELLER_ACCOUNT_ID] at the call never applies), and, when a service
    id is configured, the token's ["ssi"] claim equals it. *)
Theorem verify_token_claims_sound {J K : Type} (env : gmap string string)
        (construct : J -> option K) (header : option (option string))
        (jwks : option (list (option string * J)))
        (decode : K -> option string -> option (option string)) :
  verify_token_claims env construct header jwks decode = true ->
  exists kid before j after signing_key ssi,
    header = Some (Some kid) /\ kid <> ""
    /\ jwks = Some (before ++ (Some kid, j) :: after)%list
    /\ Forall (fun e => fst e <> Some kid) before
    /\ construct j = Some signing_key
    /\ decode signing_key (JWT_AUDIENCE env) = Some ssi
    /\ (truthy (SKYFIRE_SERVICE_ID env) = true ->
        ssi = SKYFIRE_SERVICE_ID env).
Proof.
  unfold verify_token_claims. rewrite audience_is_JWT_AUDIENCE.
  destruct header as [[kid|]|]; try discriminate.
  destruct (String.eqb_spec kid "") as [|Hkid]; [discriminate|].
  destruct jwks as [keys|]; [|discriminate].
  destruct (get_signing_key construct keys kid) as [signing_key|] eqn:Ek;
    [|discriminate].
  cbv zeta.
  destruct (decode signing_key (JWT_AUDIENCE env)) as [ssi|] eqn:Ed;
    [|discriminate].
  destruct (get_signing_key_first construct keys kid signing_key Ek)
    as (before & j & after & -> & Hb & Hc).
  intros H. exists kid, before, j, after, signing_key, ssi.
  repeat split; auto.
  intros Hs. rewrite Hs in H. cbn [andb] in H.
  case_bool_decide; [assumption|discriminate].
Qed.

Lemma verify_token_claims_sound_witness :
  exists kid before j after signing_key ssi,
    Some (Some "k2") = Some (Some kid) /\ kid <> ""
    /\ Some [(Some "k1", "pem1"); (None, "pem0"); (Some "k2", "pem2");
             (Some "k2", "pem3")]
       = Some (before ++ (Some kid, j) :: after)%list
    /\ Forall (fun e => fst e <> Some kid) before
    /\ Some j = Some signing_key
    /\ (if String.eqb signing_key "pem2" then Some (Some "svc") else None)
       = Some ssi
    /\ (truthy (SKYFIRE_SERVICE_ID
                  (<["SELLER_SERVICE_ID" := "svc"]> (∅ : gmap string string)))
        = true ->
        ssi = SKYFIRE_SERVICE_ID
                (<["SELLER_SERVICE_ID" := "svc"]> (∅ : gmap string string))).
Proof.
  apply (verify_token_claims_sound
           (<["SELLER_SERVICE_ID" := "svc"]> (∅ : gmap string string))
           (fun j : string => Some j) (Some (Some "k2"))
           (Some [(Some "k1", "pem1"); (None, "pem0"); (Some "k2", "pem2");
                  (Some "k2", "pem3")])
           (fun key _ => if String.eqb key "pem2" then Some (Some "svc")
                         else None)).
  vm_compute. reflexivity.
Defined.

Section CommitCalls.

Variables (skyfire_imported : bool) (env : gmap string string)
          (verify : string -> bool) (charge : string -> string -> bool).
Variables (sender session : string) (msg : CommitPayment).

(** The answer [on_commit] acts on, on the import, the environment and
    the answers of the two services. *)
Lemma commit_verification_spec :
  commit_verification skyfire_imported env verify charge msg
  = if String.eqb (payment_method (funds msg)) "skyfire"
    then if skyfire_imported
         then if configured env
              then if verify (transaction_id msg)
                   then (charge (transaction_id msg) (amount (funds msg)),
                         [CallVerify (transaction_id msg);
                          CallCharge (transaction_id msg)
                            (amount (funds msg))])
                   else (false, [CallVerify (transaction_id msg)])
              else (false, [])
         else (true, [])
    else (false, []).
Proof.
  unfold commit_verification, bound_verify_and_charge.
  rewrite verify_and_charge_spec.
  destruct (String.eqb _ "skyfire"); [|reflexivity].
  destruct skyfire_imported; reflexivity.
Qed.

Lemma commit_verification_verified :
  (if String.eqb (payment_method (funds msg)) "skyfire"
   then fst (commit_verification skyfire_imported env verify charge msg)
   else false)
  = fst (commit_verification skyfire_imported env verify charge msg).
Proof.
  unfold commit_verification.
  destruct (String.eqb _ "skyfire"); reflexivity.
Qed.

(** The commit as [on_commit_calls] runs it when it is no duplicate. *)
Lemma on_commit_calls_first (w : world) :
  storage w !! commit_key sender session msg = None ->
  on_commit_calls skyfire_imported env verify charge sender session msg w
  = (snd (commit_verification skyfire_imported env verify charge msg),
     snd (on_commit
            (fst (commit_verification skyfire_imported env verify charge msg))
            sender session msg w)).
Proof.
  intros Hnew. unfold on_commit_calls, storage_has. cbn [fst].
  rewrite bool_decide_eq_false_2 by (rewrite Hnew; intros [x Hx]; discriminate).
  reflexivity.
Qed.

End CommitCalls.

(** X22. A commit that is not a duplicate is settled (its marker is
    stored) exactly when its method is "skyfire" and the bound
    [verify_and_charge] answers yes: with [tools/skyfire.py] imported that
    is when the seller credentials are configured, the transaction id
    verifies as a token and the charge of the amount the commit itself
    names succeeds, the remote calls being the verification followed by
    that charge; with the import failed it is always, and nothing is
    verified or charged.  In every other case the only effect is one
    [RejectPayment] to the sender: inventory and storage are as before,
    and no charge has succeeded. *)
Theorem commit_settles_iff_charged (skyfire_imported : bool)
        (env : gmap string string)
        (verify : string -> bool) (charge : string -> string -> bool)
        (sender session : string) (msg : CommitPayment) (w : world) :
  storage w !! commit_key sender session msg = None ->
  (is_Some (storage (snd (on_commit_calls skyfire_imported env verify charge
                            sender session msg w))
              !! commit_key sender session msg)
   <-> payment_method (funds msg) = "skyfire"
       /\ (skyfire_imported = false
           \/ (configured env = true
               /\ verify (transaction_id msg) = true
               /\ charge (transaction_id msg) (amount (funds msg)) = true)))
  /\ (is_Some (storage (snd (on_commit_calls skyfire_imported env verify
                               charge sender session msg w))
                 !! commit_key sender session msg) ->
      fst (on_commit_calls skyfire_imported env verify charge sender session
             msg w)
      = if skyfire_imported
        then [CallVerify (transaction_id msg);
              CallCharge (transaction_id msg) (amount (funds msg))]
        else [])
  /\ (~ is_Some (storage (snd (on_commit_calls skyfire_imported env verify
                                 charge sender session msg w))
                   !! commit_key sender session msg) ->
      snd (on_commit_calls skyfire_imported env verify charge sender session
             msg w)
      = mkWorld (inventory w) (memory w) (storage w)
          (trace w ++ [EvSend sender
                         (RejectPayment "Payment verification failed")])%list
      /\ forall t a,
           In (CallCharge t a)
              (fst (on_commit_calls skyfire_imported env verify charge sender
                      session msg w)) ->
           charge t a = false).
Proof.
  intros Hnew.
  rewrite (on_commit_calls_first skyfire_imported env verify charge sender
             session msg w Hnew).
  cbn [fst snd].
  pose proof (commit_verification_verified skyfire_imported env verify charge
                msg) as Hv.
  pose proof (commit_verification_spec skyfire_imported env verify charge msg)
    as Hs.
  destruct (commit_verification skyfire_imported env verify charge msg)
    as [answer calls].
  cbn [fst snd] in *.
  assert (Hno : ~ is_Some (@None stored)) by (intros [x Hx]; discriminate).
  destruct answer.
  - pose proof (on_commit_sets_marker sender session msg true w Hnew Hv)
      as Hm.
    assert (Hall : payment_method (funds msg) = "skyfire"
                   /\ (skyfire_imported = false
                       \/ (configured env = true
                           /\ verify (transaction_id msg) = true
                           /\ charge (transaction_id msg) (amount (funds msg))
                              = true))
                   /\ calls = if skyfire_imported
                              then [CallVerify (transaction_id msg);
                                    CallCharge (transaction_id msg)
                                      (amount (funds msg))]
                              else []).
    { destruct (String.eqb_spec (payment_method (funds msg)) "skyfire")
        as [Em|]; [|discriminate Hs].
      destruct skyfire_imported.
      - destruct (configured env); [|discriminate Hs].
        destruct (verify (transaction_id msg)); [|discriminate Hs].
        injection Hs as Hc ->. auto 6.
      - injection Hs as ->. auto. }
    destruct Hall as (H1 & H2 & H3).
    split; [tauto|]. split; [intros _; exact H3|]. intros Hn. tauto.
  - rewrite (on_commit_rejects sender session msg false w Hnew Hv).
    cbn [snd storage]. rewrite Hnew.
    split.
    { split; [intros H; destruct (Hno H)|].
      intros (H1 & [H2|(H2 & H3 & H4)]).
      - rewrite H1, H2 in Hs. cbn in Hs. discriminate Hs.
      - rewrite H1, H2, H3, H4 in Hs. cbn in Hs.
        destruct skyfire_imported; discriminate Hs. }
    split; [intros H; destruct (Hno H)|].
    intros _. split; [reflexivity|].
    intros t a Hin.
    destruct (String.eqb (payment_method (funds msg)) "skyfire");
      [|injection Hs as ->; destruct Hin].
    destruct skyfire_imported; [|discriminate Hs].
    destruct (configured env); [|injection Hs as ->; destruct Hin].
    destruct (verify (transaction_id msg)).
    + injection Hs as Hc ->. destruct Hin as [H|[H|[]]]; [discriminate H|].
      injection H as <- <-. symmetry. exact Hc.
    + injection Hs as ->. destruct Hin as [H|[]]. discriminate H.
Qed.

Lemma commit_settles_iff_charged_witness :
  is_Some (storage
             (snd (on_commit_calls true
                     (list_to_map [("SKYFIRE_API_KEY", "key");
                                   ("SELLER_SERVICE_ID", "svc");
                                   ("SKYFIRE_ACCOUNT_ID", "acct")])
                     (fun _ => true) (fun _ a => String.eqb a "0.001")
                     "alice" "s1"
                     (mkCommit "tok" (mkFunds "USDC" "0.001" "skyfire")
                        NoItems)
                     fresh_world))
             !! commit_key "alice" "s1"
                  (mkCommit "tok" (mkFunds "USDC" "0.001" "skyfire") NoItems))
  /\ fst (on_commit_calls false ∅ (fun _ => false) (fun _ _ => false)
            "alice" "s1"
            (mkCommit "tok" (mkFunds "USDC" "0.001" "skyfire") NoItems)
            fresh_world) = [].
Proof.
  split.
  - apply (commit_settles_iff_charged true
             (list_to_map [("SKYFIRE_API_KEY", "key");
                           ("SELLER_SERVICE_ID", "svc");
                           ("SKYFIRE_ACCOUNT_ID", "acct")])
             (fun _ => true) (fun _ a => String.eqb a "0.001") "alice" "s1"
             (mkCommit "tok" (mkFunds "USDC" "0.001" "skyfire") NoItems)
             fresh_world).
    + reflexivity.
    + split; [reflexivity|]. right. repeat split; vm_compute; reflexivity.
  - destruct (commit_settles_iff_charged false ∅ (fun _ => false)
                (fun _ _ => false) "alice" "s1"
                (mkCommit "tok" (mkFunds "USDC" "0.001" "skyfire") NoItems)
                fresh_world eq_refl) as (Hiff & Hcalls & _).
    apply Hcalls, Hiff. split; [reflexivity|]. left. reflexivity.
Defined.

(* ===================================================================== *)
(** * The inventory calls of a settlement                                 *)
(* ===================================================================== *)

Section Settlement.

Lemma subtract_calls_connection (items : list item) (d d' : database) :
  get_connection d = get_connection d' ->
  subtract_calls items d = subtract_calls items d'.
Proof.
  intros H. destruct items as [|it rest]; [reflexivity|].
  cbn [subtract_calls]. unfold Database.subtract_inventory. rewrite H.
  reflexivity.
Qed.

(** The calls of the reservation step are subtractions. *)
Lemma subtract_calls_events (P : event -> bool) (items : list item)
      (d : database) :
  (forall name qty ok, P (EvSubtract name qty ok) = true) ->
  forallb P (subtract_calls items d) = true.
Proof.
  intros HP. revert d. induction items as [|it rest IH]; intros d;
    [reflexivity|].
  cbn [subtract_calls].
  destruct (Database.subtract_inventory (it_name it) (it_quantity it) d)
    as [ok d'].
  cbn [forallb]. rewrite HP. destruct ok; [apply IH|reflexivity].
Qed.

Lemma filter_all {A} (P : A -> bool) (l : list A) :
  forallb P l = true -> List.filter P l = l.
Proof.
  induction l as [|x l IH]; [reflexivity|]. cbn [forallb List.filter].
  rewrite andb_true_iff. intros [-> Hl]. rewrite IH; auto.
Qed.

(** What the loop of [warehouse_node] adds to the trace. *)
Lemma warehouse_loop_calls (items : list item) (updated : gmap string Z)
      (w : world) :
  trace (snd (warehouse_loop items updated w))
  = (trace w ++ subtract_calls items (inventory w))%list.
Proof.
  revert updated w. induction items as [|p items IH]; intros updated w.
  - cbn. rewrite app_nil_r. reflexivity.
  - cbn [warehouse_loop subtract_calls]. unfold bind.
    rewrite subtract_inventory_world.
    destruct (Database.subtract_inventory (it_name p) (it_quantity p)
                (inventory w)) as [ok d1].
    cbn [fst snd]. destruct ok; [|reflexivity].
    rewrite check_stock_world, IH. cbn [trace inventory].
    rewrite (subtract_calls_connection items (Some (get_connection d1)) d1
               eq_refl), <- app_assoc.
    reflexivity.
Qed.

Lemma warehouse_node_calls (state : AgentState) (w : world) :
  trace (snd (warehouse_node state w))
  = (trace w ++ subtract_calls (get_parsed_items state) (inventory w))%list.
Proof.
  pose proof (warehouse_loop_calls (get_parsed_items state) ∅ w) as H.
  unfold warehouse_node.
  destruct (get_parsed_items state) as [|it rest].
  - cbn. rewrite app_nil_r. reflexivity.
  - unfold bind. destruct (warehouse_loop (it :: rest) ∅ w) as [[name|u] w1];
      exact H.
Qed.

(** The inventory calls of a run of the graph: those of the reservation
    step when the order passes the stock check, none otherwise. *)
Lemma run_from_entry_calls (state : AgentState) (w : world) :
  trace (snd (run_from recursion_limit entry_point state w))
  = (trace w
     ++ if order_available (table_of w) (get_parsed_items state)
        then subtract_calls (get_parsed_items state) (inventory w)
        else [])%list.
Proof.
  unfold recursion_limit. rewrite run_from_entry_point.
  destruct (stock_management_node_spec state w) as (H1 & _ & H3 & Ht & _ & _ & Hc).
  destruct (stock_management_node state w) as [s1 w1].
  cbn [fst snd] in H1, H3, Ht, Hc. rewrite H1.
  destruct (order_available (table_of w) (get_parsed_items state)).
  - pose proof (warehouse_node_calls s1 w1) as Hw.
    destruct (warehouse_node s1 w1) as [s2 w2]. cbn [fst snd] in *.
    rewrite Hw, Ht. unfold get_parsed_items. rewrite H3.
    rewrite (subtract_calls_connection _ (inventory w1) (inventory w) Hc).
    reflexivity.
  - cbn [snd]. rewrite Ht, app_nil_r. reflexivity.
Qed.

Lemma run_agent_turn_calls (items : list item) (session_state : SessionState)
      (history : list hist_entry) (session_id : string) (w : world) :
  trace (snd (run_agent_turn items session_state history session_id w))
  = (trace w
     ++ if order_available (table_of w) items
        then subtract_calls items (inventory w) else [])%list.
Proof.
  unfold run_agent_turn, bind, app_stream, memory_get, memory_put, bind.
  match goal with
  | |- context [run_from recursion_limit entry_point ?s0 w] =>
      set (state0 := s0)
  end.
  assert (Hp : get_parsed_items state0 = items).
  { unfold get_parsed_items, state0.
    destruct (memory w !! session_id); reflexivity. }
  pose proof (run_from_entry_calls state0 w) as Hc. rewrite Hp in Hc.
  pose proof (run_from_finishes state0 w) as Hf.
  destruct (run_from recursion_limit entry_point state0 w)
    as [[[events final] finished] w1].
  cbn [fst snd] in Hc, Hf. subst finished. cbn [negb fst snd ret].
  destruct (last events) as [[n st]|]; cbn [fst snd ret trace]; exact Hc.
Qed.

Variables (sender session : string) (msg : CommitPayment).

(** What the order processing adds to the trace: the inventory calls of
    one run of the workflow, when there is an order, the session entry is
    usable and the order passes the stock check, and then one chat
    message. *)
Lemma process_order_calls (w : world) :
  exists text,
    trace (snd (process_order sender session msg w))
    = (trace w
       ++ (if (dict_or_absent (storage w !! session_key sender session)
               && order_available (table_of w)
                    (chosen_order (metadata msg)
                       (storage w !! session_key sender session)))%bool
           then subtract_calls
                  (chosen_order (metadata msg)
                     (storage w !! session_key sender session))
                  (inventory w)
           else [])
       ++ [EvSend sender (ChatMessage text)])%list.
Proof.
  rewrite process_order_unfold.
  destruct (chosen_order (metadata msg)
              (storage w !! session_key sender session)) as [|it rest] eqn:Hc.
  { rewrite andb_false_r. eexists. reflexivity. }
  assert (Hrun : forall sd,
             exists text,
               trace (snd (run_and_record sender session sd (it :: rest) w))
               = (trace w
                  ++ (if order_available (table_of w) (it :: rest)
                      then subtract_calls (it :: rest) (inventory w) else [])
                  ++ [EvSend sender (ChatMessage text)])%list).
  { intros sd. unfold run_and_record. cbv zeta. unfold bind.
    match goal with
    | |- context [run_agent_turn ?i ?s ?h ?k w] =>
        pose proof (run_agent_turn_calls i s h k w) as Ht;
        destruct (run_agent_turn i s h k w) as [[r|] w1]
    end; cbn [snd] in Ht.
    - unfold storage_set, send, emit.
      destruct (String.eqb (tr_content r) ""); cbn [snd trace];
        rewrite Ht, <- app_assoc; eexists; reflexivity.
    - unfold send, emit. cbn [snd trace]. rewrite Ht, <- app_assoc.
      eexists. reflexivity. }
  destruct (storage w !! session_key sender session) as [[b|sd]|];
    cbn [dict_or_absent andb].
  - eexists. reflexivity.
  - apply Hrun.
  - apply Hrun.
Qed.

(** A first, verified commit: the [CompletePayment], then the inventory
    calls of one run of the workflow, then one chat message. *)
Lemma on_commit_settles_calls (verify_and_charge : bool) (w : world) :
  storage w !! commit_key sender session msg = None ->
  (if String.eqb (payment_method (funds msg)) "skyfire"
   then verify_and_charge else false) = true ->
  exists text,
    trace (snd (on_commit verify_and_charge sender session msg w))
    = (trace w
       ++ EvSend sender (CompletePayment (transaction_id msg))
       :: (if (dict_or_absent (storage w !! session_key sender session)
               && order_available (table_of w)
                    (chosen_order (metadata msg)
                       (storage w !! session_key sender session)))%bool
           then subtract_calls
                  (chosen_order (metadata msg)
                     (storage w !! session_key sender session))
                  (inventory w)
           else [])
       ++ [EvSend sender (ChatMessage text)])%list.
Proof.
  intros Hnew Hv. rewrite (on_commit_settles sender session msg _ w Hnew Hv).
  destruct (settling_world sender session msg w) as (Hi & Hc & Hd & Ht).
  destruct (process_order_calls
              (snd (mark_payment_confirmed sender session
                      (after_complete_payment sender session msg w))))
    as (text & E).
  exists text. rewrite E, Hc, Hd, Ht. unfold table_of. rewrite Hi.
  rewrite <- app_assoc. reflexivity.
Qed.

(** The same, event by event: after the [CompletePayment] comes no
    second one and no restock, and the inventory calls are those of one
    run of the workflow. *)
Lemma on_commit_settles_rest (verify_and_charge : bool) (w : world) :
  storage w !! commit_key sender session msg = None ->
  (if String.eqb (payment_method (funds msg)) "skyfire"
   then verify_and_charge else false) = true ->
  exists rest,
    trace (snd (on_commit verify_and_charge sender session msg w))
    = (trace w
       ++ EvSend sender (CompletePayment (transaction_id msg)) :: rest)%list
    /\ forallb (fun e => negb (is_complete_payment e)
                         && negb (is_restock_event e))%bool rest = true
    /\ List.filter is_inventory_event rest
       = if (dict_or_absent (storage w !! session_key sender session)
             && order_available (table_of w)
                  (chosen_order (metadata msg)
                     (storage w !! session_key sender session)))%bool
         then subtract_calls
                (chosen_order (metadata msg)
                   (storage w !! session_key sender session))
                (inventory w)
         else [].
Proof.
  intros Hnew Hv.
  destruct (on_commit_settles_calls verify_and_charge w Hnew Hv) as (text & E).
  eexists. split; [exact E|].
  match goal with
  | |- context [if ?c then subtract_calls ?i ?d else []] =>
      set (calls := if c then subtract_calls i d else [])
  end.
  assert (Hall : forall P : event -> bool,
             (forall name qty ok, P (EvSubtract name qty ok) = true) ->
             forallb P calls = true).
  { intros P HP. unfold calls.
    match goal with |- context [if ?c then _ else _] => destruct c end;
      [apply subtract_calls_events, HP|reflexivity]. }
  split.
  - rewrite forallb_app, Hall by reflexivity. reflexivity.
  - rewrite List.filter_app, filter_all by (apply Hall; reflexivity).
    cbn. apply app_nil_r.
Qed.

End Settlement.




(** C2, amended. The chat handler, which checks the stock and requests
    the payment, calls no mutating inventory function and leaves the
    inventory table as it is.  The payment handler makes inventory calls
    for a commit that is no duplicate and has been verified, and for no
    other: for a duplicate or an unverified commit it adds no inventory
    call and leaves the inventory file untouched; for a first, verified
    commit it sends the [CompletePayment] and only then runs the workflow,
    whose inventory calls, the subtractions of its reservation step, all
    come after that message.  Within the workflow the cashier step changes
    nothing in the world. *)
Theorem inventory_is_decremented_after_settlement :
  (forall cfg llm_result sender session msg w,
      extends (fun e => negb (is_inventory_event e)) w
        (snd (handle_chat cfg llm_result sender session msg w))
      /\ table_of (snd (handle_chat cfg llm_result sender session msg w))
         = table_of w)
  /\ (forall verify_and_charge sender session msg w,
         is_Some (storage w !! commit_key sender session msg)
         \/ payment_method (funds msg) <> "skyfire"
         \/ verify_and_charge = false ->
         extends (fun e => negb (is_inventory_event e)) w
           (snd (on_commit verify_and_charge sender session msg w))
         /\ inventory (snd (on_commit verify_and_charge sender session msg w))
            = inventory w)
  /\ (forall verify_and_charge sender session msg w,
         storage w !! commit_key sender session msg = None ->
         payment_method (funds msg) = "skyfire" ->
         verify_and_charge = true ->
         exists rest,
           trace (snd (on_commit verify_and_charge sender session msg w))
           = (trace w
              ++ EvSend sender (CompletePayment (transaction_id msg))
              :: rest)%list
           /\ forallb (fun e => negb (is_restock_event e)) rest = true
           /\ List.filter is_inventory_event rest
              = if (dict_or_absent (storage w !! session_key sender session)
                    && order_available (table_of w)
                         (chosen_order (metadata msg)
                            (storage w !! session_key sender session)))%bool
                then subtract_calls
                       (chosen_order (metadata msg)
                          (storage w !! session_key sender session))
                       (inventory w)
                else [])
  /\ (forall state w, run_node cashier state w = (cashier_node state, w)).
Proof.
  split; [|split; [|split]].
  - intros cfg llm_result sender session msg w. split.
    + apply handle_chat_sends_only.
    + apply handle_chat_keeps_table.
  - intros v sender session msg w Hcase.
    destruct (storage w !! commit_key sender session msg) as [x|] eqn:Hk.
    { rewrite on_commit_duplicate; [|rewrite Hk; eauto].
      split; [apply extends_refl|reflexivity]. }
    assert (Hv : (if String.eqb (payment_method (funds msg)) "skyfire"
                  then v else false) = false).
    { destruct Hcase as [[y Hy]|[Hm|Hf]]; [discriminate Hy| |].
      - destruct (String.eqb_spec (payment_method (funds msg)) "skyfire");
          [contradiction|reflexivity].
      - rewrite Hf. destruct (String.eqb _ _); reflexivity. }
    rewrite (on_commit_rejects sender session msg v w Hk Hv). simpl.
    split; [|reflexivity].
    exists [EvSend sender (RejectPayment "Payment verification failed")].
    split; reflexivity.
  - intros v sender session msg w Hk Hm ->.
    assert (Hv : (if String.eqb (payment_method (funds msg)) "skyfire"
                  then true else false) = true).
    { rewrite Hm. reflexivity. }
    destruct (on_commit_settles_rest sender session msg true w Hk Hv)
      as (rest & E & Hall & Hcalls).
    exists rest. split; [exact E|]. split; [|exact Hcalls].
    rewrite forallb_forall in Hall |- *. intros e He.
    specialize (Hall e He). apply andb_true_iff in Hall. tauto.
  - intros state w. reflexivity.
Qed.
